(** * L'Amandier back office: schema, row-level security and presentation glue

    The first half embeds the database migration (enum types, tables,
    [has_role], [is_admin_or_staff], the row-level security policies, the
    provisioning trigger [handle_new_user], the [updated_at] trigger and the
    seed rows).  The second half embeds the two React pages
    (MenuManagement and Dashboard).  Statements follow the definitions. *)

From Stdlib Require Import ZArith NArith List String Ascii Bool Lia Arith DecimalString.
From Stdlib Require Import Sorting.Sorted Sorting.Permutation.
Import ListNotations.

Set Implicit Arguments.

(** ** SQL values and three-valued logic *)

Module Sql.

(** A nullable column is an [option]; a boolean expression evaluates to
    TRUE, FALSE or NULL. *)
Definition sql_bool := option bool.

Definition sql_eq {A : Type} (eqb : A -> A -> bool) (x y : option A) : sql_bool :=
  match x, y with
  | Some a, Some b => Some (eqb a b)
  | _, _ => None
  end.

Definition sql_and (p q : sql_bool) : sql_bool :=
  match p, q with
  | Some false, _ | _, Some false => Some false
  | Some true, Some true => Some true
  | _, _ => None
  end.

Definition sql_or (p q : sql_bool) : sql_bool :=
  match p, q with
  | Some true, _ | _, Some true => Some true
  | Some false, Some false => Some false
  | _, _ => None
  end.

(** A WHERE clause, an EXISTS subquery and a policy expression keep a row
    only when the expression is TRUE. *)
Definition is_true (p : sql_bool) : bool :=
  match p with
  | Some true => true
  | _ => false
  end.

(** [flag = true] as a filter: the flag is not NULL and set. *)
Definition flag_set (flag : option bool) : bool :=
  is_true (sql_eq Bool.eqb flag (Some true)).

(** *** Types of expressions

    A statement is typed before it runs.  A string literal such as
    ['admin'] starts with the type unknown and takes its type from where
    it stands. *)
Inductive sql_type :=
| ty_unknown
| ty_text
| ty_uuid
| ty_enum (name : string).

Definition sql_type_eqb (a b : sql_type) : bool :=
  match a, b with
  | ty_unknown, ty_unknown | ty_text, ty_text | ty_uuid, ty_uuid => true
  | ty_enum n, ty_enum m => String.eqb n m
  | _, _ => false
  end.

(** The type of [CASE ... THEN r1 ... ELSE rn END] from the types of its
    results: when every result is of type unknown the CASE is of type
    text; otherwise it has the type of the results that are known, which
    the unknown ones take.  Known results of different types cannot be
    matched (their conversions are not needed here). *)
Definition case_type (results : list sql_type) : option sql_type :=
  match filter (fun t => negb (sql_type_eqb t ty_unknown)) results with
  | [] => Some ty_text
  | t :: known => if forallb (sql_type_eqb t) known then Some t else None
  end.

(** Whether INSERT or UPDATE can store an expression of type [source] in
    a column of type [target]: the types are the same, or the expression
    is an untyped literal, which the input function of the column's type
    reads, or there is an assignment cast, which every type has to text
    and text has to no enum type. *)
Definition storable (source target : sql_type) : bool :=
  sql_type_eqb source target
  || sql_type_eqb source ty_unknown
  || sql_type_eqb target ty_text.

End Sql.

(** ** The migration *)

Module Schema.
Import Sql.

Definition uuid := N.
Definition text := string.
Definition timestamptz := Z.
(** DECIMAL(10,2), counted in hundredths. *)
Definition decimal := Z.
Bind Scope N_scope with uuid.
Bind Scope string_scope with text.
Bind Scope Z_scope with timestamptz decimal.

(** CREATE TYPE public.user_role AS ENUM ('admin', 'staff') *)
Inductive user_role := admin | staff.

(** CREATE TYPE public.order_status AS ENUM (...) *)
Inductive order_status := received | in_progress | ready | delivered | cancelled.

Definition user_role_eqb (a b : user_role) : bool :=
  match a, b with
  | admin, admin | staff, staff => true
  | _, _ => false
  end.

(** Modelled from the spec: auth.users, the identity store of the external
    authentication provider, is referenced by the migration but declared
    by the platform.  An identity has an id (the primary key), an email
    and the signup metadata read by [handle_new_user]. *)
Record auth_user := mk_auth_user {
  au_id : uuid;
  au_email : text;
  au_raw_user_meta_data : list (string * text)
}.

(** public.profiles *)
Record profile := mk_profile {
  p_id : uuid;
  p_email : text;
  p_full_name : option text;
  p_avatar_url : option text;
  p_created_at : option timestamptz;
  p_updated_at : option timestamptz
}.

(** public.user_roles: [user_id] has no NOT NULL constraint. *)
Record user_roles_row := mk_user_roles_row {
  ur_id : uuid;
  ur_user_id : option uuid;
  ur_role : user_role;
  ur_created_at : option timestamptz
}.

(** public.menu_categories *)
Record menu_category := mk_menu_category {
  mc_id : uuid;
  mc_name : text;
  mc_description : option text;
  mc_display_order : option Z;
  mc_is_active : option bool;
  mc_created_at : option timestamptz;
  mc_updated_at : option timestamptz
}.

(** public.menu_items *)
Record menu_item := mk_menu_item {
  mi_id : uuid;
  mi_category_id : option uuid;
  mi_name : text;
  mi_description : option text;
  mi_price : decimal;
  mi_image_url : option text;
  mi_display_order : option Z;
  mi_is_active : option bool;
  mi_is_available : option bool;
  mi_allergens : option (list text);
  mi_created_at : option timestamptz;
  mi_updated_at : option timestamptz
}.

(** public.orders *)
Record order := mk_order {
  o_id : uuid;
  o_customer_name : option text;
  o_customer_email : option text;
  o_customer_phone : option text;
  o_customer_notes : option text;
  o_total_amount : decimal;
  o_status : option order_status;
  o_order_type : option text;
  o_table_number : option Z;
  o_estimated_ready_time : option timestamptz;
  o_created_at : option timestamptz;
  o_updated_at : option timestamptz
}.

(** public.order_items *)
Record order_item := mk_order_item {
  oi_id : uuid;
  oi_order_id : option uuid;
  oi_menu_item_id : option uuid;
  oi_quantity : Z;
  oi_unit_price : decimal;
  oi_special_instructions : option text;
  oi_created_at : option timestamptz
}.

(** The database: one list of rows per table, in heap order. *)
Record Db := mk_Db {
  auth_users : list auth_user;
  profiles : list profile;
  user_roles : list user_roles_row;
  menu_categories : list menu_category;
  menu_items : list menu_item;
  orders : list order;
  order_items : list order_item
}.

(** *** Constraints: primary keys, UNIQUE(user_id, role), foreign keys *)

Definition mem_uuid (x : uuid) (l : list uuid) : bool := existsb (N.eqb x) l.

Fixpoint distinct (l : list uuid) : bool :=
  match l with
  | [] => true
  | x :: l' => negb (mem_uuid x l') && distinct l'
  end.

(** A nullable reference is satisfied by NULL or by an existing key. *)
Definition references (fk : option uuid) (keys : list uuid) : bool :=
  match fk with
  | None => true
  | Some k => mem_uuid k keys
  end.

(** UNIQUE(user_id, role): two rows conflict when both user ids are not
    NULL and equal and the roles are equal. *)
Definition same_assignment (a b : user_roles_row) : bool :=
  is_true (sql_eq N.eqb (ur_user_id a) (ur_user_id b)) && user_role_eqb (ur_role a) (ur_role b).

Fixpoint unique_assignments (l : list user_roles_row) : bool :=
  match l with
  | [] => true
  | r :: l' => negb (existsb (same_assignment r) l') && unique_assignments l'
  end.

Definition identity_integrity (db : Db) : bool :=
  distinct (map au_id (auth_users db))
  && distinct (map p_id (profiles db))
  && forallb (fun p => mem_uuid (p_id p) (map au_id (auth_users db))) (profiles db)
  && distinct (map ur_id (user_roles db))
  && forallb (fun r => references (ur_user_id r) (map au_id (auth_users db))) (user_roles db)
  && unique_assignments (user_roles db).

Definition catalog_integrity (db : Db) : bool :=
  distinct (map mc_id (menu_categories db))
  && distinct (map mi_id (menu_items db))
  && forallb (fun i => references (mi_category_id i) (map mc_id (menu_categories db))) (menu_items db).

Definition orders_integrity (db : Db) : bool :=
  distinct (map o_id (orders db))
  && distinct (map oi_id (order_items db))
  && forallb (fun i => references (oi_order_id i) (map o_id (orders db))) (order_items db)
  && forallb (fun i => references (oi_menu_item_id i) (map mi_id (menu_items db))) (order_items db).

Definition integrity (db : Db) : bool :=
  identity_integrity db && catalog_integrity db && orders_integrity db.

(** The result of a statement: the new state, or the error that aborts
    and rolls back the statement.  Constraints are checked on the state
    the statement would leave. *)
Inductive outcome (A : Type) : Type :=
| Done (a : A)
| PolicyViolation
| ConstraintViolation
| DatatypeMismatch.
Arguments PolicyViolation {A}.
Arguments ConstraintViolation {A}.
Arguments DatatypeMismatch {A}.

Definition commit (db : Db) : outcome Db :=
  if integrity db then Done db else ConstraintViolation.

(** gen_random_uuid() as a column default: a key not yet in the table. *)
Definition gen_random_uuid (used : list uuid) : uuid :=
  N.succ (fold_right N.max 0%N used).

(** *** Role predicates *)

(** public.has_role(_user_id, _role) *)
Definition has_role (db : Db) (_user_id : option uuid) (_role : user_role) : bool :=
  existsb
    (fun r => is_true (sql_and (sql_eq N.eqb (ur_user_id r) _user_id)
                               (sql_eq user_role_eqb (Some (ur_role r)) (Some _role))))
    (user_roles db).

(** public.is_admin_or_staff(_user_id): role IN ('admin', 'staff') *)
Definition is_admin_or_staff (db : Db) (_user_id : option uuid) : bool :=
  existsb
    (fun r => is_true (sql_and (sql_eq N.eqb (ur_user_id r) _user_id)
                               (sql_or (sql_eq user_role_eqb (Some (ur_role r)) (Some admin))
                                       (sql_eq user_role_eqb (Some (ur_role r)) (Some staff)))))
    (user_roles db).

(** *** Row-level security *)

Inductive command := SELECT | INSERT | UPDATE | DELETE.

Inductive policy_for := FOR_ALL | FOR (c : command).

Definition command_eqb (a b : command) : bool :=
  match a, b with
  | SELECT, SELECT | INSERT, INSERT | UPDATE, UPDATE | DELETE, DELETE => true
  | _, _ => false
  end.

Definition applies (f : policy_for) (c : command) : bool :=
  match f with
  | FOR_ALL => true
  | FOR c' => command_eqb c' c
  end.

(** Every policy of the migration is permissive, granted to every
    database role and has a USING expression only, which then also serves
    as its WITH CHECK expression.  The expression sees the database, the
    caller (auth.uid(), NULL when unauthenticated) and the row.  Callers
    are the requests that reach the tables through the platform's API
    roles, which row-level security binds; the SECURITY DEFINER functions
    and the foreign-key cascades run as the owner and are not bound. *)
Record policy (R : Type) := mk_policy {
  policy_name : string;
  policy_cmd : policy_for;
  policy_using : Db -> option uuid -> R -> sql_bool
}.

(** With row-level security enabled, a row passes for a command when some
    policy applicable to the command is TRUE on it; without any applicable
    policy nothing passes. *)
Definition rls_permits {R : Type} (pols : list (policy R)) (c : command)
    (db : Db) (uid : option uuid) (r : R) : bool :=
  existsb (fun p => applies (policy_cmd p) c && is_true (policy_using p db uid r)) pols.

Definition profiles_policies : list (policy profile) :=
  [ mk_policy "Users can view own profile" (FOR SELECT)
      (fun _ uid r => sql_eq N.eqb uid (Some (p_id r)));
    mk_policy "Users can update own profile" (FOR UPDATE)
      (fun _ uid r => sql_eq N.eqb uid (Some (p_id r))) ].

Definition user_roles_policies : list (policy user_roles_row) :=
  [ mk_policy "Admins can manage all user roles" FOR_ALL
      (fun db uid _ => Some (has_role db uid admin));
    mk_policy "Users can view own roles" (FOR SELECT)
      (fun _ uid r => sql_eq N.eqb uid (ur_user_id r)) ].

Definition menu_categories_policies : list (policy menu_category) :=
  [ mk_policy "Admin and staff can manage categories" FOR_ALL
      (fun db uid _ => Some (is_admin_or_staff db uid));
    mk_policy "Public can view active categories" (FOR SELECT)
      (fun _ _ r => sql_eq Bool.eqb (mc_is_active r) (Some true)) ].

Definition menu_items_policies : list (policy menu_item) :=
  [ mk_policy "Admin and staff can manage menu items" FOR_ALL
      (fun db uid _ => Some (is_admin_or_staff db uid));
    mk_policy "Public can view available items" (FOR SELECT)
      (fun _ _ r => sql_and (sql_eq Bool.eqb (mi_is_active r) (Some true))
                            (sql_eq Bool.eqb (mi_is_available r) (Some true))) ].

Definition orders_policies : list (policy order) :=
  [ mk_policy "Admin and staff can manage orders" FOR_ALL
      (fun db uid _ => Some (is_admin_or_staff db uid)) ].

Definition order_items_policies : list (policy order_item) :=
  [ mk_policy "Admin and staff can manage order items" FOR_ALL
      (fun db uid _ => Some (is_admin_or_staff db uid)) ].

(** *** Tables, statements and cascades *)

Definition with_profiles (l : list profile) (db : Db) : Db :=
  mk_Db (auth_users db) l (user_roles db) (menu_categories db) (menu_items db)
        (orders db) (order_items db).
Definition with_user_roles (l : list user_roles_row) (db : Db) : Db :=
  mk_Db (auth_users db) (profiles db) l (menu_categories db) (menu_items db)
        (orders db) (order_items db).
Definition with_menu_categories (l : list menu_category) (db : Db) : Db :=
  mk_Db (auth_users db) (profiles db) (user_roles db) l (menu_items db)
        (orders db) (order_items db).
Definition with_menu_items (l : list menu_item) (db : Db) : Db :=
  mk_Db (auth_users db) (profiles db) (user_roles db) (menu_categories db) l
        (orders db) (order_items db).
Definition with_orders (l : list order) (db : Db) : Db :=
  mk_Db (auth_users db) (profiles db) (user_roles db) (menu_categories db)
        (menu_items db) l (order_items db).
Definition with_order_items (l : list order_item) (db : Db) : Db :=
  mk_Db (auth_users db) (profiles db) (user_roles db) (menu_categories db)
        (menu_items db) (orders db) l.
Definition with_auth_users (l : list auth_user) (db : Db) : Db :=
  mk_Db l (profiles db) (user_roles db) (menu_categories db) (menu_items db)
        (orders db) (order_items db).

(** A referencing row goes with the referenced one when its foreign key is
    not NULL and names a deleted key. *)
Definition refers (fk : option uuid) (deleted : list uuid) : bool :=
  match fk with
  | Some k => mem_uuid k deleted
  | None => false
  end.

(** order_items.menu_item_id ... ON DELETE CASCADE *)
Definition cascade_menu_items (gone : list menu_item) (db : Db) : Db :=
  with_order_items
    (filter (fun oi => negb (refers (oi_menu_item_id oi) (map mi_id gone))) (order_items db)) db.

(** menu_items.category_id ... ON DELETE CASCADE; the menu items that go
    take their own referencing rows with them. *)
Definition cascade_menu_categories (gone : list menu_category) (db : Db) : Db :=
  let dead i := refers (mi_category_id i) (map mc_id gone) in
  cascade_menu_items (filter dead (menu_items db))
    (with_menu_items (filter (fun i => negb (dead i)) (menu_items db)) db).

(** order_items.order_id ... ON DELETE CASCADE *)
Definition cascade_orders (gone : list order) (db : Db) : Db :=
  with_order_items
    (filter (fun oi => negb (refers (oi_order_id oi) (map o_id gone))) (order_items db)) db.

(** profiles.id and user_roles.user_id ... ON DELETE CASCADE *)
Definition cascade_auth_users (gone : list auth_user) (db : Db) : Db :=
  with_user_roles
    (filter (fun r => negb (refers (ur_user_id r) (map au_id gone))) (user_roles db))
    (with_profiles
       (filter (fun p => negb (mem_uuid (p_id p) (map au_id gone))) (profiles db)) db).

(** Tables with an updated_at column. *)
Class HasUpdatedAt (R : Type) := {
  updated_at : R -> option timestamptz;
  set_updated_at : option timestamptz -> R -> R
}.

#[export] Instance profile_updated_at : HasUpdatedAt profile := {
  updated_at := p_updated_at;
  set_updated_at := fun t r =>
    mk_profile (p_id r) (p_email r) (p_full_name r) (p_avatar_url r) (p_created_at r) t
}.

#[export] Instance menu_category_updated_at : HasUpdatedAt menu_category := {
  updated_at := mc_updated_at;
  set_updated_at := fun t r =>
    mk_menu_category (mc_id r) (mc_name r) (mc_description r) (mc_display_order r)
                     (mc_is_active r) (mc_created_at r) t
}.

#[export] Instance menu_item_updated_at : HasUpdatedAt menu_item := {
  updated_at := mi_updated_at;
  set_updated_at := fun t r =>
    mk_menu_item (mi_id r) (mi_category_id r) (mi_name r) (mi_description r) (mi_price r)
                 (mi_image_url r) (mi_display_order r) (mi_is_active r) (mi_is_available r)
                 (mi_allergens r) (mi_created_at r) t
}.

#[export] Instance order_updated_at : HasUpdatedAt order := {
  updated_at := o_updated_at;
  set_updated_at := fun t r =>
    mk_order (o_id r) (o_customer_name r) (o_customer_email r) (o_customer_phone r)
             (o_customer_notes r) (o_total_amount r) (o_status r) (o_order_type r)
             (o_table_number r) (o_estimated_ready_time r) (o_created_at r) t
}.

(** public.update_updated_at_column(): NEW.updated_at = NOW(); RETURN NEW *)
Definition update_updated_at_column {R : Type} `{HasUpdatedAt R}
    (now : timestamptz) (NEW : R) : R :=
  set_updated_at (Some now) NEW.

(** BEFORE UPDATE ... FOR EACH ROW triggers *)
Definition update_profiles_updated_at := update_updated_at_column (R := profile).
Definition update_menu_categories_updated_at := update_updated_at_column (R := menu_category).
Definition update_menu_items_updated_at := update_updated_at_column (R := menu_item).
Definition update_orders_updated_at := update_updated_at_column (R := order).

(** What the statement engine needs to know of a table of the public
    schema: its rows, its policies, its BEFORE UPDATE row trigger (the
    identity when the migration declares none) and the cascades of the
    foreign keys that reference it. *)
Class Table (R : Type) := {
  table_rows : Db -> list R;
  table_put : list R -> Db -> Db;
  table_policies : list (policy R);
  before_update_row : timestamptz -> R -> R;
  on_delete_cascade : list R -> Db -> Db
}.

#[export] Instance profiles_table : Table profile := {
  table_rows := profiles;
  table_put := with_profiles;
  table_policies := profiles_policies;
  before_update_row := update_profiles_updated_at;
  on_delete_cascade := fun _ db => db
}.

#[export] Instance user_roles_table : Table user_roles_row := {
  table_rows := user_roles;
  table_put := with_user_roles;
  table_policies := user_roles_policies;
  before_update_row := fun _ r => r;
  on_delete_cascade := fun _ db => db
}.

#[export] Instance menu_categories_table : Table menu_category := {
  table_rows := menu_categories;
  table_put := with_menu_categories;
  table_policies := menu_categories_policies;
  before_update_row := update_menu_categories_updated_at;
  on_delete_cascade := cascade_menu_categories
}.

#[export] Instance menu_items_table : Table menu_item := {
  table_rows := menu_items;
  table_put := with_menu_items;
  table_policies := menu_items_policies;
  before_update_row := update_menu_items_updated_at;
  on_delete_cascade := cascade_menu_items
}.

#[export] Instance orders_table : Table order := {
  table_rows := orders;
  table_put := with_orders;
  table_policies := orders_policies;
  before_update_row := update_orders_updated_at;
  on_delete_cascade := cascade_orders
}.

#[export] Instance order_items_table : Table order_item := {
  table_rows := order_items;
  table_put := with_order_items;
  table_policies := order_items_policies;
  before_update_row := fun _ r => r;
  on_delete_cascade := fun _ db => db
}.

Section Statements.
Context {R : Type} `{Table R}.

(** SELECT ... WHERE: the rows that pass a SELECT policy and the filter. *)
Definition sql_select (db : Db) (uid : option uuid) (where_ : R -> bool) : list R :=
  filter (fun r => rls_permits table_policies SELECT db uid r && where_ r) (table_rows db).

(** INSERT: the new row must pass the check of an INSERT policy. *)
Definition sql_insert (db : Db) (uid : option uuid) (r : R) : outcome Db :=
  if rls_permits table_policies INSERT db uid r
  then commit (table_put (table_rows db ++ [r]) db)
  else PolicyViolation.

(** The rows an UPDATE or DELETE with a WHERE clause reaches: those that
    pass the command's USING expression, are visible to SELECT (the
    filter reads them) and match the filter. *)
Definition targeted (c : command) (db : Db) (uid : option uuid) (where_ : R -> bool)
    (r : R) : bool :=
  rls_permits table_policies c db uid r
  && rls_permits table_policies SELECT db uid r
  && where_ r.

(** DELETE without row-level security, with its cascades. *)
Definition raw_delete (hit : R -> bool) (db : Db) : Db :=
  on_delete_cascade (filter hit (table_rows db))
    (table_put (filter (fun r => negb (hit r)) (table_rows db)) db).

(** UPDATE ... SET ... WHERE: each reached row is rewritten by the SET
    clause and the BEFORE UPDATE trigger; the statement fails when a
    rewritten row does not pass the check of an UPDATE policy. *)
Definition sql_update (db : Db) (uid : option uuid) (now : timestamptz)
    (where_ : R -> bool) (set_ : R -> R) : outcome Db :=
  let hit := targeted UPDATE db uid where_ in
  let new_row r := before_update_row now (set_ r) in
  if forallb (fun r => implb (hit r) (rls_permits table_policies UPDATE db uid (new_row r)))
             (table_rows db)
  then commit (table_put (map (fun r => if hit r then new_row r else r) (table_rows db)) db)
  else PolicyViolation.

(** DELETE ... WHERE *)
Definition sql_delete (db : Db) (uid : option uuid) (where_ : R -> bool) : outcome Db :=
  commit (raw_delete (targeted DELETE db uid where_) db).

End Statements.

(** *** Updates of the menu *)

(** UPDATE public.menu_items SET ... WHERE ..., as a request: who issues
    it, when, on which rows, and what it assigns. *)
Record menu_items_update := mk_menu_items_update {
  mu_caller : option uuid;
  mu_now : timestamptz;
  mu_where : menu_item -> bool;
  mu_set : menu_item -> menu_item
}.

(** SET price = p *)
Definition set_price (p : decimal) (r : menu_item) : menu_item :=
  mk_menu_item (mi_id r) (mi_category_id r) (mi_name r) (mi_description r) p
               (mi_image_url r) (mi_display_order r) (mi_is_active r) (mi_is_available r)
               (mi_allergens r) (mi_created_at r) (mi_updated_at r).

(** A request that fails is rolled back. *)
Definition menu_items_update_step (db : Db) (q : menu_items_update) : Db :=
  match sql_update db (mu_caller q) (mu_now q) (mu_where q) (mu_set q) with
  | Done db' => db'
  | _ => db
  end.

(** *** Provisioning of new identities *)

(** raw_user_meta_data ->> key *)
Fixpoint json_get_text (key : string) (obj : list (string * text)) : option text :=
  match obj with
  | [] => None
  | (k, v) :: rest => if String.eqb k key then Some v else json_get_text key rest
  end.

(** public.handle_new_user(), SECURITY DEFINER: its two inserts are not
    subject to row-level security.  It runs AFTER INSERT, so the count of
    auth.users includes the row [NEW].

    The function is written in plpgsql, whose statements are typed when
    they first run.  The second INSERT stores in the column [role], of
    type user_role, a CASE whose results are the two string literals
    ['admin'] and ['staff'], without a cast.  When the CASE cannot be
    stored the statement raises (SQLSTATE 42804) and the function with
    it. *)
Definition handle_new_user (now : timestamptz) (NEW : auth_user) (db : Db) : outcome Db :=
  let db1 :=
    with_profiles
      (profiles db ++
       [mk_profile (au_id NEW) (au_email NEW)
                   (json_get_text "full_name" (au_raw_user_meta_data NEW))
                   None (Some now) (Some now)]) db in
  match case_type [ty_unknown; ty_unknown] with
  | Some role_type =>
      if storable role_type (ty_enum "user_role")
      then Done (with_user_roles
                   (user_roles db1 ++
                    [mk_user_roles_row (gen_random_uuid (map ur_id (user_roles db1)))
                                       (Some (au_id NEW))
                                       (if (List.length (auth_users db1) =? 1)%nat
                                        then admin else staff)
                                       (Some now)]) db1)
      else DatatypeMismatch
  | None => DatatypeMismatch
  end.

(** CREATE TRIGGER on_auth_user_created AFTER INSERT ON auth.users
    FOR EACH ROW EXECUTE FUNCTION public.handle_new_user() *)
Definition on_auth_user_created := handle_new_user.

(** The identity provider creates an identity: one row inserted into
    auth.users, whose primary key is checked as the row goes in, then
    the trigger, then the constraints of the transaction.  An error of
    the trigger aborts the insert. *)
Definition create_identity (now : timestamptz) (u : auth_user) (db : Db) : outcome Db :=
  if mem_uuid (au_id u) (map au_id (auth_users db))
  then ConstraintViolation
  else match on_auth_user_created now u (with_auth_users (auth_users db ++ [u]) db) with
       | Done db' => commit db'
       | failure => failure
       end.

(** The identity provider deletes an identity. *)
Definition delete_identity (id : uuid) (db : Db) : Db :=
  let hit u := N.eqb (au_id u) id in
  cascade_auth_users (filter hit (auth_users db))
    (with_auth_users (filter (fun u => negb (hit u)) (auth_users db)) db).

(** A history of the identity store; a creation that fails is rolled back
    and leaves the state as it was. *)
Inductive identity_event :=
  | Create (now : timestamptz) (u : auth_user)
  | Remove (id : uuid).

Definition identity_step (db : Db) (e : identity_event) : Db :=
  match e with
  | Create now u =>
      match create_identity now u db with
      | Done db' => db'
      | _ => db
      end
  | Remove id => delete_identity id db
  end.

Definition identity_history (evs : list identity_event) (db : Db) : Db :=
  fold_left identity_step evs db.

(** *** Seed rows *)

Definition seed_category (now : timestamptz) (name description : string) (display_order : Z)
    (db : Db) : Db :=
  with_menu_categories
    (menu_categories db ++
     [mk_menu_category (gen_random_uuid (map mc_id (menu_categories db)))
                       name (Some description) (Some display_order) (Some true)
                       (Some now) (Some now)]) db.

(** The state the migration leaves: empty tables and the four default
    categories. *)
Definition migrated (now : timestamptz) : Db :=
  seed_category now "Drinks" "Refreshing beverages and specialty drinks" 4
    (seed_category now "Desserts" "Sweet endings to your perfect meal" 3
       (seed_category now "Main Courses" "Hearty and satisfying main dishes" 2
          (seed_category now "Appetizers" "Start your meal with our delicious appetizers" 1
             (mk_Db [] [] [] [] [] [] [])))).

End Schema.

(** ** JavaScript values used by the pages *)

Module Js.

(** A string is a sequence of UTF-16 code units. *)
Definition code_unit := N.
Definition jsstring := list code_unit.
Bind Scope N_scope with code_unit.

(** A string literal of the source. *)
Definition lit (s : string) : jsstring := map N_of_ascii (list_ascii_of_string s).

Definition jsstring_eqb (a b : jsstring) : bool :=
  if list_eq_dec N.eq_dec a b then true else false.

(** ToBoolean on a string: the empty string is falsy. *)
Definition truthy (s : jsstring) : bool :=
  match s with
  | [] => false
  | _ :: _ => true
  end.

(** [s || null] *)
Definition or_null (s : jsstring) : option jsstring :=
  if truthy s then Some s else None.

(** [s || ""] on a string that may be null or undefined *)
Definition or_empty (s : option jsstring) : jsstring :=
  match s with
  | Some s => if truthy s then s else []
  | None => []
  end.

(** WhiteSpace and LineTerminator code points, the ones
    String.prototype.trim strips; all of them are single code units. *)
Definition is_white_space (c : code_unit) : bool :=
  (c =? 9)%N || (c =? 10)%N || (c =? 11)%N || (c =? 12)%N || (c =? 13)%N || (c =? 32)%N
  || (c =? 160)%N || (c =? 5760)%N || ((8192 <=? c)%N && (c <=? 8202)%N)
  || (c =? 8232)%N || (c =? 8233)%N || (c =? 8239)%N || (c =? 8287)%N
  || (c =? 12288)%N || (c =? 65279)%N.

Fixpoint trimStart (s : jsstring) : jsstring :=
  match s with
  | [] => []
  | c :: s' => if is_white_space c then trimStart s' else s
  end.

Definition trimEnd (s : jsstring) : jsstring := rev (trimStart (rev s)).

(** String.prototype.trim *)
Definition trim (s : jsstring) : jsstring := trimEnd (trimStart s).

(** String.prototype.split with a separator of one code unit: always at
    least one piece, one more than there are separators. *)
Fixpoint split (sep : code_unit) (s : jsstring) : list jsstring :=
  match s with
  | [] => [[]]
  | c :: s' =>
      if (c =? sep)%N then [] :: split sep s'
      else match split sep s' with
           | piece :: pieces => (c :: piece) :: pieces
           | [] => [[c]]
           end
  end.

(** Array.prototype.join *)
Fixpoint join (sep : jsstring) (pieces : list jsstring) : jsstring :=
  match pieces with
  | [] => []
  | [p] => p
  | p :: rest => p ++ sep ++ join sep rest
  end.

Definition comma : code_unit := 44.

(** Array.prototype.sort with a comparator: stable, an element [a] stays
    before [b] unless [cmp a b > 0].  Insertion from the right end keeps
    equal elements in their order. *)
Fixpoint sort_insert {A : Type} (cmp : A -> A -> Z) (x : A) (sorted : list A) : list A :=
  match sorted with
  | [] => [x]
  | y :: rest => if (cmp x y <=? 0)%Z then x :: sorted else y :: sort_insert cmp x rest
  end.

Definition sort {A : Type} (cmp : A -> A -> Z) (l : list A) : list A :=
  fold_right (sort_insert cmp) [] l.

(** *** An object literal used as a dictionary

    [const dishCounts: Record<string, number> = {}].  The object has its
    own properties, and behind them those of Object.prototype. *)

(** What a property of the dictionary holds: a number as declared, or a
    string, which is what adding a number to an object gives. *)
Inductive Value :=
| v_number (n : Z)
| v_string (s : jsstring).

(** The own properties, in creation order. *)
Definition dict := list (jsstring * Value).

Fixpoint get_own (d : dict) (k : jsstring) : option Value :=
  match d with
  | [] => None
  | (k', v) :: rest => if jsstring_eqb k' k then Some v else get_own rest k
  end.

(** An existing own property keeps its place, a new one goes last. *)
Fixpoint set_own (d : dict) (k : jsstring) (v : Value) : dict :=
  match d with
  | [] => [(k, v)]
  | (k', v') :: rest =>
      if jsstring_eqb k' k then (k', v) :: rest else (k', v') :: set_own rest k v
  end.

(** The methods of Object.prototype: the name of the property and the
    name of the function it holds.  They are writable and not
    enumerable. *)
Definition object_prototype_methods : list (string * string) :=
  [ ("constructor", "Object");
    ("hasOwnProperty", "hasOwnProperty");
    ("isPrototypeOf", "isPrototypeOf");
    ("propertyIsEnumerable", "propertyIsEnumerable");
    ("toLocaleString", "toLocaleString");
    ("toString", "toString");
    ("valueOf", "valueOf");
    ("__defineGetter__", "__defineGetter__");
    ("__defineSetter__", "__defineSetter__");
    ("__lookupGetter__", "__lookupGetter__");
    ("__lookupSetter__", "__lookupSetter__") ]%string.

Fixpoint method_named (k : jsstring) (methods : list (string * string)) : option string :=
  match methods with
  | [] => None
  | (property, function) :: rest =>
      if jsstring_eqb (lit property) k then Some function else method_named k rest
  end.

(** [__proto__] is the one accessor of Object.prototype: reading it
    gives the prototype of the object, writing it changes the prototype
    when the value is an object or null and does nothing otherwise. *)
Definition proto : jsstring := lit "__proto__".

(** The key names a member of Object.prototype. *)
Definition inherits (k : jsstring) : bool :=
  jsstring_eqb k proto
  || match method_named k object_prototype_methods with Some _ => true | None => false end.

(** What [d[k]] evaluates to when it is not undefined. *)
Inductive Operand :=
| a_value (v : Value)
| a_method (function : string)
| the_prototype.

(** [d[k]]: the own property; failing that, what Object.prototype has
    under this name; undefined otherwise. *)
Definition get (d : dict) (k : jsstring) : option Operand :=
  match get_own d k with
  | Some v => Some (a_value v)
  | None =>
      if jsstring_eqb k proto then Some the_prototype
      else option_map a_method (method_named k object_prototype_methods)
  end.

(** [d[k] = v] with a number or a string [v]: an own property is
    written; without one, the setter of [__proto__] leaves the object as
    it is, and any other key becomes a new own property. *)
Definition set (d : dict) (k : jsstring) (v : Value) : dict :=
  match get_own d k with
  | Some _ => set_own d k v
  | None => if jsstring_eqb k proto then d else set_own d k v
  end.

(** [x || 0]: undefined, 0 and the empty string are falsy; objects are
    truthy. *)
Definition or_zero (x : option Operand) : Operand :=
  match x with
  | None => a_value (v_number 0%Z)
  | Some (a_value (v_string s)) => if truthy s then a_value (v_string s) else a_value (v_number 0%Z)
  | Some operand => operand
  end.

(** The decimal digits of an integer, which is what ToString gives for
    an integer below 10^21 in absolute value; the quantities are INTEGER
    columns. *)
Definition number_to_string (n : Z) : jsstring := lit (NilZero.string_of_int (Z.to_int n)).

(** [String(f)] for a built-in function [f], by the name of the
    function: the standard fixes its shape, "function", the name, "()"
    and a body that reads [native code], and leaves the white space to
    the engine. *)
Class JsEngine := {
  function_source : string -> jsstring
}.

(** [x + q] with a number [q].  Two numbers are added.  Anything else is
    concatenated with the digits of [q]: a string as it is, a function as
    its source text, Object.prototype as "[object Object]". *)
Definition plus {JE : JsEngine} (x : Operand) (q : Z) : Value :=
  match x with
  | a_value (v_number n) => v_number (n + q)%Z
  | a_value (v_string s) => v_string (s ++ number_to_string q)
  | a_method f => v_string (function_source f ++ number_to_string q)
  | the_prototype => v_string (lit "[object Object]" ++ number_to_string q)
  end.

(** [b - a] on two counts, [None] for NaN.  A string among the counts
    starts with the source text of a function or with "[object Object]",
    which ToNumber reads as NaN. *)
Definition minus (b a : Value) : option Z :=
  match b, a with
  | v_number y, v_number x => Some (y - x)%Z
  | _, _ => None
  end.

(** What sort makes of the result of its comparator: NaN counts as 0.
    (Between numbers, NaN results make the comparator inconsistent, and
    the standard then leaves the order to the engine; [sort] above is one
    such order.) *)
Definition compared (difference : option Z) : Z :=
  match difference with
  | Some z => z
  | None => 0%Z
  end.

(** An array index: the canonical decimal form of an integer below
    2^32 - 1. *)
Definition digit (c : code_unit) : option N :=
  if (48 <=? c)%N && (c <=? 57)%N then Some (c - 48)%N else None.

Fixpoint digits_value (acc : N) (s : jsstring) : option N :=
  match s with
  | [] => Some acc
  | c :: s' =>
      match digit c with
      | Some d => digits_value (10 * acc + d) s'
      | None => None
      end
  end.

Definition array_index (k : jsstring) : option N :=
  match k with
  | [] => None
  | c :: rest =>
      if (c =? 48)%N && truthy rest then None
      else match digits_value 0 k with
           | Some n => if (n <? 4294967295)%N then Some n else None
           | None => None
           end
  end.

Definition is_array_index (k : jsstring) : bool :=
  match array_index k with
  | Some _ => true
  | None => false
  end.

Definition index_order (a b : jsstring * Value) : Z :=
  Z.of_N (match array_index (fst a) with Some n => n | None => 0 end)
  - Z.of_N (match array_index (fst b) with Some n => n | None => 0 end).

(** Object.entries: the own properties, array-index keys in ascending
    numeric order first, then the other keys in creation order. *)
Definition entries (d : dict) : list (jsstring * Value) :=
  sort index_order (filter (fun kv => is_array_index (fst kv)) d)
  ++ filter (fun kv => negb (is_array_index (fst kv))) d.

End Js.

(** ** The pages: MenuManagement and Dashboard *)

Module Pages.
Import Js.

(** JavaScript numbers that are not integers (prices, revenue) stay
    abstract; counts and quantities are integers. *)
Class JsNumber := {
  number : Type;
  num_of_Z : Z -> number;
  num_add : number -> number -> number;
  num_truthy : number -> bool;
  parseFloat : jsstring -> number
}.

Section Components.
Context {JN : JsNumber} {JE : JsEngine}.

(** interface MenuItem.  A row of menu_items as the backend returns it:
    description, image_url, category_id and allergens are nullable
    columns. *)
Record MenuItem := mk_MenuItem {
  it_id : jsstring;
  it_name : jsstring;
  it_description : option jsstring;
  it_price : number;
  it_image_url : option jsstring;
  it_category_id : option jsstring;
  it_is_active : bool;
  it_is_available : bool;
  it_allergens : option (list jsstring);
  it_display_order : Z;
  it_menu_categories : option jsstring
}.

(** interface MenuCategory *)
Record MenuCategory := mk_MenuCategory {
  cat_id : jsstring;
  cat_name : jsstring;
  cat_description : option jsstring;
  cat_is_active : bool;
  cat_display_order : Z
}.

(** The form state of MenuManagement. *)
Record FormData := mk_FormData {
  fd_name : jsstring;
  fd_description : jsstring;
  fd_price : jsstring;
  fd_image_url : jsstring;
  fd_category_id : jsstring;
  fd_is_active : bool;
  fd_is_available : bool;
  fd_allergens : jsstring
}.

(** The object sent to the backend by handleSubmit. *)
Record ItemData := mk_ItemData {
  d_name : jsstring;
  d_description : jsstring;
  d_price : number;
  d_image_url : option jsstring;
  d_category_id : option jsstring;
  d_is_active : bool;
  d_is_available : bool;
  d_allergens : option (list jsstring)
}.

(** const itemData = { ... } in handleSubmit *)
Definition itemData (formData : FormData) : ItemData :=
  mk_ItemData
    (fd_name formData)
    (fd_description formData)
    (parseFloat (fd_price formData))
    (or_null (fd_image_url formData))
    (or_null (fd_category_id formData))
    (fd_is_active formData)
    (fd_is_available formData)
    (if truthy (fd_allergens formData)
     then Some (map trim (split comma (fd_allergens formData)))
     else None).

(** A row of the dashboard's order_items query:
    select('menu_item_id, quantity, menu_items(name)'). *)
Record OrderItemRow := mk_OrderItemRow {
  oi_menu_item_id : option jsstring;
  oi_quantity : Z;
  oi_menu_items : option jsstring
}.

Record Dish := mk_Dish { dish_name : jsstring; dish_count : Value }.

(** [(item as any).menu_items?.name], kept when truthy *)
Definition dishName (item : OrderItemRow) : option jsstring :=
  match oi_menu_items item with
  | Some name => or_null name
  | None => None
  end.

(** orderItems?.forEach(item => { ... }) *)
Definition count_dish (dishCounts : dict) (item : OrderItemRow) : dict :=
  match dishName item with
  | Some name =>
      set dishCounts name (plus (or_zero (get dishCounts name)) (oi_quantity item))
  | None => dishCounts
  end.

Definition dishCounts (orderItems : list OrderItemRow) : dict :=
  fold_left count_dish orderItems [].

(** Object.entries(dishCounts).sort(([,a], [,b]) => b - a).slice(0, 5)
    .map(([name, count]) => ({ name, count })) *)
Definition popularDishes (orderItems : list OrderItemRow) : list Dish :=
  map (fun kv => mk_Dish (fst kv) (snd kv))
      (firstn 5 (sort (fun a b => compared (minus (snd b) (snd a)))
                      (entries (dishCounts orderItems)))).

(** *** Requests and responses *)

Inductive Filter :=
| f_eq (column : string) (value : jsstring)
| f_in (column : string) (values : list jsstring)
| f_gte (column : string) (value : jsstring)
| f_lt (column : string) (value : jsstring).

Inductive Patch :=
| patch_item (d : ItemData)
| patch_available (is_available : bool).

(** A query built with the client: from(table) followed by select,
    insert, update or delete and its filters. *)
Inductive Query :=
| q_select (table columns : string) (count_only : bool) (filters : list Filter)
           (order : option string)
| q_insert (table : string) (rows : list ItemData)
| q_update (table : string) (patch : Patch) (filters : list Filter)
| q_delete (table : string) (filters : list Filter).

Inductive Data :=
| d_null
| d_menu_items (rows : list MenuItem)
| d_categories (rows : list MenuCategory)
| d_totals (total_amounts : list number)
| d_order_items (rows : list OrderItemRow).

Record ErrorObject := mk_ErrorObject { message : jsstring }.

(** What a query resolves to: { data, error, count }. *)
Record Response := mk_Response {
  data : Data;
  error : option ErrorObject;
  count : option Z
}.

(** A query's promise resolves with a response, which carries the error
    of a call that failed, or rejects. *)
Inductive Settled :=
| Resolved (r : Response)
| Rejected (reason : ErrorObject).

Definition failed (s : Settled) : bool :=
  match s with
  | Resolved r => match error r with Some _ => true | None => false end
  | Rejected _ => true
  end.

Record Toast := mk_Toast {
  title : string;
  description : jsstring;
  destructive : bool
}.

(** What the user and the backend see of a handler: the requests it
    issues, those of one Promise.all together, with what they settled
    to, and the toasts it shows. *)
Inductive Event :=
| Requested (queries : list Query) (outcomes : list Settled)
| Toasted (t : Toast).

(** *** Handlers as state-and-exception programs *)

Section Handlers.
(** The backend: any state, any way of serving a query. *)
Variable B : Type.
Variable serve : Query -> B -> Settled * B.

Record World (S : Type) := mk_World {
  backend : B;
  trace : list Event;
  state : S
}.

(** A computation ends with a value or a thrown error; the world it
    leaves is kept either way. *)
Definition M (S A : Type) : Type := World S -> (ErrorObject + A) * World S.

Definition ret {S A : Type} (a : A) : M S A := fun w => (inr a, w).

Definition bind {S A C : Type} (m : M S A) (k : A -> M S C) : M S C :=
  fun w =>
    match m w with
    | (inr a, w') => k a w'
    | (inl e, w') => (inl e, w')
    end.

Definition throw {S A : Type} (e : ErrorObject) : M S A := fun w => (inl e, w).

(** try { body } catch (error) { handler error } *)
Definition try_catch {S A : Type} (body : M S A) (handler : ErrorObject -> M S A) : M S A :=
  fun w =>
    match body w with
    | (inr a, w') => (inr a, w')
    | (inl e, w') => handler e w'
    end.

(** try { body } finally { cleanup } *)
Definition try_finally {S A : Type} (body : M S A) (cleanup : M S unit) : M S A :=
  fun w =>
    match body w with
    | (r, w') =>
        match cleanup w' with
        | (inr _, w'') => (r, w'')
        | (inl e, w'') => (inl e, w'')
        end
    end.

Definition emit {S : Type} (e : Event) : M S unit :=
  fun w => (inr tt, mk_World (backend w) (trace w ++ [e]) (state w)).

Definition toast {S : Type} (t : Toast) : M S unit := emit (Toasted t).

Definition get_state {S : Type} : M S S := fun w => (inr (state w), w).

Definition set_state {S : Type} (f : S -> S) : M S unit :=
  fun w => (inr tt, mk_World (backend w) (trace w) (f (state w))).

(** await query *)
Definition await {S : Type} (q : Query) : M S Response :=
  fun w =>
    let (s, b) := serve q (backend w) in
    let w' := mk_World b (trace w ++ [Requested [q] [s]]) (state w) in
    match s with
    | Resolved r => (inr r, w')
    | Rejected e => (inl e, w')
    end.

(** await Promise.all([q1, q2]): both requests are issued before
    either result is looked at. *)
Definition await_all {S : Type} (q1 q2 : Query) : M S (Response * Response) :=
  fun w =>
    let (s1, b1) := serve q1 (backend w) in
    let (s2, b2) := serve q2 b1 in
    let w' := mk_World b2 (trace w ++ [Requested [q1; q2] [s1; s2]]) (state w) in
    match s1, s2 with
    | Resolved r1, Resolved r2 => (inr (r1, r2), w')
    | Rejected e, _ => (inl e, w')
    | _, Rejected e => (inl e, w')
    end.

(** if (error) throw error *)
Definition throw_if_error {S : Type} (r : Response) : M S unit :=
  match error r with
  | Some e => throw e
  | None => ret tt
  end.

Notation "x <- m ;; k" := (bind m (fun x => k))
  (at level 61, m at next level, right associativity).
Notation "m ;;; k" := (bind m (fun _ => k))
  (at level 61, right associativity).

(** *** MenuManagement *)

Record MenuState := mk_MenuState {
  menuItems : list MenuItem;
  categories : list MenuCategory;
  loading : bool;
  dialogOpen : bool;
  editingItem : option MenuItem;
  formData : FormData
}.

Definition setMenuItems (v : list MenuItem) : M MenuState unit :=
  set_state (fun s => mk_MenuState v (categories s) (loading s) (dialogOpen s)
                                   (editingItem s) (formData s)).
Definition setCategories (v : list MenuCategory) : M MenuState unit :=
  set_state (fun s => mk_MenuState (menuItems s) v (loading s) (dialogOpen s)
                                   (editingItem s) (formData s)).
Definition setLoading (v : bool) : M MenuState unit :=
  set_state (fun s => mk_MenuState (menuItems s) (categories s) v (dialogOpen s)
                                   (editingItem s) (formData s)).
Definition setDialogOpen (v : bool) : M MenuState unit :=
  set_state (fun s => mk_MenuState (menuItems s) (categories s) (loading s) v
                                   (editingItem s) (formData s)).
Definition setEditingItem (v : option MenuItem) : M MenuState unit :=
  set_state (fun s => mk_MenuState (menuItems s) (categories s) (loading s)
                                   (dialogOpen s) v (formData s)).
Definition setFormData (v : FormData) : M MenuState unit :=
  set_state (fun s => mk_MenuState (menuItems s) (categories s) (loading s)
                                   (dialogOpen s) (editingItem s) v).

(** [response.data || []] *)
Definition menu_items_or_empty (r : Response) : list MenuItem :=
  match data r with
  | d_menu_items rows => rows
  | _ => []
  end.

Definition categories_or_empty (r : Response) : list MenuCategory :=
  match data r with
  | d_categories rows => rows
  | _ => []
  end.

Definition fetchMenuData : M MenuState unit :=
  try_finally
    (try_catch
       (rs <- await_all
                (q_select "menu_items" "*, menu_categories(name)" false []
                          (Some "display_order"%string))
                (q_select "menu_categories" "*" false [] (Some "display_order"%string)) ;;
        throw_if_error (fst rs) ;;;
        throw_if_error (snd rs) ;;;
        setMenuItems (menu_items_or_empty (fst rs)) ;;;
        setCategories (categories_or_empty (snd rs)))
       (fun _ => toast (mk_Toast "Error" (lit "Failed to fetch menu data") true)))
    (setLoading false).

Definition resetForm : M MenuState unit :=
  setFormData (mk_FormData [] [] [] [] [] true true []).

Definition handleSubmit : M MenuState unit :=
  try_catch
    (s <- get_state ;;
     let itemData := itemData (formData s) in
     match editingItem s with
     | Some item =>
         r <- await (q_update "menu_items" (patch_item itemData) [f_eq "id" (it_id item)]) ;;
         throw_if_error r ;;;
         toast (mk_Toast "Success" (lit "Menu item updated successfully") false)
     | None =>
         r <- await (q_insert "menu_items" [itemData]) ;;
         throw_if_error r ;;;
         toast (mk_Toast "Success" (lit "Menu item added successfully") false)
     end ;;;
     setDialogOpen false ;;;
     setEditingItem None ;;;
     resetForm ;;;
     fetchMenuData)
    (fun error => toast (mk_Toast "Error" (message error) true)).

(** [price.toString()] of the item being edited, as the form shows it. *)
Variable number_toString : number -> jsstring.

Definition handleEdit (item : MenuItem) : M MenuState unit :=
  setEditingItem (Some item) ;;;
  setFormData
    (mk_FormData
       (it_name item)
       (or_empty (it_description item))
       (number_toString (it_price item))
       (or_empty (it_image_url item))
       (or_empty (it_category_id item))
       (it_is_active item)
       (it_is_available item)
       (or_empty (option_map (join (lit ", ")) (it_allergens item)))) ;;;
  setDialogOpen true.

(** The answer of the user to window.confirm. *)
Variable confirm : string -> bool.

Definition handleDelete (id : jsstring) : M MenuState unit :=
  if negb (confirm "Are you sure you want to delete this menu item?")
  then ret tt
  else
    try_catch
      (r <- await (q_delete "menu_items" [f_eq "id" id]) ;;
       throw_if_error r ;;;
       toast (mk_Toast "Success" (lit "Menu item deleted successfully") false) ;;;
       fetchMenuData)
      (fun _ => toast (mk_Toast "Error" (lit "Failed to delete menu item") true)).

Definition toggleAvailability (item : MenuItem) : M MenuState unit :=
  try_catch
    (r <- await (q_update "menu_items" (patch_available (negb (it_is_available item)))
                          [f_eq "id" (it_id item)]) ;;
     throw_if_error r ;;;
     toast (mk_Toast "Success"
              (it_name item ++ lit " "
               ++ lit (if negb (it_is_available item) then "enabled" else "disabled"))
              false) ;;;
     fetchMenuData)
    (fun _ => toast (mk_Toast "Error" (lit "Failed to update item availability") true)).

(** *** Dashboard *)

Record DashboardStats := mk_DashboardStats {
  totalOrders : Z;
  pendingOrders : Z;
  todayRevenue : number;
  stats_popularDishes : list Dish
}.

Record DashboardState := mk_DashboardState {
  stats : DashboardStats;
  dashboard_loading : bool
}.

Definition setStats (v : DashboardStats) : M DashboardState unit :=
  set_state (fun s => mk_DashboardState v (dashboard_loading s)).

Definition setDashboardLoading (v : bool) : M DashboardState unit :=
  set_state (fun s => mk_DashboardState (stats s) v).

(** [count || 0] *)
Definition count_or_zero (r : Response) : Z :=
  match count r with
  | Some c => c
  | None => 0%Z
  end.

(** [todayOrders?.reduce((sum, order) => sum + Number(order.total_amount), 0) || 0] *)
Definition revenue (r : Response) : number :=
  match data r with
  | d_totals amounts =>
      let sum := fold_left num_add amounts (num_of_Z 0) in
      if num_truthy sum then sum else num_of_Z 0
  | _ => num_of_Z 0
  end.

Definition order_items_or_empty (r : Response) : list OrderItemRow :=
  match data r with
  | d_order_items rows => rows
  | _ => []
  end.

(** [today] is new Date().toISOString().split('T')[0]. *)
Definition fetchDashboardStats (today : jsstring) : M DashboardState unit :=
  try_finally
    (try_catch
       (r_total <- await (q_select "orders" "*" true [] None) ;;
        r_pending <- await (q_select "orders" "*" true
                              [f_in "status" [lit "received"; lit "in_progress"]] None) ;;
        r_today <- await (q_select "orders" "total_amount" false
                            [f_gte "created_at" (today ++ lit "T00:00:00");
                             f_lt "created_at" (today ++ lit "T23:59:59")] None) ;;
        r_items <- await (q_select "order_items" "menu_item_id, quantity, menu_items(name)"
                            false [f_gte "created_at" (today ++ lit "T00:00:00")] None) ;;
        setStats (mk_DashboardStats
                    (count_or_zero r_total)
                    (count_or_zero r_pending)
                    (revenue r_today)
                    (popularDishes (order_items_or_empty r_items))))
       (fun _ => toast (mk_Toast "Error" (lit "Failed to fetch dashboard statistics") true)))
    (setDashboardLoading false).

(** *** What the trace says about failures *)

Definition batch_failed (e : Event) : bool :=
  match e with
  | Requested _ outcomes => existsb failed outcomes
  | Toasted _ => false
  end.

Definition is_request (e : Event) : bool :=
  match e with
  | Requested _ _ => true
  | Toasted _ => false
  end.

Definition is_error_toast (e : Event) : bool :=
  match e with
  | Toasted t => destructive t
  | Requested _ _ => false
  end.

(** From the first failed call on: exactly one error notification and
    no further request. *)
Fixpoint failure_reported (tr : list Event) : bool :=
  match tr with
  | [] => true
  | e :: rest =>
      if batch_failed e
      then (List.length (filter is_error_toast rest) =? 1)%nat
           && forallb (fun e' => negb (is_request e')) rest
      else failure_reported rest
  end.

(** The backend state after serving the given queries in order. *)
Definition served (qs : list Query) (b : B) : B :=
  fold_left (fun b q => snd (serve q b)) qs b.

Definition requests (tr : list Event) : list Query :=
  flat_map (fun e => match e with Requested qs _ => qs | Toasted _ => [] end) tr.
End Handlers.
End Components.

End Pages.

(** * Vocabulary of the statements *)

Module SchemaSpec.
Import Sql Schema.

(** A database with one admin (identity 1), one staff member (identity
    2), an identity without role (identity 3) and a small catalog. *)
Definition sample_db : Db :=
  let u1 := mk_auth_user 1 "chef@amandier.example" [] in
  let u2 := mk_auth_user 2 "salle@amandier.example" [] in
  let u3 := mk_auth_user 3 "guest@amandier.example" [] in
  mk_Db [u1; u2; u3]
    [mk_profile 1 "chef@amandier.example" None None (Some 5%Z) (Some 5%Z);
     mk_profile 2 "salle@amandier.example" None None (Some 6%Z) (Some 6%Z);
     mk_profile 3 "guest@amandier.example" None None (Some 7%Z) (Some 7%Z)]
    [mk_user_roles_row 1 (Some 1%N) admin (Some 5%Z);
     mk_user_roles_row 2 (Some 2%N) staff (Some 6%Z)]
    [mk_menu_category 1 "Desserts" None (Some 3%Z) (Some true) (Some 0%Z) (Some 0%Z);
     mk_menu_category 2 "Specials" None (Some 5%Z) (Some false) (Some 0%Z) (Some 0%Z)]
    [mk_menu_item 1 (Some 1%N) "Tarte amandine" None 850 None (Some 1%Z)
                  (Some true) (Some true) None (Some 1%Z) (Some 1%Z);
     mk_menu_item 2 (Some 1%N) "Clafoutis" None 700 None (Some 2%Z)
                  (Some true) (Some false) None (Some 1%Z) (Some 1%Z);
     mk_menu_item 3 (Some 2%N) "Plat du jour" None 1600 None (Some 1%Z)
                  (Some false) (Some true) None (Some 1%Z) (Some 1%Z)]
    [mk_order 1 (Some "Lina"%string) None None None 1550 (Some received)
              (Some "dine_in"%string) (Some 4%Z) None (Some 8%Z) (Some 8%Z)]
    [mk_order_item 1 (Some 1%N) (Some 1%N) 1 850 None (Some 8%Z);
     mk_order_item 2 (Some 1%N) (Some 2%N) 1 700 None (Some 8%Z)].

(** What an UPDATE leaves in a table: a reached row carries the time of
    the update in updated_at, any other row is as it was. *)
Definition refreshed {R : Type} `{Table R} `{HasUpdatedAt R}
    (db : Db) (uid : option uuid) (now : timestamptz) (where_ : R -> bool) (db' : Db) : Prop :=
  Forall2 (fun old new =>
             if targeted UPDATE db uid where_ old
             then updated_at new = Some now
             else new = old)
          (table_rows db) (table_rows db').

Definition ids_of (db : Db) : list uuid := map au_id (auth_users db).

(** The pairs (user_id, role) of user_roles, in heap order. *)
Definition assigned (db : Db) : list (option uuid * user_role) :=
  map (fun r => (ur_user_id r, ur_role r)) (user_roles db).

End SchemaSpec.

Module PagesSpec.
Import Js Pages.

(** The line items of a dish: those whose menu item carries this name. *)
Definition names (name : jsstring) (item : OrderItemRow) : bool :=
  match oi_menu_items item with
  | Some n => jsstring_eqb n name
  | None => false
  end.

(** The quantity ordered of a dish over a list of line items. *)
Definition ordered (name : jsstring) (items : list OrderItemRow) : Z :=
  fold_right Z.add 0%Z (map oi_quantity (filter (names name) items)).

(** No menu item of the line items is called like a member of
    Object.prototype. *)
Definition plain (items : list OrderItemRow) : Prop :=
  forall item name, In item items -> oi_menu_items item = Some name -> inherits name = false.

(** Both counts are numbers, and the first is at most the second. *)
Definition count_le (a b : Value) : Prop :=
  match a, b with
  | v_number x, v_number y => (x <= y)%Z
  | _, _ => False
  end.

(** Every dish of the day, most ordered first. *)
Definition ranking {JE : JsEngine} (orderItems : list OrderItemRow) : list Dish :=
  map (fun kv => mk_Dish (fst kv) (snd kv))
      (sort (fun a b => compared (minus (snd b) (snd a))) (entries (dishCounts orderItems))).

(** The source text of built-in functions as V8 prints it. *)
Definition v8 : JsEngine := {|
  function_source := fun name => lit "function " ++ lit name ++ lit "() { [native code] }"
|}.

(** A line item of the dashboard query with a named menu item. *)
Definition line (name : string) (quantity : Z) : OrderItemRow :=
  mk_OrderItemRow None quantity (Some (lit name)).

(** A string without white space at either end. *)
Definition stripped (s : jsstring) : Prop :=
  (forall c rest, s = c :: rest -> is_white_space c = false)
  /\ (forall c rest, s = rest ++ [c] -> is_white_space c = false).

(** [entry] is [piece] without the white space at its two ends. *)
Definition trimmed (piece entry : jsstring) : Prop :=
  stripped entry
  /\ exists l r, piece = l ++ entry ++ r
                 /\ forallb is_white_space l = true
                 /\ forallb is_white_space r = true.

(** The query handleSubmit issues for a form: an update of the item
    being edited, an insert otherwise, with the same object. *)
Definition submitted {JN : JsNumber} (s : MenuState) : Query :=
  match editingItem s with
  | Some item => q_update "menu_items" (patch_item (itemData (formData s)))
                          [f_eq "id" (it_id item)]
  | None => q_insert "menu_items" [itemData (formData s)]
  end.

(** A stand-in for JavaScript numbers, to run the pages on examples. *)
Definition whole_numbers : JsNumber := {|
  number := Z;
  num_of_Z := fun z => z;
  num_add := Z.add;
  num_truthy := fun z => negb (z =? 0)%Z;
  parseFloat := fun _ => 0%Z
|}.

Definition allergens_form : FormData :=
  mk_FormData (lit "Tarte amandine") (lit "") (lit "8.50") [] (lit "c-3") true true
              (lit " nuts, dairy ,gluten").

(** The backend cannot be reached: every query resolves with the error of
    the failed fetch and changes nothing. *)
Definition unreachable :
    Query (JN := whole_numbers) -> unit -> Settled (JN := whole_numbers) * unit :=
  fun _ b => (Resolved (mk_Response d_null (Some (mk_ErrorObject (lit "Failed to fetch"))) None), b).

Definition dashboard_start : World (JN := whole_numbers) unit DashboardState :=
  mk_World tt [] (mk_DashboardState (mk_DashboardStats (JN := whole_numbers) 0 0 0%Z []) true).

End PagesSpec.

(** * Further vocabulary: statements beyond the catalogued claims *)

Module SchemaMore.
Import Sql Schema SchemaSpec.

(** SET status = s *)
Definition set_status (s : order_status) (r : order) : order :=
  mk_order (o_id r) (o_customer_name r) (o_customer_email r) (o_customer_phone r)
           (o_customer_notes r) (o_total_amount r) (Some s) (o_order_type r)
           (o_table_number r) (o_estimated_ready_time r) (o_created_at r) (o_updated_at r).

(** SET is_available = b *)
Definition set_available (b : bool) (r : menu_item) : menu_item :=
  mk_menu_item (mi_id r) (mi_category_id r) (mi_name r) (mi_description r) (mi_price r)
               (mi_image_url r) (mi_display_order r) (mi_is_active r) (Some b)
               (mi_allergens r) (mi_created_at r) (mi_updated_at r).

(** WHERE user_id = u *)
Definition assigned_to (u : uuid) (r : user_roles_row) : bool :=
  is_true (sql_eq N.eqb (ur_user_id r) (Some u)).

(** The caller is the identity of this profile: auth.uid() = id is TRUE. *)
Definition own_profile (uid : option uuid) (p : profile) : bool :=
  is_true (sql_eq N.eqb uid (Some (p_id p))).

End SchemaMore.

Module PagesMore.
Import Js Pages PagesSpec.

(** An allergen as the form can hold it: nothing to trim, no comma. *)
Definition clean (a : jsstring) : Prop := stripped a /\ ~ In comma a.

(** The same, as a test on a string. *)
Definition clean_word (a : jsstring) : bool := forallb (fun c => negb (N.eqb c comma)) a.

Section More.
Context {JN : JsNumber} {B : Type}.

(** onClick of the "Add Menu Item" button:
    resetForm(); setEditingItem(null) *)
Definition add_click : M B MenuState unit :=
  bind (@resetForm JN B) (fun _ => setEditingItem None).

(** onClick of the Cancel button: setDialogOpen(false) *)
Definition cancel_click : M B MenuState unit := setDialogOpen false.

(** The inputs of the form: each onChange is
    setFormData(prev => ({ ...prev, field: value })). *)
Inductive FieldChange :=
| change_name (value : jsstring)
| change_description (value : jsstring)
| change_price (value : jsstring)
| change_category_id (value : jsstring)
| change_image_url (value : jsstring)
| change_allergens (value : jsstring)
| change_is_active (checked : bool)
| change_is_available (checked : bool).

Definition changed (prev : FormData) (c : FieldChange) : FormData :=
  match c with
  | change_name v =>
      mk_FormData v (fd_description prev) (fd_price prev) (fd_image_url prev)
                  (fd_category_id prev) (fd_is_active prev) (fd_is_available prev)
                  (fd_allergens prev)
  | change_description v =>
      mk_FormData (fd_name prev) v (fd_price prev) (fd_image_url prev)
                  (fd_category_id prev) (fd_is_active prev) (fd_is_available prev)
                  (fd_allergens prev)
  | change_price v =>
      mk_FormData (fd_name prev) (fd_description prev) v (fd_image_url prev)
                  (fd_category_id prev) (fd_is_active prev) (fd_is_available prev)
                  (fd_allergens prev)
  | change_category_id v =>
      mk_FormData (fd_name prev) (fd_description prev) (fd_price prev) (fd_image_url prev)
                  v (fd_is_active prev) (fd_is_available prev) (fd_allergens prev)
  | change_image_url v =>
      mk_FormData (fd_name prev) (fd_description prev) (fd_price prev) v
                  (fd_category_id prev) (fd_is_active prev) (fd_is_available prev)
                  (fd_allergens prev)
  | change_allergens v =>
      mk_FormData (fd_name prev) (fd_description prev) (fd_price prev) (fd_image_url prev)
                  (fd_category_id prev) (fd_is_active prev) (fd_is_available prev) v
  | change_is_active b =>
      mk_FormData (fd_name prev) (fd_description prev) (fd_price prev) (fd_image_url prev)
                  (fd_category_id prev) b (fd_is_available prev) (fd_allergens prev)
  | change_is_available b =>
      mk_FormData (fd_name prev) (fd_description prev) (fd_price prev) (fd_image_url prev)
                  (fd_category_id prev) (fd_is_active prev) b (fd_allergens prev)
  end.

Definition onChange (c : FieldChange) : M B MenuState unit :=
  bind (@get_state JN B MenuState) (fun s => setFormData (changed (formData s) c)).

(** The user fills in the form: one onChange after the other. *)
Fixpoint typing (cs : list FieldChange) : M B MenuState unit :=
  match cs with
  | [] => ret tt
  | c :: rest => bind (onChange c) (fun _ => typing rest)
  end.

(** The form as resetForm leaves it. *)
Definition empty_form : FormData := mk_FormData [] [] [] [] [] true true [].

(** The four queries of fetchDashboardStats, in the order it awaits
    them. *)
Definition dashboard_queries (today : jsstring) : list Query :=
  [ q_select "orders" "*" true [] None;
    q_select "orders" "*" true [f_in "status" [lit "received"; lit "in_progress"]] None;
    q_select "orders" "total_amount" false
             [f_gte "created_at" (today ++ lit "T00:00:00");
              f_lt "created_at" (today ++ lit "T23:59:59")] None;
    q_select "order_items" "menu_item_id, quantity, menu_items(name)" false
             [f_gte "created_at" (today ++ lit "T00:00:00")] None ].

(** Requests awaited one by one that resolved. *)
Definition answered (qs : list Query) (rs : list Response) : list Event :=
  map (fun qr => Requested [fst qr] [Resolved (snd qr)]) (combine qs rs).

(** The two queries of fetchMenuData. *)
Definition menu_queries : list Query :=
  [ q_select "menu_items" "*, menu_categories(name)" false [] (Some "display_order"%string);
    q_select "menu_categories" "*" false [] (Some "display_order"%string) ].

End More.

(** A backend that answers every query with an empty success. *)
Definition obliging : Query (JN := whole_numbers) -> unit -> Settled (JN := whole_numbers) * unit :=
  fun _ b => (Resolved (mk_Response d_null None None), b).

Definition tarte : MenuItem (JN := whole_numbers) :=
  mk_MenuItem (JN := whole_numbers) (lit "m-1") (lit "Tarte amandine") None 850%Z None (Some (lit "c-3"))
              true false (Some [lit "nuts"; lit "dairy"; lit "gluten"]) 1 None.

Definition menu_start : World (JN := whole_numbers) unit MenuState :=
  mk_World tt [] (mk_MenuState (JN := whole_numbers) [] [] true true None
                               (mk_FormData (lit "Briouat") [] (lit "4") [] [] true true [])).

End PagesMore.

(** * Lists *)

Module ListFacts.

Lemma filter_all {A : Type} (f : A -> bool) (l : list A) :
  (forall x, In x l -> f x = true) -> filter f l = l.
Proof.
  induction l as [|a l IH]; intros Hf; [reflexivity|]. simpl.
  rewrite (Hf a (or_introl eq_refl)). f_equal. apply IH. intros x Hx. apply Hf. now right.
Qed.

Lemma filter_none {A : Type} (f : A -> bool) (l : list A) :
  (forall x, In x l -> f x = false) -> filter f l = [].
Proof.
  induction l as [|a l IH]; intros Hf; [reflexivity|]. simpl.
  rewrite (Hf a (or_introl eq_refl)). apply IH. intros x Hx. apply Hf. now right.
Qed.

Lemma map_unchanged {A : Type} (f : A -> A) (l : list A) :
  (forall x, In x l -> f x = x) -> map f l = l.
Proof.
  induction l as [|a l IH]; intros Hf; [reflexivity|]. simpl.
  rewrite (Hf a (or_introl eq_refl)). f_equal. apply IH. intros x Hx. apply Hf. now right.
Qed.

Lemma NoDup_snoc {A : Type} (l : list A) (x : A) :
  NoDup (l ++ [x]) <-> NoDup l /\ ~ In x l.
Proof.
  split.
  - intros Hnd. split.
    + now apply NoDup_app_remove_r in Hnd.
    + apply NoDup_remove_2 in Hnd. now rewrite app_nil_r in Hnd.
  - intros [Hnd Hx]. apply NoDup_app; [assumption | repeat constructor; auto |].
    intros a Ha [<- | []]. contradiction.
Qed.

Lemma In_firstn {A : Type} n (l : list A) x : In x (firstn n l) -> In x l.
Proof.
  intros Hx. rewrite <- (firstn_skipn n l). apply in_or_app. now left.
Qed.

Lemma NoDup_firstn {A : Type} n (l : list A) : NoDup l -> NoDup (firstn n l).
Proof.
  intros Hl. rewrite <- (firstn_skipn n l) in Hl. now apply NoDup_app_remove_r in Hl.
Qed.

Lemma StronglySorted_weaken {A : Type} (R R' : A -> A -> Prop) (l : list A) :
  (forall a b, R a b -> R' a b) -> StronglySorted R l -> StronglySorted R' l.
Proof.
  intros HR. induction 1 as [|x l Hl IH Hx]; constructor; [assumption|].
  eapply Forall_impl; [|exact Hx]. intros y. apply HR.
Qed.

Lemma StronglySorted_weaken_on {A : Type} (P : A -> Prop) (R R' : A -> A -> Prop)
    (l : list A) :
  Forall P l -> (forall a b, P a -> P b -> R a b -> R' a b) ->
  StronglySorted R l -> StronglySorted R' l.
Proof.
  intros Hl HR Hs. induction Hs as [|x l Hs IH Hx]; constructor.
  - apply IH. now apply Forall_cons_iff in Hl.
  - apply Forall_cons_iff in Hl as [Hpx Hl]. rewrite Forall_forall in *.
    intros y Hy. apply HR; auto.
Qed.

Lemma StronglySorted_app_cross {A : Type} (R : A -> A -> Prop) (l1 l2 : list A) :
  StronglySorted R (l1 ++ l2) -> forall a b, In a l1 -> In b l2 -> R a b.
Proof.
  induction l1 as [|x l1 IH]; simpl; intros Hs a b Ha Hb; [contradiction|].
  apply StronglySorted_inv in Hs as [Hs Hx]. destruct Ha as [<- | Ha].
  - rewrite Forall_forall in Hx. apply Hx. apply in_or_app. now right.
  - now apply IH.
Qed.

End ListFacts.

(** * Statements about the migration *)

Module SchemaFacts.
Import ListFacts Sql Schema SchemaSpec.

(** ** Three-valued logic and role predicates *)

Lemma is_true_sql_and (p q : sql_bool) :
  is_true (sql_and p q) = is_true p && is_true q.
Proof. destruct p as [[|]|], q as [[|]|]; reflexivity. Qed.

Lemma is_true_sql_or (p q : sql_bool) :
  is_true (sql_or p q) = is_true p || is_true q.
Proof. destruct p as [[|]|], q as [[|]|]; reflexivity. Qed.

Lemma user_role_eqb_eq (a b : user_role) : user_role_eqb a b = true <-> a = b.
Proof. destruct a, b; simpl; split; congruence. Qed.

(** Holding a role: a row of user_roles with that user id and role. *)
Lemma has_role_spec db uid role :
  has_role db uid role = true <->
  exists r u, In r (user_roles db) /\ uid = Some u /\ ur_user_id r = Some u /\ ur_role r = role.
Proof.
  unfold has_role. rewrite existsb_exists. split.
  - intros (r & Hin & Hr). rewrite is_true_sql_and in Hr.
    apply andb_prop in Hr as [Hu Hrole].
    destruct (ur_user_id r) as [k|] eqn:Ek, uid as [u|]; simpl in Hu; try discriminate.
    destruct (N.eqb_spec k u) as [->|]; [|discriminate]. simpl in Hrole.
    exists r, u. repeat split; auto.
    destruct (user_role_eqb (ur_role r) role) eqn:E; [|discriminate].
    now apply user_role_eqb_eq.
  - intros (r & u & Hin & -> & Hk & Hrole). exists r. split; [assumption|].
    rewrite is_true_sql_and, Hk, Hrole. simpl. rewrite N.eqb_refl.
    now destruct role.
Qed.

(** Being admin or staff is holding one of the two roles. *)
Lemma is_admin_or_staff_roles db uid :
  is_admin_or_staff db uid = has_role db uid admin || has_role db uid staff.
Proof.
  unfold is_admin_or_staff, has_role.
  induction (user_roles db) as [|r l IH]; [reflexivity|].
  cbn [existsb]. rewrite IH, !is_true_sql_and, is_true_sql_or.
  destruct (is_true (sql_eq N.eqb (ur_user_id r) uid)), (ur_role r); cbn;
    repeat match goal with |- context [existsb ?f l] => destruct (existsb f l) end;
    reflexivity.
Qed.

(** The unauthenticated caller holds no role: NULL equals nothing. *)
Lemma anonymous_has_no_role db role : has_role db None role = false.
Proof.
  unfold has_role. induction (user_roles db) as [|r l IH]; [reflexivity|].
  cbn [existsb]. rewrite IH. now destruct (ur_user_id r), (ur_role r), role.
Qed.

Lemma anonymous_not_admin_or_staff db : is_admin_or_staff db None = false.
Proof. now rewrite is_admin_or_staff_roles, !anonymous_has_no_role. Qed.

(** ** Catalog reads *)

(** C2. A caller who is not admin or staff (the unauthenticated caller
    included) reads from menu_categories exactly the rows whose is_active
    is TRUE and from menu_items exactly the rows whose is_active and
    is_available are both TRUE; a caller who holds the admin or the staff
    role reads every row of both tables. *)
Theorem catalog_reads (db : Db) (uid : option uuid) :
  (uid = None \/ (has_role db uid admin = false /\ has_role db uid staff = false) ->
     (forall where_,
        sql_select db uid where_ =
        filter (fun r => flag_set (mc_is_active r) && where_ r) (menu_categories db))
     /\ (forall where_,
        sql_select db uid where_ =
        filter (fun r => flag_set (mi_is_active r) && flag_set (mi_is_available r) && where_ r)
               (menu_items db))
     /\ (forall i, In i (menu_items db) -> mi_is_available i = Some false ->
                   ~ In i (sql_select db uid (fun _ => true))))
  /\ (has_role db uid admin = true \/ has_role db uid staff = true ->
     (forall where_, sql_select db uid where_ = filter where_ (menu_categories db))
     /\ (forall where_, sql_select db uid where_ = filter where_ (menu_items db))
     /\ sql_select db uid (fun _ => true) = menu_categories db
     /\ sql_select db uid (fun _ => true) = menu_items db).
Proof.
  split.
  - intros Hpub.
    assert (Hno : is_admin_or_staff db uid = false).
    { destruct Hpub as [-> | [Ha Hs]].
      - apply anonymous_not_admin_or_staff.
      - now rewrite is_admin_or_staff_roles, Ha, Hs. }
    assert (Hitems : forall where_,
        sql_select db uid where_ =
        filter (fun r => flag_set (mi_is_active r) && flag_set (mi_is_available r) && where_ r)
               (menu_items db)).
    { intros where_. unfold sql_select, rls_permits. simpl. rewrite Hno.
      apply filter_ext. intros r.
      now destruct (mi_is_active r) as [[|]|], (mi_is_available r) as [[|]|]. }
    split; [|split].
    + intros where_. unfold sql_select, rls_permits. simpl. rewrite Hno.
      apply filter_ext. intros r. now destruct (mc_is_active r) as [[|]|].
    + exact Hitems.
    + intros i _ Hav Hin. rewrite Hitems in Hin. apply filter_In in Hin as [_ Hin].
      rewrite Hav in Hin. simpl in Hin. now rewrite andb_false_r in Hin.
  - intros Hrole.
    assert (Hyes : is_admin_or_staff db uid = true).
    { rewrite is_admin_or_staff_roles. destruct Hrole as [-> | ->]; [reflexivity|].
      apply orb_true_r. }
    assert (Hcats : forall where_,
               sql_select db uid where_ = filter where_ (menu_categories db)).
    { intros where_. unfold sql_select, rls_permits. simpl. rewrite Hyes. reflexivity. }
    assert (Hitems : forall where_,
               sql_select db uid where_ = filter where_ (menu_items db)).
    { intros where_. unfold sql_select, rls_permits. simpl. rewrite Hyes. reflexivity. }
    split; [exact Hcats|]. split; [exact Hitems|]. split.
    + rewrite Hcats. now apply filter_all.
    + rewrite Hitems. now apply filter_all.
Qed.

Lemma sample_db_integrity : integrity sample_db = true.
Proof. reflexivity. Qed.

Lemma catalog_reads_witness :
  (sql_select sample_db (Some 3%N) (fun _ => true) =
     filter (fun r => flag_set (mc_is_active r) && true) (menu_categories sample_db))
  /\ sql_select sample_db (Some 2%N) (fun _ => true) = menu_items sample_db.
Proof.
  split.
  - apply (proj1 (catalog_reads sample_db (Some 3%N))).
    right. split; reflexivity.
  - apply (proj2 (proj2 (proj2 (proj2 (catalog_reads sample_db (Some 2%N)) (or_intror eq_refl))))).
Defined.

(** ** Statements that reach no row, statements that reach every row *)

Lemma commit_integrity db : integrity db = true -> commit db = Done db.
Proof. unfold commit. now intros ->. Qed.

Section Reach.
Context {R : Type} `{Table R}.
Variables (db : Db) (uid : option uuid).

Lemma update_reaches_nothing now where_ set_ :
  (forall r, rls_permits table_policies UPDATE db uid r = false) ->
  sql_update db uid now where_ set_ = commit (table_put (table_rows db) db).
Proof.
  intros Hno. unfold sql_update, targeted.
  replace (forallb _ (table_rows db)) with true.
  - f_equal. f_equal. apply map_unchanged. intros r _. now rewrite Hno.
  - symmetry. apply forallb_forall. intros r _. now rewrite Hno.
Qed.

Lemma delete_reaches_nothing where_ :
  (forall r, rls_permits table_policies DELETE db uid r = false) ->
  sql_delete db uid where_ = commit (on_delete_cascade [] (table_put (table_rows db) db)).
Proof.
  intros Hno. unfold sql_delete, raw_delete, targeted. f_equal.
  rewrite filter_none by (intros r _; now rewrite Hno).
  rewrite filter_all by (intros r _; now rewrite Hno). reflexivity.
Qed.

Lemma select_reaches_nothing where_ :
  (forall r, rls_permits table_policies SELECT db uid r = false) ->
  sql_select db uid where_ = [].
Proof.
  intros Hno. unfold sql_select. apply filter_none. intros r _. now rewrite Hno.
Qed.

Hypothesis Hall : forall c r, rls_permits table_policies c db uid r = true.

Lemma select_by_manager where_ : sql_select db uid where_ = filter where_ (table_rows db).
Proof. unfold sql_select. apply filter_ext. intros r. now rewrite Hall. Qed.

Lemma insert_by_manager r : sql_insert db uid r = commit (table_put (table_rows db ++ [r]) db).
Proof. unfold sql_insert. now rewrite Hall. Qed.

Lemma update_by_manager now where_ set_ :
  sql_update db uid now where_ set_ =
  commit (table_put (map (fun r => if where_ r then before_update_row now (set_ r) else r)
                         (table_rows db)) db).
Proof.
  unfold sql_update, targeted.
  replace (forallb _ (table_rows db)) with true.
  - f_equal. f_equal. apply map_ext. intros r. now rewrite !Hall.
  - symmetry. apply forallb_forall. intros r _. rewrite !Hall. now destruct (where_ r).
Qed.

Lemma delete_by_manager where_ : sql_delete db uid where_ = commit (raw_delete where_ db).
Proof.
  unfold sql_delete, raw_delete, targeted. f_equal. f_equal.
  - apply filter_ext. intros r. now rewrite !Hall.
  - f_equal. apply filter_ext. intros r. now rewrite !Hall.
Qed.
End Reach.

(** Writing a table's rows back, and a cascade from no deleted row,
    leave the database as it is. *)
Lemma refers_nil fk : refers fk [] = false.
Proof. now destruct fk. Qed.

Lemma put_back_orders db : cascade_orders [] (with_orders (orders db) db) = db.
Proof.
  destruct db. unfold cascade_orders, with_order_items, with_orders. simpl. f_equal.
  apply filter_all. intros oi _. now rewrite refers_nil.
Qed.

Lemma put_back_order_items db : with_order_items (order_items db) db = db.
Proof. now destruct db. Qed.

Lemma put_back_user_roles db : with_user_roles (user_roles db) db = db.
Proof. now destruct db. Qed.

Lemma put_back_menu_items db : cascade_menu_items [] (with_menu_items (menu_items db) db) = db.
Proof.
  destruct db. unfold cascade_menu_items, with_order_items, with_menu_items. simpl. f_equal.
  apply filter_all. intros oi _. now rewrite refers_nil.
Qed.

Lemma put_back_menu_categories db :
  cascade_menu_categories [] (with_menu_categories (menu_categories db) db) = db.
Proof.
  destruct db as [au pr ur mc mi o oi].
  unfold cascade_menu_categories, cascade_menu_items, with_order_items, with_menu_items,
    with_menu_categories. simpl.
  rewrite (filter_none (fun i => refers (mi_category_id i) [])) by (intros; apply refers_nil).
  simpl. f_equal.
  - apply filter_all. intros i _. now rewrite refers_nil.
  - apply filter_all. intros i _. now rewrite refers_nil.
Qed.

(** ** Orders and order line items *)

Lemma orders_policy_guard db uid c (r : order) :
  rls_permits orders_policies c db uid r = is_admin_or_staff db uid.
Proof. unfold rls_permits. simpl. now destruct (is_admin_or_staff db uid). Qed.

Lemma order_items_policy_guard db uid c (r : order_item) :
  rls_permits order_items_policies c db uid r = is_admin_or_staff db uid.
Proof. unfold rls_permits. simpl. now destruct (is_admin_or_staff db uid). Qed.

Lemma menu_write_guard db uid c :
  c <> SELECT ->
  (forall r : menu_item, rls_permits menu_items_policies c db uid r = is_admin_or_staff db uid)
  /\ (forall r : menu_category,
        rls_permits menu_categories_policies c db uid r = is_admin_or_staff db uid).
Proof.
  intros Hc. split; intros r; unfold rls_permits; simpl;
    destruct (is_admin_or_staff db uid), c; simpl; try reflexivity; congruence.
Qed.

(** C4. A caller who holds neither the admin nor the staff role reads no
    row of orders or order_items, has every insert into them refused, and
    reaches no row with an update or a delete, in any state of the
    database (nor through the cascades of a delete on the catalog); for a
    caller who holds one of the roles every command passes the policy on
    every row of both tables, so that the statements act on the rows their
    filter selects. *)
Theorem orders_only_for_admin_and_staff (db : Db) (uid : option uuid) :
  (has_role db uid admin = false /\ has_role db uid staff = false ->
     (forall where_, sql_select (R := order) db uid where_ = [])
     /\ (forall where_, sql_select (R := order_item) db uid where_ = [])
     /\ (forall r : order, sql_insert db uid r = PolicyViolation)
     /\ (forall r : order_item, sql_insert db uid r = PolicyViolation)
     /\ (forall now where_ set_, sql_update (R := order) db uid now where_ set_ = commit db)
     /\ (forall now where_ set_, sql_update (R := order_item) db uid now where_ set_ = commit db)
     /\ (forall where_, sql_delete (R := order) db uid where_ = commit db)
     /\ (forall where_, sql_delete (R := order_item) db uid where_ = commit db)
     /\ (forall where_, sql_delete (R := menu_item) db uid where_ = commit db)
     /\ (forall where_, sql_delete (R := menu_category) db uid where_ = commit db))
  /\ (has_role db uid admin = true \/ has_role db uid staff = true ->
     (forall c (r : order), rls_permits orders_policies c db uid r = true)
     /\ (forall c (r : order_item), rls_permits order_items_policies c db uid r = true)
     /\ (forall where_, sql_select (R := order) db uid where_ = filter where_ (orders db))
     /\ (forall where_, sql_select (R := order_item) db uid where_ = filter where_ (order_items db))
     /\ (forall r : order, sql_insert db uid r = commit (with_orders (orders db ++ [r]) db))
     /\ (forall r : order_item,
           sql_insert db uid r = commit (with_order_items (order_items db ++ [r]) db))
     /\ (forall now where_ set_,
           sql_update (R := order) db uid now where_ set_ =
           commit (with_orders
                     (map (fun r => if where_ r then update_orders_updated_at now (set_ r) else r)
                          (orders db)) db))
     /\ (forall now where_ set_,
           sql_update (R := order_item) db uid now where_ set_ =
           commit (with_order_items
                     (map (fun r => if where_ r then set_ r else r) (order_items db)) db))
     /\ (forall where_, sql_delete (R := order) db uid where_ = commit (raw_delete where_ db))
     /\ (forall where_,
           sql_delete (R := order_item) db uid where_ = commit (raw_delete where_ db))).
Proof.
  split.
  - intros [Ha Hs].
    assert (Hno : is_admin_or_staff db uid = false)
      by now rewrite is_admin_or_staff_roles, Ha, Hs.
    assert (Ho : forall c (r : order), rls_permits table_policies c db uid r = false)
      by (intros c r; etransitivity; [apply orders_policy_guard | assumption]).
    assert (Hoi : forall c (r : order_item), rls_permits table_policies c db uid r = false)
      by (intros c r; etransitivity; [apply order_items_policy_guard | assumption]).
    assert (Hmi : forall r : menu_item, rls_permits table_policies DELETE db uid r = false).
    { intros r. etransitivity; [|exact Hno].
      apply (proj1 (menu_write_guard db uid (c := DELETE) ltac:(discriminate))). }
    assert (Hmc : forall r : menu_category, rls_permits table_policies DELETE db uid r = false).
    { intros r. etransitivity; [|exact Hno].
      apply (proj2 (menu_write_guard db uid (c := DELETE) ltac:(discriminate))). }
    repeat split; intros.
    + now apply select_reaches_nothing.
    + now apply select_reaches_nothing.
    + unfold sql_insert. now rewrite Ho.
    + unfold sql_insert. now rewrite Hoi.
    + rewrite update_reaches_nothing by auto. simpl. f_equal. now destruct db.
    + rewrite update_reaches_nothing by auto. simpl. now rewrite put_back_order_items.
    + rewrite delete_reaches_nothing by auto. simpl. now rewrite put_back_orders.
    + rewrite delete_reaches_nothing by auto. simpl. now rewrite put_back_order_items.
    + rewrite delete_reaches_nothing by auto. simpl. now rewrite put_back_menu_items.
    + rewrite delete_reaches_nothing by auto. simpl. now rewrite put_back_menu_categories.
  - intros Hrole.
    assert (Hyes : is_admin_or_staff db uid = true).
    { rewrite is_admin_or_staff_roles. destruct Hrole as [-> | ->]; [reflexivity|].
      apply orb_true_r. }
    assert (Ho : forall c (r : order), rls_permits table_policies c db uid r = true)
      by (intros c r; etransitivity; [apply orders_policy_guard | assumption]).
    assert (Hoi : forall c (r : order_item), rls_permits table_policies c db uid r = true)
      by (intros c r; etransitivity; [apply order_items_policy_guard | assumption]).
    repeat split; intros.
    + apply Ho.
    + apply Hoi.
    + exact (select_by_manager db uid Ho where_).
    + exact (select_by_manager db uid Hoi where_).
    + exact (insert_by_manager db uid Ho r).
    + exact (insert_by_manager db uid Hoi r).
    + exact (update_by_manager db uid Ho now where_ set_).
    + exact (update_by_manager db uid Hoi now where_ set_).
    + exact (delete_by_manager db uid Ho where_).
    + exact (delete_by_manager db uid Hoi where_).
Qed.

Lemma orders_only_for_admin_and_staff_witness :
  sql_select (R := order) sample_db (Some 3%N) (fun _ => true) = []
  /\ sql_select (R := order) sample_db (Some 2%N) (fun _ => true) = orders sample_db.
Proof.
  split.
  - apply (proj1 (orders_only_for_admin_and_staff sample_db (Some 3%N))).
    split; reflexivity.
  - apply (proj2 (orders_only_for_admin_and_staff sample_db (Some 2%N))).
    right. reflexivity.
Defined.

(** ** Role assignments *)

Lemma user_roles_write_guard db uid c (r : user_roles_row) :
  c <> SELECT -> rls_permits user_roles_policies c db uid r = has_role db uid admin.
Proof.
  intros Hc. unfold rls_permits. simpl.
  destruct (has_role db uid admin), c; simpl; try reflexivity; congruence.
Qed.

Lemma user_roles_read_guard db uid (r : user_roles_row) :
  rls_permits user_roles_policies SELECT db uid r =
  has_role db uid admin || is_true (sql_eq N.eqb uid (ur_user_id r)).
Proof.
  unfold rls_permits, user_roles_policies.
  cbn [existsb policy_cmd policy_using applies command_eqb andb is_true].
  destruct (has_role db uid admin); [reflexivity|]. cbn [orb]. apply orb_false_r.
Qed.

(** C5. For a caller without the admin role every insert into user_roles
    is refused and every update or delete reaches no row, so the table
    stays as it is, whoever the row belongs to, while a select returns
    exactly the caller's own assignments; for a caller with the admin role
    every command passes the policy on every row. *)
Theorem user_roles_managed_by_admins (db : Db) (uid : option uuid) :
  (has_role db uid admin = false ->
     (forall r : user_roles_row, sql_insert db uid r = PolicyViolation)
     /\ (forall now where_ set_,
           sql_update (R := user_roles_row) db uid now where_ set_ = commit db)
     /\ (forall where_, sql_delete (R := user_roles_row) db uid where_ = commit db)
     /\ (forall where_,
           sql_select db uid where_ =
           filter (fun r => is_true (sql_eq N.eqb uid (ur_user_id r)) && where_ r)
                  (user_roles db))
     /\ (forall u r, uid = Some u -> In r (user_roles db) -> ur_user_id r = Some u ->
           In r (sql_select db uid (fun _ => true))))
  /\ (has_role db uid admin = true ->
     (forall c (r : user_roles_row), rls_permits user_roles_policies c db uid r = true)
     /\ (forall where_, sql_select db uid where_ = filter where_ (user_roles db))
     /\ (forall r : user_roles_row,
           sql_insert db uid r = commit (with_user_roles (user_roles db ++ [r]) db))
     /\ (forall now where_ set_,
           sql_update (R := user_roles_row) db uid now where_ set_ =
           commit (with_user_roles
                     (map (fun r => if where_ r then set_ r else r) (user_roles db)) db))
     /\ (forall where_,
           sql_delete (R := user_roles_row) db uid where_ = commit (raw_delete where_ db))).
Proof.
  split.
  - intros Hno.
    assert (Hw : forall c (r : user_roles_row),
               c <> SELECT -> rls_permits table_policies c db uid r = false).
    { intros c r Hc. etransitivity; [now apply user_roles_write_guard | exact Hno]. }
    assert (Hsel : forall where_,
               sql_select db uid where_ =
               filter (fun r => is_true (sql_eq N.eqb uid (ur_user_id r)) && where_ r)
                      (user_roles db)).
    { intros where_. unfold sql_select. apply filter_ext. intros r.
      change (rls_permits table_policies SELECT db uid r)
        with (rls_permits user_roles_policies SELECT db uid r).
      now rewrite user_roles_read_guard, Hno. }
    repeat split; intros.
    + unfold sql_insert. now rewrite Hw.
    + rewrite update_reaches_nothing by (intros; now apply Hw). simpl.
      now rewrite put_back_user_roles.
    + rewrite delete_reaches_nothing by (intros; now apply Hw). simpl.
      now rewrite put_back_user_roles.
    + apply Hsel.
    + rewrite Hsel. apply filter_In. split; [assumption|].
      subst uid. rewrite H1. simpl. now rewrite N.eqb_refl.
  - intros Hyes.
    assert (Hall : forall c (r : user_roles_row), rls_permits table_policies c db uid r = true).
    { intros c r. destruct c.
      - change (rls_permits user_roles_policies SELECT db uid r = true).
        now rewrite user_roles_read_guard, Hyes.
      - etransitivity; [now apply user_roles_write_guard | exact Hyes].
      - etransitivity; [now apply user_roles_write_guard | exact Hyes].
      - etransitivity; [now apply user_roles_write_guard | exact Hyes]. }
    repeat split; intros.
    + apply Hall.
    + exact (select_by_manager db uid Hall where_).
    + exact (insert_by_manager db uid Hall r).
    + exact (update_by_manager db uid Hall now where_ set_).
    + exact (delete_by_manager db uid Hall where_).
Qed.

Lemma user_roles_managed_by_admins_witness :
  sql_insert sample_db (Some 2%N) (mk_user_roles_row 9 (Some 3%N) admin None) = PolicyViolation
  /\ In (mk_user_roles_row 2 (Some 2%N) staff (Some 6%Z))
        (sql_select sample_db (Some 2%N) (fun _ => true))
  /\ rls_permits user_roles_policies DELETE sample_db (Some 1%N)
        (mk_user_roles_row 2 (Some 2%N) staff (Some 6%Z)) = true.
Proof.
  split; [|split].
  - apply (proj1 (user_roles_managed_by_admins sample_db (Some 2%N))). reflexivity.
  - apply (proj1 (user_roles_managed_by_admins sample_db (Some 2%N)) eq_refl) with (u := 2%N).
    + reflexivity.
    + simpl. right. now left.
    + reflexivity.
  - apply (proj2 (user_roles_managed_by_admins sample_db (Some 1%N))). reflexivity.
Defined.

(** ** Unit prices of order lines *)

Lemma sql_update_menu_items_frame db uid now where_ set_ db' :
  sql_update (R := menu_item) db uid now where_ set_ = Done db' ->
  order_items db' = order_items db /\ orders db' = orders db.
Proof.
  unfold sql_update, commit. simpl.
  destruct (forallb _ (menu_items db)); [|discriminate].
  destruct (integrity _); [|discriminate].
  intros [= <-]. now split.
Qed.

(** C3. Whatever updates of menu_items are issued, by whomever, in
    whatever order, and whether they succeed or fail, the order_items
    table stays as it was: every order line keeps the unit_price it was
    inserted with. *)
Theorem unit_price_is_a_snapshot (qs : list menu_items_update) (db : Db) :
  order_items (fold_left menu_items_update_step qs db) = order_items db
  /\ map oi_unit_price (order_items (fold_left menu_items_update_step qs db)) =
     map oi_unit_price (order_items db).
Proof.
  assert (Hframe : order_items (fold_left menu_items_update_step qs db) = order_items db).
  { revert db. induction qs as [|q qs IH]; intros db; [reflexivity|].
    simpl. rewrite IH. unfold menu_items_update_step.
    destruct (sql_update db (mu_caller q) (mu_now q) (mu_where q) (mu_set q)) eqn:E;
      try reflexivity.
    now apply sql_update_menu_items_frame in E. }
  split; [exact Hframe | now rewrite Hframe].
Qed.

(** The admin raises the price of the tarte from 8.50 to 9.00: the menu
    shows 9.00 and the order line of this morning still says 8.50. *)
Example price_raised_after_order :
  let q := mk_menu_items_update (Some 1%N) 20 (fun r => N.eqb (mi_id r) 1) (set_price 900) in
  let db' := menu_items_update_step sample_db q in
  map mi_price (menu_items db') = [900; 700; 1600]%Z
  /\ map oi_unit_price (order_items db') = [850; 700]%Z.
Proof. split; reflexivity. Qed.


(** ** The updated_at trigger *)

Section Refresh.
Context {R : Type} `{Table R} `{HasUpdatedAt R}.
Hypothesis trigger_attached :
  forall now r, before_update_row now r = update_updated_at_column now r.
Hypothesis get_set : forall t r, updated_at (set_updated_at t r) = t.
Hypothesis rows_put : forall l db, table_rows (table_put l db) = l.

Lemma sql_update_refreshes db uid now where_ set_ db' :
  sql_update db uid now where_ set_ = Done db' -> refreshed db uid now where_ db'.
Proof.
  unfold sql_update, commit, refreshed.
  destruct (forallb _ (table_rows db)); [|discriminate].
  destruct (integrity _); [|discriminate].
  intros [= <-]. rewrite rows_put.
  induction (table_rows db) as [|r l IH]; simpl; constructor; [|exact IH].
  destruct (targeted UPDATE db uid where_ r); [|reflexivity].
  rewrite trigger_attached. unfold update_updated_at_column. apply get_set.
Qed.
End Refresh.

(** C7. An update of profiles, menu_categories, menu_items or orders (the
    four tables with an updated_at column) leaves, in every row it
    reaches, updated_at equal to the time of the update, whatever the SET
    clause assigned. *)
Theorem updated_at_is_refreshed (db : Db) (uid : option uuid) (now : timestamptz) (db' : Db) :
  (forall where_ set_,
     sql_update (R := profile) db uid now where_ set_ = Done db' ->
     refreshed db uid now where_ db')
  /\ (forall where_ set_,
     sql_update (R := menu_category) db uid now where_ set_ = Done db' ->
     refreshed db uid now where_ db')
  /\ (forall where_ set_,
     sql_update (R := menu_item) db uid now where_ set_ = Done db' ->
     refreshed db uid now where_ db')
  /\ (forall where_ set_,
     sql_update (R := order) db uid now where_ set_ = Done db' ->
     refreshed db uid now where_ db').
Proof.
  repeat split; intros where_ set_; apply sql_update_refreshes; reflexivity.
Qed.

Lemma updated_at_is_refreshed_witness :
  let where_ := fun r : menu_item => N.eqb (mi_id r) 2 in
  let db' := with_menu_items
               (map (fun r => if where_ r
                              then update_menu_items_updated_at 20 (set_price 750 r)
                              else r) (menu_items sample_db)) sample_db in
  sql_update sample_db (Some 2%N) 20 where_ (set_price 750) = Done db'
  /\ refreshed sample_db (Some 2%N) 20 where_ db'.
Proof.
  intros where_ db'.
  assert (Hrun : sql_update sample_db (Some 2%N) 20 where_ (set_price 750) = Done db')
    by reflexivity.
  split; [exact Hrun|].
  exact (proj1 (proj2 (proj2 (updated_at_is_refreshed sample_db (Some 2%N) 20 db')))
               where_ (set_price 750) Hrun).
Defined.

Example clafoutis_repriced :
  let db' := menu_items_update_step sample_db
               (mk_menu_items_update (Some 2%N) 20 (fun r => N.eqb (mi_id r) 2) (set_price 750)) in
  map mi_updated_at (menu_items db') = [Some 1; Some 20; Some 1]%Z.
Proof. reflexivity. Qed.

(** ** Cascading deletes *)

Lemma mem_uuid_key_of_filter {A : Type} (key : A -> uuid) (k c : uuid) (l : list A) :
  mem_uuid k (map key (filter (fun r => N.eqb (key r) c) l)) =
  N.eqb k c && mem_uuid c (map key l).
Proof.
  unfold mem_uuid. induction l as [|a l IH]; simpl.
  - now rewrite andb_false_r.
  - destruct (N.eqb_spec (key a) c) as [E|Hne]; simpl; rewrite IH.
    + rewrite E, N.eqb_refl. simpl. rewrite andb_true_r.
      destruct (N.eqb k c); reflexivity.
    + destruct (N.eqb_spec c (key a)) as [E|_]; [congruence|]. reflexivity.
Qed.

Lemma mem_uuid_In (k : uuid) (l : list uuid) : mem_uuid k l = true <-> In k l.
Proof.
  unfold mem_uuid. rewrite existsb_exists. split.
  - intros (x & Hx & E). apply N.eqb_eq in E. now subst.
  - intros Hk. exists k. split; [assumption | apply N.eqb_refl].
Qed.

(** The rows that go with a deleted key [c] that exists: those whose
    foreign key is not NULL and equals [c]. *)
Lemma refers_deleted_key {A : Type} (key : A -> uuid) (c : uuid) (l : list A) fk :
  In c (map key l) ->
  refers fk (map key (filter (fun r => N.eqb (key r) c) l)) = is_true (sql_eq N.eqb fk (Some c)).
Proof.
  intros Hc. destruct fk as [k|]; [|reflexivity]. simpl.
  rewrite mem_uuid_key_of_filter. apply mem_uuid_In in Hc. rewrite Hc, andb_true_r.
  now destruct (N.eqb k c).
Qed.

(** C6, as the migration has it.  Deleting a row of menu_categories
    removes that row, exactly the menu_items rows whose category_id
    references it and, through menu_item_id, exactly the order_items rows
    that reference one of those menu items; deleting a row of orders
    removes that row and exactly the order_items rows whose order_id
    references it.  Every other row of every table stays. *)
Theorem delete_cascades (db : Db) :
  (forall cat, In cat (menu_categories db) ->
     let db' := raw_delete (fun r => N.eqb (mc_id r) (mc_id cat)) db in
     let dead i := is_true (sql_eq N.eqb (mi_category_id i) (Some (mc_id cat))) in
     menu_categories db' =
       filter (fun r => negb (N.eqb (mc_id r) (mc_id cat))) (menu_categories db)
     /\ menu_items db' = filter (fun i => negb (dead i)) (menu_items db)
     /\ order_items db' =
          filter (fun oi => negb (refers (oi_menu_item_id oi)
                                         (map mi_id (filter dead (menu_items db)))))
                 (order_items db)
     /\ orders db' = orders db
     /\ auth_users db' = auth_users db
     /\ profiles db' = profiles db
     /\ user_roles db' = user_roles db)
  /\ (forall o, In o (orders db) ->
     let db' := raw_delete (fun r => N.eqb (o_id r) (o_id o)) db in
     orders db' = filter (fun r => negb (N.eqb (o_id r) (o_id o))) (orders db)
     /\ order_items db' =
          filter (fun oi => negb (is_true (sql_eq N.eqb (oi_order_id oi) (Some (o_id o)))))
                 (order_items db)
     /\ menu_categories db' = menu_categories db
     /\ menu_items db' = menu_items db
     /\ auth_users db' = auth_users db
     /\ profiles db' = profiles db
     /\ user_roles db' = user_roles db).
Proof.
  split.
  - intros cat Hcat db' dead.
    assert (Hc : In (mc_id cat) (map mc_id (menu_categories db))) by now apply in_map.
    assert (Hdead : forall i,
               refers (mi_category_id i)
                      (map mc_id (filter (fun r => N.eqb (mc_id r) (mc_id cat))
                                         (menu_categories db))) = dead i).
    { intros i. now apply refers_deleted_key. }
    subst db'. unfold raw_delete. simpl.
    unfold cascade_menu_categories, cascade_menu_items. simpl.
    repeat split; try reflexivity.
    + apply filter_ext. intros i. now rewrite Hdead.
    + rewrite (filter_ext _ dead Hdead). reflexivity.
  - intros o Ho db'.
    assert (Hc : In (o_id o) (map o_id (orders db))) by now apply in_map.
    subst db'. unfold raw_delete. simpl. unfold cascade_orders. simpl.
    repeat split; try reflexivity.
    apply filter_ext. intros oi. f_equal. now apply refers_deleted_key.
Qed.

Lemma delete_cascades_witness :
  let cat := mk_menu_category 1 "Desserts" None (Some 3%Z) (Some true) (Some 0%Z) (Some 0%Z) in
  let db' := raw_delete (fun r => N.eqb (mc_id r) (mc_id cat)) sample_db in
  map mi_id (menu_items db') = [3%N] /\ user_roles db' = user_roles sample_db.
Proof.
  intros cat db'.
  assert (Hcat : In cat (menu_categories sample_db)) by (now left).
  destruct (proj1 (delete_cascades sample_db) cat Hcat)
    as (_ & Hitems & _ & _ & _ & _ & Hroles).
  split; [|exact Hroles].
  fold db' in Hitems. rewrite Hitems. reflexivity.
Defined.

(** C6, in the wording of the specification ("no other rows are
    removed"), would leave order_items alone when a category is deleted.
    Deleting Desserts from [sample_db] removes, with its two menu items,
    the two order lines that reference them. *)
Lemma category_delete_reaches_order_items :
  let cat := mk_menu_category 1 "Desserts" None (Some 3%Z) (Some true) (Some 0%Z) (Some 0%Z) in
  let db' := raw_delete (fun r => N.eqb (mc_id r) (mc_id cat)) sample_db in
  In cat (menu_categories sample_db)
  /\ integrity sample_db = true
  /\ ~ (menu_categories db' =
          filter (fun r => negb (N.eqb (mc_id r) (mc_id cat))) (menu_categories sample_db)
        /\ menu_items db' =
          filter (fun i => negb (is_true (sql_eq N.eqb (mi_category_id i) (Some (mc_id cat)))))
                 (menu_items sample_db)
        /\ order_items db' = order_items sample_db
        /\ orders db' = orders sample_db
        /\ auth_users db' = auth_users sample_db
        /\ profiles db' = profiles sample_db
        /\ user_roles db' = user_roles sample_db).
Proof.
  intros cat db'. split; [now left|]. split; [reflexivity|].
  intros (_ & _ & Hoi & _). vm_compute in Hoi. discriminate Hoi.
Qed.

(** *** Cascades keep the constraints *)

Lemma distinct_NoDup (l : list uuid) : distinct l = true <-> NoDup l.
Proof.
  induction l as [|x l IH]; simpl.
  - split; [constructor | reflexivity].
  - rewrite andb_true_iff, negb_true_iff, IH, NoDup_cons_iff.
    rewrite <- not_true_iff_false, mem_uuid_In. reflexivity.
Qed.

Lemma distinct_filter {A : Type} (key : A -> uuid) (keep : A -> bool) (l : list A) :
  distinct (map key l) = true -> distinct (map key (filter keep l)) = true.
Proof.
  rewrite !distinct_NoDup. induction l as [|a l IH]; simpl; intros Hnd; [constructor|].
  apply NoDup_cons_iff in Hnd as [Ha Hnd]. destruct (keep a); simpl; [|now apply IH].
  constructor; [|now apply IH].
  intros Hin. apply Ha. apply in_map_iff in Hin as (x & Hx & Hin).
  apply filter_In in Hin as [Hin _]. rewrite <- Hx. now apply in_map.
Qed.

(** A reference that resolved before the delete and does not name a
    deleted key resolves among the rows that stay. *)
Lemma references_survive {A : Type} (key : A -> uuid) (dead : A -> bool) (l : list A) fk :
  references fk (map key l) = true ->
  refers fk (map key (filter dead l)) = false ->
  references fk (map key (filter (fun r => negb (dead r)) l)) = true.
Proof.
  destruct fk as [k|]; simpl; [|reflexivity].
  rewrite !mem_uuid_In. intros Hin Hnot.
  apply in_map_iff in Hin as (x & Hx & Hin).
  apply in_map_iff. exists x. split; [assumption|].
  apply filter_In. split; [assumption|].
  destruct (dead x) eqn:E; [|reflexivity].
  exfalso. apply not_true_iff_false in Hnot. apply Hnot.
  apply mem_uuid_In, in_map_iff. exists x. split; [assumption|].
  now apply filter_In.
Qed.

Lemma forallb_filter_keep {A : Type} (P keep : A -> bool) (l : list A) :
  forallb P l = true -> forallb P (filter keep l) = true.
Proof.
  rewrite !forallb_forall. intros HP x Hx. apply filter_In in Hx as [Hx _]. now apply HP.
Qed.

Lemma delete_menu_categories_integrity db (hit : menu_category -> bool) :
  integrity db = true -> integrity (raw_delete hit db) = true.
Proof.
  unfold integrity. intros Hint.
  apply andb_prop in Hint as [Hint Hord]. apply andb_prop in Hint as [Hid Hcat].
  change (identity_integrity (raw_delete hit db)) with (identity_integrity db).
  rewrite Hid. simpl.
  unfold catalog_integrity in Hcat. unfold orders_integrity in Hord.
  repeat (apply andb_prop in Hcat as [Hcat ?]).
  repeat (apply andb_prop in Hord as [Hord ?]).
  set (dead := fun i => refers (mi_category_id i) (map mc_id (filter hit (menu_categories db)))).
  apply andb_true_intro; split.
  - unfold catalog_integrity, raw_delete. simpl.
    fold dead. repeat (apply andb_true_intro; split).
    + now apply distinct_filter.
    + now apply distinct_filter.
    + apply forallb_forall. intros i Hi. apply filter_In in Hi as [Hi Hlive].
      apply references_survive.
      * match goal with
        | Hf : forallb (fun i => references (mi_category_id i) _) _ = true |- _ =>
            rewrite forallb_forall in Hf; now apply Hf
        end.
      * unfold dead in Hlive. now apply negb_true_iff in Hlive.
  - unfold orders_integrity, raw_delete. simpl.
    fold dead. repeat (apply andb_true_intro; split).
    + assumption.
    + now apply distinct_filter.
    + now apply forallb_filter_keep.
    + apply forallb_forall. intros oi Hoi. apply filter_In in Hoi as [Hoi Hlive].
      apply references_survive.
      * match goal with
        | Hf : forallb (fun i => references (oi_menu_item_id i) _) _ = true |- _ =>
            rewrite forallb_forall in Hf; now apply Hf
        end.
      * now apply negb_true_iff in Hlive.
Qed.

Lemma delete_orders_integrity db (hit : order -> bool) :
  integrity db = true -> integrity (raw_delete hit db) = true.
Proof.
  unfold integrity. intros Hint.
  apply andb_prop in Hint as [Hint Hord]. apply andb_prop in Hint as [Hid Hcat].
  change (identity_integrity (raw_delete hit db)) with (identity_integrity db).
  change (catalog_integrity (raw_delete hit db)) with (catalog_integrity db).
  rewrite Hid, Hcat. simpl.
  unfold orders_integrity in *. repeat (apply andb_prop in Hord as [Hord ?]).
  unfold raw_delete. simpl. repeat (apply andb_true_intro; split).
  - now apply distinct_filter.
  - now apply distinct_filter.
  - apply forallb_forall. intros oi Hoi. apply filter_In in Hoi as [Hoi Hlive].
    apply references_survive.
    + match goal with
      | Hf : forallb (fun i => references (oi_order_id i) _) _ = true |- _ =>
          rewrite forallb_forall in Hf; now apply Hf
      end.
    + now apply negb_true_iff in Hlive.
  - now apply forallb_filter_keep.
Qed.

(** For admin and staff, a delete on menu_categories or on orders goes
    through, cascades included. *)
Lemma manager_delete_commits db uid :
  integrity db = true ->
  has_role db uid admin = true \/ has_role db uid staff = true ->
  (forall where_ : menu_category -> bool,
     sql_delete db uid where_ = Done (raw_delete where_ db))
  /\ (forall where_ : order -> bool,
     sql_delete db uid where_ = Done (raw_delete where_ db)).
Proof.
  intros Hint Hrole.
  assert (Hyes : is_admin_or_staff db uid = true).
  { rewrite is_admin_or_staff_roles. destruct Hrole as [-> | ->]; [reflexivity|].
    apply orb_true_r. }
  assert (Hmc : forall c (r : menu_category), rls_permits table_policies c db uid r = true).
  { intros c r. unfold rls_permits. simpl. now rewrite Hyes. }
  assert (Ho : forall c (r : order), rls_permits table_policies c db uid r = true)
    by (intros c r; etransitivity; [apply orders_policy_guard | assumption]).
  split; intros where_.
  - rewrite (delete_by_manager db uid Hmc where_).
    apply commit_integrity. now apply delete_menu_categories_integrity.
  - rewrite (delete_by_manager db uid Ho where_).
    apply commit_integrity. now apply delete_orders_integrity.
Qed.

(** ** Provisioning of new identities *)

Lemma distinct_snoc (l : list uuid) (x : uuid) :
  distinct (l ++ [x]) = distinct l && negb (mem_uuid x l).
Proof.
  apply eq_iff_eq_true.
  rewrite andb_true_iff, negb_true_iff, !distinct_NoDup, NoDup_snoc.
  now rewrite <- not_true_iff_false, mem_uuid_In.
Qed.

Lemma mem_uuid_app (x : uuid) (l l' : list uuid) :
  mem_uuid x (l ++ l') = mem_uuid x l || mem_uuid x l'.
Proof. apply existsb_app. Qed.

Lemma references_more fk (keys more : list uuid) :
  references fk keys = true -> references fk (keys ++ more) = true.
Proof.
  destruct fk as [k|]; simpl; [|reflexivity]. rewrite mem_uuid_app. now intros ->.
Qed.

(** The generated key is larger than every key in use. *)
Lemma gen_random_uuid_above (used : list uuid) (x : uuid) :
  In x used -> (x < gen_random_uuid used)%N.
Proof.
  unfold gen_random_uuid. induction used as [|a l IH]; simpl; [contradiction|].
  intros [-> | Hx]; [lia|]. specialize (IH Hx). lia.
Qed.

Lemma gen_random_uuid_fresh (used : list uuid) : ~ In (gen_random_uuid used) used.
Proof. intros Hin. apply gen_random_uuid_above in Hin. lia. Qed.

Lemma unique_assignments_snoc (l : list user_roles_row) (r : user_roles_row) :
  unique_assignments l = true ->
  (forall a, In a l -> same_assignment a r = false) ->
  unique_assignments (l ++ [r]) = true.
Proof.
  induction l as [|a l IH]; intros Hu Hr; [reflexivity|].
  simpl in *. apply andb_prop in Hu as [Ha Hu].
  rewrite existsb_app. simpl. rewrite orb_false_r.
  rewrite (Hr a (or_introl eq_refl)), orb_false_r, Ha. simpl.
  apply IH; [assumption|]. intros b Hb. apply Hr. now right.
Qed.

(** The CASE of the trigger has two results, both string literals, so it
    is of type text, and text is not stored in an enum column. *)
Lemma role_case_is_text : case_type [ty_unknown; ty_unknown] = Some ty_text.
Proof. reflexivity. Qed.

Lemma text_into_enum name : storable ty_text (ty_enum name) = false.
Proof. reflexivity. Qed.

Lemma handle_new_user_raises now u db : handle_new_user now u db = DatatypeMismatch.
Proof. unfold handle_new_user. now rewrite role_case_is_text, text_into_enum. Qed.

Lemma create_identity_raises now u db :
  create_identity now u db =
  if mem_uuid (au_id u) (ids_of db) then ConstraintViolation else DatatypeMismatch.
Proof.
  unfold create_identity, on_auth_user_created, ids_of.
  destruct (mem_uuid (au_id u) (map au_id (auth_users db))); [reflexivity|].
  now rewrite handle_new_user_raises.
Qed.

Lemma identity_step_Create db now u : identity_step db (Create now u) = db.
Proof.
  simpl. rewrite create_identity_raises. now destruct (mem_uuid (au_id u) (ids_of db)).
Qed.

Lemma identity_step_migrated t0 e : identity_step (migrated t0) e = migrated t0.
Proof. destruct e as [now u | id]; [apply identity_step_Create | reflexivity]. Qed.

Lemma identity_history_migrated t0 evs : identity_history evs (migrated t0) = migrated t0.
Proof.
  unfold identity_history. induction evs as [|e evs IH]; [reflexivity|].
  cbn [fold_left]. now rewrite identity_step_migrated.
Qed.

(** C1. The provisioning trigger assigns no role at all.  The first
    sign-up on the migrated database is refused with a datatype mismatch:
    the CASE that chooses between 'admin' and 'staff' is of type text,
    which the column role, of type user_role, does not take.  So is every
    sign-up under an unused id in every state (under an id in use the
    primary key of auth.users refuses it first), and after any history of
    creations and removals the database is as the migration left it: no
    identity, no profile, and nobody holds admin or staff. *)
Theorem first_sign_up_is_refused :
  create_identity 10 (mk_auth_user 7 "chef@amandier.example" [("full_name"%string, "Amel"%string)])
                  (migrated 0) = DatatypeMismatch
  /\ (forall now u db,
        create_identity now u db =
        if mem_uuid (au_id u) (ids_of db) then ConstraintViolation else DatatypeMismatch)
  /\ (forall t0 evs,
        let db := identity_history evs (migrated t0) in
        db = migrated t0
        /\ auth_users db = [] /\ profiles db = [] /\ user_roles db = []
        /\ forall uid role, has_role db uid role = false).
Proof.
  split; [reflexivity|]. split; [exact create_identity_raises|].
  intros t0 evs db. unfold db. rewrite identity_history_migrated.
  repeat split.
Qed.

(** Three sign-ups and a removal: nothing is created. *)
Example three_signups :
  let db := identity_history
              [Create 10 (mk_auth_user 7 "a@x" [("full_name"%string, "Amel"%string)]);
               Create 11 (mk_auth_user 9 "b@x" []);
               Remove 7;
               Create 12 (mk_auth_user 7 "c@x" [])]
              (migrated 0) in
  auth_users db = [] /\ assigned db = [] /\ profiles db = [].
Proof. repeat split. Qed.

End SchemaFacts.

(** * Statements about the pages *)

Module PagesFacts.
Import ListFacts Js Pages PagesSpec.

(** ** Dictionaries and sorting *)

Lemma jsstring_eqb_eq (a b : jsstring) : jsstring_eqb a b = true <-> a = b.
Proof. unfold jsstring_eqb. destruct (list_eq_dec N.eq_dec a b); split; congruence. Qed.

Lemma jsstring_eqb_refl (a : jsstring) : jsstring_eqb a a = true.
Proof. now apply jsstring_eqb_eq. Qed.

Lemma jsstring_eqb_neq (a b : jsstring) : a <> b -> jsstring_eqb a b = false.
Proof. intros Hne. apply not_true_iff_false. now rewrite jsstring_eqb_eq. Qed.

Lemma get_set_same (d : dict) k v : get_own (set_own d k v) k = Some v.
Proof.
  induction d as [|[k' v'] d IH]; simpl.
  - now rewrite jsstring_eqb_refl.
  - destruct (jsstring_eqb k' k) eqn:E; simpl; rewrite E; [reflexivity | exact IH].
Qed.

Lemma get_set_other (d : dict) k v k0 : k <> k0 -> get_own (set_own d k v) k0 = get_own d k0.
Proof.
  intros Hne. induction d as [|[k' v'] d IH]; simpl.
  - now rewrite jsstring_eqb_neq.
  - destruct (jsstring_eqb k' k) eqn:E; simpl.
    + apply jsstring_eqb_eq in E. subst k'. now rewrite jsstring_eqb_neq.
    + now rewrite IH.
Qed.

Lemma get_None (d : dict) k : get_own d k = None <-> ~ In k (map fst d).
Proof.
  induction d as [|[k' v'] d IH]; simpl; [tauto|].
  destruct (jsstring_eqb k' k) eqn:E.
  - apply jsstring_eqb_eq in E. split; [discriminate | tauto].
  - rewrite IH. split; [|tauto]. intros Hn [-> | Hin]; [|tauto].
    now rewrite jsstring_eqb_refl in E.
Qed.

Lemma keys_set (d : dict) k v :
  map fst (set_own d k v) =
  match get_own d k with Some _ => map fst d | None => map fst d ++ [k] end.
Proof.
  induction d as [|[k' v'] d IH]; simpl; [reflexivity|].
  destruct (jsstring_eqb k' k) eqn:E; simpl; [reflexivity|].
  rewrite IH. now destruct (get_own d k).
Qed.

Lemma keys_set_NoDup (d : dict) k v : NoDup (map fst d) -> NoDup (map fst (set_own d k v)).
Proof.
  intros Hnd. rewrite keys_set. destruct (get_own d k) eqn:E; [assumption|].
  apply NoDup_app; [assumption | repeat constructor; auto |].
  intros a Ha [<- | []]. now apply get_None in E.
Qed.

Lemma In_get (d : dict) k v : NoDup (map fst d) -> (In (k, v) d <-> get_own d k = Some v).
Proof.
  induction d as [|[k' v'] d IH]; simpl; intros Hnd.
  - split; [contradiction | discriminate].
  - apply NoDup_cons_iff in Hnd as [Hk' Hnd]. destruct (jsstring_eqb k' k) eqn:E.
    + apply jsstring_eqb_eq in E. subst k'. split.
      * intros [[= ->] | Hin]; [reflexivity|]. exfalso. apply Hk'.
        now apply (in_map fst) in Hin.
      * intros [= ->]. now left.
    + rewrite <- (IH Hnd). split; [|tauto]. intros [[= -> _] | Hin]; [|assumption].
      now rewrite jsstring_eqb_refl in E.
Qed.

(** Away from the names of Object.prototype the dictionary is its own
    properties. *)
Lemma inherits_false k :
  inherits k = false ->
  jsstring_eqb k proto = false /\ method_named k object_prototype_methods = None.
Proof.
  unfold inherits. intros H. apply orb_false_elim in H as [Hp Hm]. split; [exact Hp|].
  now destruct (method_named k object_prototype_methods).
Qed.

Lemma get_plain (d : dict) k : inherits k = false -> get d k = option_map a_value (get_own d k).
Proof.
  intros H. apply inherits_false in H as [Hp Hm]. unfold get.
  destruct (get_own d k); [reflexivity|]. now rewrite Hp, Hm.
Qed.

Lemma set_plain (d : dict) k v : inherits k = false -> set d k v = set_own d k v.
Proof.
  intros H. apply inherits_false in H as [Hp _]. unfold set.
  destruct (get_own d k); [reflexivity|]. now rewrite Hp.
Qed.

Lemma sort_insert_Permutation {A : Type} (cmp : A -> A -> Z) x (l : list A) :
  Permutation (sort_insert cmp x l) (x :: l).
Proof.
  induction l as [|y l IH]; simpl; [reflexivity|].
  destruct (cmp x y <=? 0)%Z; [reflexivity|].
  rewrite IH. apply perm_swap.
Qed.

Lemma sort_Permutation {A : Type} (cmp : A -> A -> Z) (l : list A) :
  Permutation (sort cmp l) l.
Proof.
  induction l as [|x l IH]; simpl; [reflexivity|].
  rewrite sort_insert_Permutation. now apply perm_skip.
Qed.

Section Sorted.
Context {A : Type} (cmp : A -> A -> Z).

(** [a] may stay before [b]. *)
Let before (a b : A) : Prop := (cmp a b <= 0)%Z.

(** The comparator is consistent on the elements that satisfy [P]. *)
Variable P : A -> Prop.
Hypothesis cmp_total : forall a b, P a -> P b -> (cmp a b > 0)%Z -> (cmp b a <= 0)%Z.
Hypothesis cmp_trans : forall a b c, P a -> P b -> P c -> before a b -> before b c -> before a c.

Lemma sort_insert_sorted x l :
  P x -> Forall P l -> StronglySorted before l -> StronglySorted before (sort_insert cmp x l).
Proof.
  intros Hx Hl Hs. induction Hs as [|y l Hs IH Hy]; simpl.
  - repeat constructor.
  - apply Forall_cons_iff in Hl as [Hpy Hl].
    destruct (Z.leb_spec (cmp x y) 0) as [Hle | Hgt].
    + constructor; [now constructor|]. constructor; [exact Hle|].
      rewrite Forall_forall in *. intros z Hz. apply cmp_trans with y; auto.
    + constructor; [now apply IH|].
      apply (Permutation_Forall (Permutation_sym (sort_insert_Permutation cmp x l))).
      constructor; [|exact Hy]. apply cmp_total; auto. lia.
Qed.

Lemma sort_sorted l : Forall P l -> StronglySorted before (sort cmp l).
Proof.
  induction l as [|x l IH]; simpl; intros Hl; [constructor|].
  apply Forall_cons_iff in Hl as [Hx Hl]. apply sort_insert_sorted; auto.
  apply (Permutation_Forall (Permutation_sym (sort_Permutation cmp l))). exact Hl.
Qed.
End Sorted.

Lemma StronglySorted_firstn {A : Type} (R : A -> A -> Prop) n (l : list A) :
  StronglySorted R l -> StronglySorted R (firstn n l).
Proof.
  intros Hl. revert n. induction Hl as [|x l Hl IH Hx]; intros [|n]; simpl; try constructor.
  - apply IH.
  - apply Forall_forall. intros y Hy. apply In_firstn in Hy.
    rewrite Forall_forall in Hx. now apply Hx.
Qed.

Lemma StronglySorted_map {A C : Type} (R : C -> C -> Prop) (f : A -> C) (l : list A) :
  StronglySorted (fun a b => R (f a) (f b)) l -> StronglySorted R (map f l).
Proof.
  induction 1 as [|x l Hl IH Hx]; simpl; constructor; [assumption|].
  apply Forall_map. exact Hx.
Qed.

Lemma filter_split_Permutation {A : Type} (f : A -> bool) (l : list A) :
  Permutation (filter f l ++ filter (fun x => negb (f x)) l) l.
Proof.
  induction l as [|x l IH]; simpl; [reflexivity|].
  destruct (f x); simpl.
  - now apply perm_skip.
  - rewrite <- Permutation_middle. now apply perm_skip.
Qed.

Lemma entries_Permutation (d : dict) : Permutation (entries d) d.
Proof.
  unfold entries. rewrite sort_Permutation. apply filter_split_Permutation.
Qed.
(** ** Popular dishes *)

Section Dishes.
Context {JE : JsEngine}.

Lemma ordered_snoc name items item :
  ordered name (items ++ [item]) =
  (ordered name items + if names name item then oi_quantity item else 0)%Z.
Proof.
  unfold ordered. rewrite filter_app, map_app. simpl.
  induction (map oi_quantity (filter (names name) items)) as [|q l IH]; simpl.
  - destruct (names name item); simpl; lia.
  - rewrite IH. lia.
Qed.

Lemma ordered_absent name items :
  existsb (names name) items = false -> ordered name items = 0%Z.
Proof.
  intros Hno. unfold ordered. rewrite filter_none; [reflexivity|].
  intros x Hx. apply not_true_iff_false. intros Hn.
  assert (existsb (names name) items = true) by (apply existsb_exists; eauto).
  congruence.
Qed.

Lemma dishCounts_snoc items item :
  dishCounts (items ++ [item]) = count_dish (dishCounts items) item.
Proof. unfold dishCounts. now rewrite fold_left_app. Qed.

Lemma truthy_nonempty (s : jsstring) : truthy s = true <-> s <> [].
Proof. destruct s; simpl; split; congruence. Qed.

Lemma dishName_Some item name :
  dishName item = Some name <-> oi_menu_items item = Some name /\ name <> [].
Proof.
  unfold dishName, or_null. destruct (oi_menu_items item) as [[|c n]|]; simpl.
  - split; [discriminate|]. intros [[= <-] Hne]. now contradiction Hne.
  - split.
    + intros [= <-]. split; [reflexivity | discriminate].
    + now intros [[= <-] _].
  - split; [discriminate | intros [[=] _]].
Qed.

Lemma dishName_None item :
  dishName item = None <-> oi_menu_items item = None \/ oi_menu_items item = Some [].
Proof.
  unfold dishName, or_null. destruct (oi_menu_items item) as [[|c n]|]; simpl.
  - split; auto.
  - split; [discriminate | intros [H | H]; discriminate].
  - split; auto.
Qed.

Lemma names_unnamed item name :
  dishName item = None -> truthy name = true -> names name item = false.
Proof.
  intros Hnone Hname. apply dishName_None in Hnone. unfold names.
  destruct Hnone as [-> | ->]; [reflexivity|]. now destruct name.
Qed.

Lemma names_exists name items :
  existsb (names name) items = true <->
  exists item, In item items /\ oi_menu_items item = Some name.
Proof.
  rewrite existsb_exists. split; intros (item & Hin & Hn); exists item; (split; [assumption|]).
  - unfold names in Hn. destruct (oi_menu_items item) as [n|]; [|discriminate].
    apply jsstring_eqb_eq in Hn. now subst.
  - unfold names. rewrite Hn. apply jsstring_eqb_refl.
Qed.

Lemma plain_snoc items item :
  plain (items ++ [item]) ->
  plain items /\ forall name, oi_menu_items item = Some name -> inherits name = false.
Proof.
  intros Hp. split.
  - intros i n Hin. apply Hp. apply in_or_app. now left.
  - intros n. apply Hp. apply in_or_app. right. now left.
Qed.

(** Away from the names of Object.prototype, the dictionary holds, for
    each name met so far, the quantity ordered so far, and nothing
    else. *)
Lemma dishCounts_spec items :
  plain items ->
  NoDup (map fst (dishCounts items))
  /\ forall name,
       get_own (dishCounts items) name =
       if truthy name && existsb (names name) items
       then Some (v_number (ordered name items)) else None.
Proof.
  induction items as [|item items IH] using rev_ind; intros Hplain.
  - split; [constructor|]. intros name. now rewrite andb_false_r.
  - apply plain_snoc in Hplain as [Hitems Hitem]. destruct (IH Hitems) as [Hnd Hget].
    rewrite dishCounts_snoc. unfold count_dish.
    destruct (dishName item) as [n|] eqn:En.
    + pose proof En as Hn. apply dishName_Some in Hn as [Hrow Hne].
      pose proof (Hitem n Hrow) as Hplain. apply truthy_nonempty in Hne.
      rewrite (@set_plain _ _ _ Hplain), (@get_plain _ _ Hplain), Hget, Hne. simpl.
      assert (Hsum : plus (or_zero (option_map a_value
                                      (if existsb (names n) items
                                       then Some (v_number (ordered n items)) else None)))
                          (oi_quantity item)
                     = v_number (ordered n items + oi_quantity item)).
      { destruct (existsb (names n) items) eqn:Ex; simpl; [reflexivity|].
        now rewrite (ordered_absent _ _ Ex). }
      rewrite Hsum. split; [now apply keys_set_NoDup|]. intros name.
      assert (Hnames : names name item = jsstring_eqb n name) by (unfold names; now rewrite Hrow).
      rewrite existsb_app, ordered_snoc. simpl. rewrite orb_false_r, Hnames.
      destruct (jsstring_eqb n name) eqn:E.
      * apply jsstring_eqb_eq in E. subst n. now rewrite get_set_same, Hne, orb_true_r.
      * rewrite get_set_other by (intros ->; now rewrite jsstring_eqb_refl in E).
        rewrite Hget, orb_false_r.
        destruct (truthy name && existsb (names name) items); [|reflexivity].
        f_equal. f_equal. lia.
    + split; [assumption|]. intros name. rewrite Hget.
      destruct (truthy name) eqn:Ht; [|reflexivity]. simpl.
      rewrite existsb_app, ordered_snoc. simpl.
      rewrite (names_unnamed _ _ En Ht), !orb_false_r.
      destruct (existsb (names name) items); [|reflexivity]. f_equal. f_equal. lia.
Qed.

Lemma ranking_Permutation items :
  Permutation (map (fun d => (dish_name d, dish_count d)) (ranking items)) (dishCounts items).
Proof.
  unfold ranking. rewrite map_map. simpl.
  rewrite (map_ext _ (fun kv => kv)) by (now intros [k v]).
  rewrite map_id, sort_Permutation. apply entries_Permutation.
Qed.

Lemma In_ranking items d :
  plain items ->
  In d (ranking items) <->
  dish_name d <> []
  /\ existsb (names (dish_name d)) items = true
  /\ dish_count d = v_number (ordered (dish_name d) items).
Proof.
  intros Hplain. destruct (dishCounts_spec Hplain) as [Hnd Hget].
  assert (Hd : In d (ranking items) <-> In (dish_name d, dish_count d) (dishCounts items)).
  { split.
    - intros Hin. apply (Permutation_in _ (ranking_Permutation items)).
      now apply (in_map (fun d => (dish_name d, dish_count d))) in Hin.
    - intros Hin. apply (Permutation_in _ (Permutation_sym (ranking_Permutation items))) in Hin.
      apply in_map_iff in Hin as (d' & Hd' & Hin).
      destruct d, d'. simpl in Hd'. now injection Hd' as -> ->. }
  rewrite Hd, (@In_get _ _ _ Hnd), Hget, <- truthy_nonempty.
  destruct (truthy (dish_name d)); simpl.
  - destruct (existsb (names (dish_name d)) items); split.
    + intros [= <-]. now repeat split.
    + intros (_ & _ & ->). reflexivity.
    + discriminate.
    + intros (_ & [=] & _).
  - split; [discriminate | intros ([=] & _)].
Qed.

(** Away from the names of Object.prototype every count is a number. *)
Lemma counts_are_numbers items :
  plain items -> Forall (fun kv => exists x, snd kv = v_number x) (dishCounts items).
Proof.
  intros Hplain. destruct (dishCounts_spec Hplain) as [Hnd Hget].
  apply Forall_forall. intros [k v] Hin. apply (@In_get _ _ _ Hnd) in Hin.
  rewrite Hget in Hin. simpl.
  destruct (truthy k && existsb (names k) items); [|discriminate].
  injection Hin as <-. eauto.
Qed.

Lemma ranking_sorted items :
  plain items ->
  StronglySorted (fun a b => count_le (dish_count b) (dish_count a)) (ranking items).
Proof.
  intros Hplain. unfold ranking. apply StronglySorted_map. simpl.
  set (cmp := fun a b : jsstring * Value => compared (minus (snd b) (snd a))).
  set (number := fun kv : jsstring * Value => exists x, snd kv = v_number x).
  assert (Hall : Forall number (entries (dishCounts items))).
  { apply (Permutation_Forall (Permutation_sym (entries_Permutation _))).
    now apply counts_are_numbers. }
  apply StronglySorted_weaken_on
    with (P := number) (R := fun a b => (cmp a b <= 0)%Z).
  - apply (Permutation_Forall (Permutation_sym (sort_Permutation cmp _))). exact Hall.
  - intros [ka a] [kb b] [x Hx] [y Hy]. unfold cmp. simpl in *. subst. simpl. lia.
  - apply (sort_sorted cmp (P := number)); [| |exact Hall].
    + intros [ka a] [kb b] [x Hx] [y Hy]. unfold cmp. simpl in *. subst. simpl. lia.
    + intros [ka a] [kb b] [kc c] [x Hx] [y Hy] [z Hz]. unfold cmp. simpl in *. subst.
      simpl. lia.
Qed.

Lemma popularDishes_ranking items : popularDishes items = firstn 5 (ranking items).
Proof. unfold popularDishes, ranking. now rewrite firstn_map. Qed.

Lemma ranking_names_NoDup items : plain items -> NoDup (map dish_name (ranking items)).
Proof.
  intros Hplain. destruct (dishCounts_spec Hplain) as [Hnd _].
  apply (Permutation_NoDup (l := map fst (dishCounts items))); [|exact Hnd].
  rewrite <- (ranking_Permutation items), map_map. simpl. reflexivity.
Qed.

Lemma count_dish_unnamed d item : dishName item = None -> count_dish d item = d.
Proof. unfold count_dish. now intros ->. Qed.

(** C9. A dish called like a member of Object.prototype is not
    aggregated.  Two line items of a dish named __proto__, of 2 and 3,
    leave no entry at all, also beside another dish; two line items of a
    dish named constructor leave, in place of the quantity 5, the source
    text of the function Object followed by the digits 2 and 3. *)
Theorem inherited_dish_name_is_miscounted :
  popularDishes [line "__proto__" 2; line "__proto__" 3] = []
  /\ popularDishes [line "Tajine" 1; line "__proto__" 2; line "Tajine" 1]
     = [mk_Dish (lit "Tajine") (v_number 2)]
  /\ popularDishes [line "constructor" 2; line "constructor" 3]
     = [mk_Dish (lit "constructor")
                (v_string (function_source "Object" ++ lit "2" ++ lit "3"))].
Proof.
  split; [reflexivity|]. split; [reflexivity|].
  unfold popularDishes, dishCounts, count_dish. cbn.
  destruct (function_source "Object") as [|c source]; cbn; [reflexivity|].
  now rewrite <- app_assoc.
Qed.

(** X25. When no menu item is called like a member of Object.prototype,
    the dashboard's popular dishes are at most five, no name twice, in
    non-increasing order of count, each with a name that is not empty and
    the sum of the quantities of the line items whose menu item carries
    that name; every dish with such a line item is listed, unless five
    dishes are listed that were each ordered at least as much; and a line
    item without a menu item, or with one whose name is empty, changes
    nothing. *)
Theorem popular_dishes_top_five (orderItems : list OrderItemRow) :
  plain orderItems ->
  let top := popularDishes orderItems in
  (List.length top <= 5)%nat
  /\ StronglySorted (fun a b => count_le (dish_count b) (dish_count a)) top
  /\ NoDup (map dish_name top)
  /\ (forall d, In d top ->
        dish_name d <> []
        /\ (exists item, In item orderItems /\ oi_menu_items item = Some (dish_name d))
        /\ dish_count d = v_number (ordered (dish_name d) orderItems))
  /\ (forall item name,
        In item orderItems -> oi_menu_items item = Some name -> name <> [] ->
        In (mk_Dish name (v_number (ordered name orderItems))) top
        \/ (List.length top = 5%nat
            /\ forall d, In d top ->
                 count_le (v_number (ordered name orderItems)) (dish_count d)))
  /\ (forall before item after,
        orderItems = before ++ item :: after ->
        oi_menu_items item = None \/ oi_menu_items item = Some [] ->
        popularDishes (before ++ after) = top).
Proof.
  intros Hplain top. unfold top. rewrite popularDishes_ranking.
  split; [apply firstn_le_length|].
  split; [apply StronglySorted_firstn, ranking_sorted, Hplain|].
  split.
  { rewrite <- firstn_map. apply NoDup_firstn, ranking_names_NoDup, Hplain. }
  split.
  { intros d Hd. apply In_firstn in Hd. apply (In_ranking d Hplain) in Hd as (Hne & Hex & Hcount).
    apply names_exists in Hex. auto. }
  split.
  { intros item name Hin Hname Hne.
    assert (Hd : In (mk_Dish name (v_number (ordered name orderItems))) (ranking orderItems)).
    { apply (In_ranking _ Hplain). simpl. repeat split; [assumption|].
      apply names_exists. eauto. }
    rewrite <- (firstn_skipn 5 (ranking orderItems)) in Hd at 1.
    apply in_app_or in Hd as [Hd | Hd]; [now left|]. right. split.
    - rewrite length_firstn. apply Nat.min_l.
      destruct (le_lt_dec 5 (List.length (ranking orderItems))) as [Hle | Hlt]; [exact Hle|].
      rewrite skipn_all2 in Hd by lia. contradiction.
    - intros d Hdtop.
      apply (StronglySorted_app_cross
               (R := fun a b => count_le (dish_count b) (dish_count a))
               (firstn 5 (ranking orderItems)) (skipn 5 (ranking orderItems))
               ltac:(rewrite firstn_skipn; apply ranking_sorted, Hplain) d _ Hdtop Hd). }
  intros before item after -> Hnone. apply dishName_None in Hnone.
  rewrite popularDishes_ranking. unfold ranking, dishCounts.
  rewrite !fold_left_app. simpl. now rewrite count_dish_unnamed.
Qed.
End Dishes.

(** Nine line items over six dishes; one line has no menu item, one an
    empty name, one dish is called "7". *)
Example todays_lines :
  popularDishes (JE := v8)
    [line "Tajine" 2; line "Couscous" 1; mk_OrderItemRow None 9 None; line "" 4;
     line "Tajine" 1; line "7" 3; line "Harira" 1; line "Pastilla" 1; line "Briouat" 1]
  = [mk_Dish (lit "7") (v_number 3); mk_Dish (lit "Tajine") (v_number 3);
     mk_Dish (lit "Couscous") (v_number 1); mk_Dish (lit "Harira") (v_number 1);
     mk_Dish (lit "Pastilla") (v_number 1)].
Proof. reflexivity. Qed.

(** The same day with a dessert the menu calls "toString": its count is
    a string, which the comparator cannot rank. *)
Example a_dish_called_toString :
  popularDishes (JE := v8) [line "Tajine" 2; line "toString" 1; line "toString" 4]
  = [mk_Dish (lit "Tajine") (v_number 2);
     mk_Dish (lit "toString") (v_string (lit "function toString() { [native code] }14"))].
Proof. reflexivity. Qed.

(** ** split, join and trim *)

Lemma split_nonempty sep s : split sep s <> [].
Proof.
  destruct s as [|c s]; simpl; [discriminate|].
  destruct (c =? sep)%N; [discriminate|]. destruct (split sep s); discriminate.
Qed.

(** Joining the pieces with the separator gives the string back. *)
Lemma join_split sep s : join [sep] (split sep s) = s.
Proof.
  induction s as [|c s IH]; [reflexivity|]. simpl.
  destruct (N.eqb_spec c sep) as [->|Hne].
  - pose proof (split_nonempty sep s) as Hs. simpl.
    destruct (split sep s) as [|p ps]; [contradiction|]. simpl in *. now rewrite IH.
  - destruct (split sep s) as [|p ps] eqn:E; [now apply split_nonempty in E|].
    simpl in *. destruct ps; simpl in *; now rewrite <- IH.
Qed.

Lemma split_pieces sep s : Forall (fun p => ~ In sep p) (split sep s).
Proof.
  induction s as [|c s IH]; simpl.
  - repeat constructor. auto.
  - destruct (N.eqb_spec c sep) as [->|Hne].
    + constructor; [auto | exact IH].
    + destruct (split sep s) as [|p ps]; [repeat constructor; simpl; intuition|].
      apply Forall_cons_iff in IH as [Hp Hps]. constructor; [|exact Hps].
      simpl. intuition.
Qed.

Lemma split_length sep s : List.length (split sep s) = S (count_occ N.eq_dec s sep).
Proof.
  induction s as [|c s IH]; [reflexivity|]. simpl.
  destruct (N.eqb_spec c sep) as [->|Hne].
  - simpl. rewrite IH. now destruct (N.eq_dec sep sep).
  - destruct (N.eq_dec c sep); [contradiction|].
    destruct (split sep s); simpl in *; [discriminate | exact IH].
Qed.

Lemma trimStart_spec s :
  exists l, s = l ++ trimStart s
            /\ forallb is_white_space l = true
            /\ (forall c rest, trimStart s = c :: rest -> is_white_space c = false).
Proof.
  induction s as [|c s (l & Hs & Hl & Hhd)]; simpl.
  - exists []. repeat split; auto. discriminate.
  - destruct (is_white_space c) eqn:E.
    + exists (c :: l). simpl. rewrite E, Hl. repeat split; auto. now rewrite <- Hs.
    + exists []. repeat split; auto. now intros c' rest [= <- _].
Qed.

Lemma trimEnd_spec s :
  exists r, s = trimEnd s ++ r
            /\ forallb is_white_space r = true
            /\ (forall c rest, trimEnd s = rest ++ [c] -> is_white_space c = false).
Proof.
  unfold trimEnd. destruct (trimStart_spec (rev s)) as (l & Hs & Hl & Hhd).
  exists (rev l). repeat split.
  - rewrite <- rev_app_distr, <- Hs. now rewrite rev_involutive.
  - rewrite forallb_forall in *. intros x Hx. apply Hl. now apply in_rev.
  - intros c rest Hc. apply (Hhd c (rev rest)).
    rewrite <- (rev_involutive (trimStart (rev s))), Hc, rev_app_distr. reflexivity.
Qed.

(** trim removes white space, and only white space, from both ends. *)
Lemma trim_spec s :
  exists l r, s = l ++ trim s ++ r
              /\ forallb is_white_space l = true
              /\ forallb is_white_space r = true
              /\ stripped (trim s).
Proof.
  unfold trim. destruct (trimStart_spec s) as (l & Hs & Hl & Hhd).
  destruct (trimEnd_spec (trimStart s)) as (r & Ht & Hr & Hlast).
  exists l, r. repeat split; auto.
  - now rewrite <- Ht.
  - intros c rest Hc. apply (Hhd c (rest ++ r)). now rewrite Ht, Hc.
Qed.

(** ** Running a handler *)

Ltac unfold_run :=
  unfold resetForm;
  unfold throw_if_error, toast, setMenuItems, setCategories, setLoading, setDialogOpen,
    setEditingItem, setFormData, setStats, setDashboardLoading;
  unfold try_finally, try_catch, bind, ret, throw, emit, get_state, set_state, await, await_all;
  simpl.

(** Case analysis on what each request settles to, in order. *)
Ltac settle serve :=
  repeat match goal with
         | |- context [serve ?q ?b] =>
             let s := fresh "s" in
             let b' := fresh "b" in
             destruct (serve q b) as [s b']; destruct s as [?r | ?e]; simpl
         | |- context [error ?r] => destruct (error r) eqn:?; simpl
         end.

(** The same, keeping what each request was answered with. *)
Ltac settle_eq serve :=
  repeat match goal with
         | |- context [serve ?q ?b] =>
             let s := fresh "s" in
             let b' := fresh "b" in
             destruct (serve q b) as [s b'] eqn:?; destruct s as [?r | ?e]; simpl
         | |- context [error ?r] => destruct (error r) eqn:?; simpl
         end.

(** After the run: the requests are distinct and account for the backend. *)
Ltac kept_requests serve :=
  subst; unfold served; simpl in *;
  repeat match goal with
         | H : serve ?q ?b = _ |- context [serve ?q ?b] => rewrite H; simpl
         end;
  try congruence;
  (split; [repeat constructor; simpl; intuition discriminate | reflexivity]).

Lemma trimmed_pieces (pieces : list jsstring) : Forall2 trimmed pieces (map trim pieces).
Proof.
  induction pieces as [|p pieces IH]; simpl; constructor; [|exact IH].
  destruct (trim_spec p) as (l & r & Hp & Hl & Hr & Hs). split; [exact Hs|]. eauto.
Qed.

Lemma trimStart_stripped s :
  (forall c rest, s = c :: rest -> is_white_space c = false) -> trimStart s = s.
Proof.
  destruct s as [|c s]; [reflexivity|]. intros Hhd. simpl.
  now rewrite (Hhd c s eq_refl).
Qed.

Lemma trimEnd_stripped s :
  (forall c rest, s = rest ++ [c] -> is_white_space c = false) -> trimEnd s = s.
Proof.
  intros Hlast. unfold trimEnd. rewrite trimStart_stripped; [apply rev_involutive|].
  intros c rest Hrev. apply (Hlast c (rev rest)).
  rewrite <- (rev_involutive s), Hrev. reflexivity.
Qed.

(** trim leaves a string without white space at its ends as it is. *)
Lemma trim_stripped s : stripped s -> trim s = s.
Proof.
  intros [Hhd Hlast]. unfold trim.
  rewrite trimStart_stripped by assumption. now apply trimEnd_stripped.
Qed.

Lemma trimStart_white l s :
  forallb is_white_space l = true -> trimStart (l ++ s) = trimStart s.
Proof.
  induction l as [|c l IH]; simpl; [reflexivity|]. intros Hl.
  apply andb_prop in Hl as [-> Hl]. now apply IH.
Qed.

Lemma trimStart_all_white l : forallb is_white_space l = true -> trimStart l = [].
Proof.
  intros Hl. rewrite <- (app_nil_r l). now rewrite (@trimStart_white l [] Hl).
Qed.

Lemma trimEnd_white s r : forallb is_white_space r = true -> trimEnd (s ++ r) = trimEnd s.
Proof.
  intros Hr. unfold trimEnd. rewrite rev_app_distr, trimStart_white; [reflexivity|].
  rewrite forallb_forall in *. intros x Hx. apply Hr. now apply in_rev.
Qed.

(** A piece has one entry, the one trim gives. *)
Lemma trimmed_is_trim (piece entry : jsstring) : trimmed piece entry -> entry = trim piece.
Proof.
  intros [[Hhd Hlast] (l & r & -> & Hl & Hr)]. unfold trim.
  rewrite (@trimStart_white l _ Hl). destruct entry as [|c entry].
  - simpl. now rewrite (@trimStart_all_white r Hr).
  - rewrite trimStart_stripped.
    + rewrite (@trimEnd_white _ r Hr). symmetry. now apply trimEnd_stripped.
    + intros c' rest [= <- _]. now apply (Hhd c entry).
Qed.

Lemma trimmed_unique (piece e e' : jsstring) : trimmed piece e -> trimmed piece e' -> e = e'.
Proof. intros He He'. apply trimmed_is_trim in He, He'. congruence. Qed.

(** ** The payload of handleSubmit *)

Section Submit.
Context {JN : JsNumber}.

Lemma handleSubmit_request (B : Type) (serve : Query -> B -> Settled * B)
    (w : World B MenuState) :
  exists outcome rest,
    trace (snd (handleSubmit serve w)) =
    trace w ++ Requested [submitted (state w)] [outcome] :: rest.
Proof.
  destruct w as [b tr s]. unfold submitted, handleSubmit, fetchMenuData. unfold_run.
  destruct (editingItem s) as [item|]; settle serve;
    eexists _, _; repeat rewrite <- app_assoc; reflexivity.
Qed.

(** C10. The object handleSubmit sends has image_url and category_id
    null when the form field is empty and the field's text otherwise;
    allergens is null when the field is empty and otherwise a list with
    one entry for each comma-separated piece of the field, in order, the
    entry being the piece without the white space at its two ends; and
    handleSubmit sends this one object whether it updates the item being
    edited or inserts a new one. *)
Theorem submit_payload (form : FormData) :
  let d := itemData form in
  (fd_image_url form = [] -> d_image_url d = None)
  /\ (fd_image_url form <> [] -> d_image_url d = Some (fd_image_url form))
  /\ (fd_category_id form = [] -> d_category_id d = None)
  /\ (fd_category_id form <> [] -> d_category_id d = Some (fd_category_id form))
  /\ (fd_allergens form = [] -> d_allergens d = None)
  /\ (fd_allergens form <> [] ->
      exists pieces entries,
        d_allergens d = Some entries
        /\ join [comma] pieces = fd_allergens form
        /\ Forall (fun p => ~ In comma p) pieces
        /\ List.length pieces = S (count_occ N.eq_dec (fd_allergens form) comma)
        /\ Forall2 trimmed pieces entries)
  /\ (forall (B : Type) (serve : Query -> B -> Settled * B) (w : World B MenuState),
        formData (state w) = form ->
        exists outcome rest,
          trace (snd (handleSubmit serve w)) =
          trace w ++
          Requested [match editingItem (state w) with
                     | Some item => q_update "menu_items" (patch_item d) [f_eq "id" (it_id item)]
                     | None => q_insert "menu_items" [d]
                     end] [outcome] :: rest).
Proof.
  intros d. unfold d, itemData, or_null. simpl.
  repeat split.
  - now intros ->.
  - destruct (fd_image_url form); [congruence | reflexivity].
  - now intros ->.
  - destruct (fd_category_id form); [congruence | reflexivity].
  - now intros ->.
  - intros Hne. exists (split comma (fd_allergens form)).
    exists (map trim (split comma (fd_allergens form))).
    split; [|split; [|split; [|split]]].
    + destruct (fd_allergens form); [congruence | reflexivity].
    + apply join_split.
    + apply split_pieces.
    + apply split_length.
    + apply trimmed_pieces.
  - intros B serve w <-. exact (handleSubmit_request serve w).
Qed.
End Submit.

Lemma submit_payload_witness :
  d_image_url (itemData (JN := whole_numbers) allergens_form) = None
  /\ d_category_id (itemData (JN := whole_numbers) allergens_form) = Some (lit "c-3")
  /\ exists pieces entries,
       d_allergens (itemData (JN := whole_numbers) allergens_form) = Some entries
       /\ join [comma] pieces = lit " nuts, dairy ,gluten"
       /\ Forall2 trimmed pieces entries.
Proof.
  pose proof (submit_payload (JN := whole_numbers) allergens_form)
    as (Himg & _ & _ & Hcat & _ & Hall & _).
  split; [now apply Himg|]. split; [apply Hcat; discriminate|].
  destruct Hall as (pieces & entries & Hd & Hjoin & _ & _ & Htrim); [discriminate|].
  now exists pieces, entries.
Defined.

Example allergens_sent :
  d_allergens (itemData (JN := whole_numbers) allergens_form)
  = Some [lit "nuts"; lit "dairy"; lit "gluten"].
Proof. reflexivity. Qed.

(** ** Failed calls *)

Section Failures.
Context {JN : JsNumber} {JE : JsEngine} (B : Type) (serve : Query -> B -> Settled * B).

(** MenuManagement: whatever the backend answers, each handler, from
    its first failed call on, shows exactly one error notification and
    issues no further request. *)
Lemma menu_failures_reported (confirm : string -> bool) (w : World B MenuState) :
  trace w = [] ->
  failure_reported (trace (snd (fetchMenuData serve w))) = true
  /\ failure_reported (trace (snd (handleSubmit serve w))) = true
  /\ (forall id, failure_reported (trace (snd (handleDelete serve confirm id w))) = true)
  /\ (forall item, failure_reported (trace (snd (toggleAvailability serve item w))) = true).
Proof.
  destruct w as [b tr s]. simpl. intros ->.
  repeat split; intros;
    unfold handleSubmit, handleDelete, toggleAvailability, fetchMenuData; unfold_run.
  - settle serve; first [reflexivity | congruence].
  - destruct (editingItem s); settle serve; first [reflexivity | congruence].
  - destruct (confirm _); simpl; [|reflexivity].
    settle serve; first [reflexivity | congruence].
  - settle serve; first [reflexivity | congruence].
Qed.

(** MenuManagement: no request is issued twice, and the backend is left
    as the issued requests left it: nothing is retried and nothing is
    undone after a failure. *)
Lemma menu_effects_stay (confirm : string -> bool) (w : World B MenuState) :
  trace w = [] ->
  let kept (w' : World B MenuState) :=
    NoDup (requests (trace w'))
    /\ backend w' = served serve (requests (trace w')) (backend w) in
  kept (snd (fetchMenuData serve w))
  /\ kept (snd (handleSubmit serve w))
  /\ (forall id, kept (snd (handleDelete serve confirm id w)))
  /\ (forall item, kept (snd (toggleAvailability serve item w))).
Proof.
  destruct w as [b tr s]. simpl. intros ->.
  remember (served serve) as final eqn:Hfinal.
  split; [|split; [|split]]; intros;
    unfold handleSubmit, handleDelete, toggleAvailability, fetchMenuData; unfold_run.
  - settle_eq serve; kept_requests serve.
  - destruct (editingItem s); settle_eq serve; kept_requests serve.
  - destruct (confirm _); simpl; [|subst final; split; [constructor | reflexivity]].
    settle_eq serve; kept_requests serve.
  - settle_eq serve; kept_requests serve.
Qed.

(** Dashboard: a response that carries an error is not looked at.  When
    no promise rejects, the four requests are issued whatever they
    resolve to, and no notification is shown. *)
Lemma dashboard_errors_unreported (today : jsstring) (w : World B DashboardState) :
  trace w = [] ->
  (forall q b, exists r, fst (serve q b) = Resolved r) ->
  let tr := trace (snd (fetchDashboardStats serve today w)) in
  filter is_error_toast tr = []
  /\ List.length (requests tr) = 4%nat
  /\ (forall r b, serve (q_select "orders" "*" true [] None) (backend w) = (Resolved r, b) ->
      error r <> None -> failure_reported tr = false).
Proof.
  destruct w as [b tr s]. simpl. intros -> Hresolves.
  unfold fetchDashboardStats. unfold_run.
  repeat match goal with
         | |- context [serve ?q ?b] =>
             let E := fresh "E" in
             let s := fresh "s" in
             let b' := fresh "b" in
             destruct (Hresolves q b) as [? E];
             destruct (serve q b) as [s b']; simpl in E; subst s; simpl
         end.
  repeat split.
  intros first_response after [= <- <-] Herr.
  match goal with |- context [error ?r] => destruct (error r) end;
    [reflexivity | congruence].
Qed.
End Failures.

#[local] Existing Instance whole_numbers.
#[local] Existing Instance v8.

(** C8, at the Dashboard.  With the backend unreachable,
    fetchDashboardStats issues its four requests one after the other, each
    after the failure of the one before, shows no notification and ends
    with all statistics at zero. *)
Theorem dashboard_failure_goes_unnoticed :
  let w := snd (fetchDashboardStats unreachable (lit "2024-05-01") dashboard_start) in
  List.length (filter is_request (trace w)) = 4%nat
  /\ forallb batch_failed (trace w) = true
  /\ filter is_error_toast (trace w) = []
  /\ failure_reported (trace w) = false
  /\ state w = mk_DashboardState (mk_DashboardStats (JN := whole_numbers) 0 0 0%Z []) false.
Proof. vm_compute. repeat split. Qed.

(** The same backend under MenuManagement: one request batch, one error
    notification. *)
Example menu_failure_is_reported :
  let start := mk_World tt []
                 (mk_MenuState (JN := whole_numbers) [] [] true false None
                               (mk_FormData [] [] [] [] [] true true [])) in
  let w := snd (fetchMenuData unreachable start) in
  List.length (filter is_request (trace w)) = 1%nat
  /\ filter is_error_toast (trace w)
     = [Toasted (mk_Toast "Error" (lit "Failed to fetch menu data") true)]
  /\ failure_reported (trace w) = true.
Proof. vm_compute. repeat split. Qed.

End PagesFacts.

(** * Further statements about the migration *)

Module SchemaExtras.
Import ListFacts Sql Schema SchemaSpec SchemaMore SchemaFacts.

(** ** Profiles *)

Lemma profiles_read_guard db uid (p : profile) :
  rls_permits profiles_policies SELECT db uid p = own_profile uid p.
Proof.
  unfold rls_permits, profiles_policies, own_profile.
  cbn [existsb policy_cmd policy_using applies command_eqb andb]. now rewrite orb_false_r.
Qed.

Lemma profiles_update_guard db uid (p : profile) :
  rls_permits profiles_policies UPDATE db uid p = own_profile uid p.
Proof.
  unfold rls_permits, profiles_policies, own_profile.
  cbn [existsb policy_cmd policy_using applies command_eqb andb orb]. now rewrite orb_false_r.
Qed.

Lemma put_back_profiles db : with_profiles (profiles db) db = db.
Proof. now destruct db. Qed.

(** X1. Whoever the caller is, admin included: a select on profiles
    returns exactly the caller's own profile rows, the unauthenticated
    caller reads none, and nobody can insert or delete a profile, since no
    policy covers these commands. *)
Theorem profiles_are_private (db : Db) (uid : option uuid) :
  (forall where_,
     sql_select db uid where_ = filter (fun p => own_profile uid p && where_ p) (profiles db))
  /\ (forall where_, sql_select (R := profile) db None where_ = [])
  /\ (forall p : profile, sql_insert db uid p = PolicyViolation)
  /\ (forall where_, sql_delete (R := profile) db uid where_ = commit db).
Proof.
  split; [|split; [|split]].
  - intros where_. unfold sql_select. apply filter_ext. intros p.
    change (rls_permits table_policies SELECT db uid p)
      with (rls_permits profiles_policies SELECT db uid p).
    now rewrite profiles_read_guard.
  - intros where_. apply select_reaches_nothing. intros p.
    change (rls_permits profiles_policies SELECT db None p = false).
    now rewrite profiles_read_guard.
  - intros p. reflexivity.
  - intros where_. rewrite delete_reaches_nothing by (intros; reflexivity).
    simpl. now rewrite put_back_profiles.
Qed.

(** X2. An update of profiles reaches only the caller's own rows: every
    other profile is left as it was, a reached row becomes what the SET
    clause and the updated_at trigger make of it, and an update that
    would move the caller's profile to another id is refused by the
    policy check. *)
Theorem profile_update_is_own (db : Db) (uid : option uuid) (now : timestamptz)
    (where_ : profile -> bool) (set_ : profile -> profile) :
  (forall db', sql_update db uid now where_ set_ = Done db' ->
     Forall2 (fun old new =>
                if own_profile uid old && where_ old
                then new = update_profiles_updated_at now (set_ old)
                     /\ own_profile uid new = true
                else new = old)
             (profiles db) (profiles db'))
  /\ ((exists p, In p (profiles db) /\ own_profile uid p = true /\ where_ p = true
                 /\ p_id (set_ p) <> p_id p) ->
      sql_update db uid now where_ set_ = PolicyViolation).
Proof.
  assert (Hhit : forall p, targeted UPDATE db uid where_ p = own_profile uid p && where_ p).
  { intros p. unfold targeted.
    change (rls_permits table_policies UPDATE db uid p)
      with (rls_permits profiles_policies UPDATE db uid p).
    change (rls_permits table_policies SELECT db uid p)
      with (rls_permits profiles_policies SELECT db uid p).
    rewrite profiles_read_guard, profiles_update_guard.
    now destruct (own_profile uid p). }
  split.
  - intros db'. unfold sql_update, commit.
    destruct (forallb _ (table_rows db)) eqn:Hcheck; [|discriminate].
    destruct (integrity _); [|discriminate]. intros [= <-]. simpl.
    rewrite forallb_forall in Hcheck. simpl in Hcheck.
    induction (profiles db) as [|p l IH]; simpl; constructor.
    + specialize (Hcheck p (or_introl eq_refl)). rewrite Hhit in *.
      destruct (own_profile uid p && where_ p); [|reflexivity].
      split; [reflexivity|]. simpl in Hcheck.
      change (rls_permits profiles_policies UPDATE db uid
                (update_profiles_updated_at now (set_ p)) = true) in Hcheck.
      now rewrite profiles_update_guard in Hcheck.
    + apply IH. intros x Hx. apply Hcheck. now right.
  - intros (p & Hin & Hown & Hw & Hmove). unfold sql_update.
    replace (forallb _ (table_rows db)) with false; [reflexivity|].
    symmetry. apply not_true_iff_false. rewrite forallb_forall. intros Hall.
    specialize (Hall p Hin). rewrite Hhit, Hown, Hw in Hall. simpl in Hall.
    change (rls_permits profiles_policies UPDATE db uid
              (update_profiles_updated_at now (set_ p)) = true) in Hall.
    rewrite profiles_update_guard in Hall.
    unfold own_profile in *. destruct uid as [u|]; [|discriminate]. simpl in *.
    destruct (N.eqb_spec u (p_id p)) as [->|]; [|discriminate].
    destruct (N.eqb_spec (p_id p) (p_id (set_ p))); [congruence | discriminate].
Qed.

Lemma profile_update_is_own_witness :
  let rename := fun p => mk_profile (p_id p) (p_email p) (Some "Chef"%string) (p_avatar_url p)
                                    (p_created_at p) (p_updated_at p) in
  let move := fun p => mk_profile 2 (p_email p) (p_full_name p) (p_avatar_url p)
                                  (p_created_at p) (p_updated_at p) in
  map p_full_name
      (profiles (match sql_update sample_db (Some 1%N) 30 (fun _ => true) rename with
                 | Done db' => db'
                 | _ => sample_db
                 end)) = [Some "Chef"%string; None; None]
  /\ sql_update sample_db (Some 1%N) 30 (fun _ => true) move = PolicyViolation.
Proof.
  intros rename move. split; [reflexivity|].
  apply (proj2 (profile_update_is_own sample_db (Some 1%N) 30 (fun _ => true) move)).
  exists (mk_profile 1 "chef@amandier.example" None None (Some 5%Z) (Some 5%Z)).
  split; [now left|]. split; [reflexivity|]. split; [reflexivity | discriminate].
Defined.

(** ** The catalog *)

(** X3. A caller who holds neither role cannot write the catalog, not
    even the rows the public may read: an insert into menu_categories or
    menu_items is refused, an update or a delete reaches no row. *)
Theorem catalog_writes_need_a_role (db : Db) (uid : option uuid) :
  has_role db uid admin = false -> has_role db uid staff = false ->
  (forall r : menu_category, sql_insert db uid r = PolicyViolation)
  /\ (forall r : menu_item, sql_insert db uid r = PolicyViolation)
  /\ (forall now where_ set_,
        sql_update (R := menu_category) db uid now where_ set_ = commit db)
  /\ (forall now where_ set_,
        sql_update (R := menu_item) db uid now where_ set_ = commit db)
  /\ (forall where_, sql_delete (R := menu_category) db uid where_ = commit db)
  /\ (forall where_, sql_delete (R := menu_item) db uid where_ = commit db).
Proof.
  intros Ha Hs.
  assert (Hno : is_admin_or_staff db uid = false)
    by now rewrite is_admin_or_staff_roles, Ha, Hs.
  assert (Hmc : forall c (r : menu_category),
             c <> SELECT -> rls_permits table_policies c db uid r = false).
  { intros c r Hc. etransitivity; [|exact Hno]. now apply (proj2 (menu_write_guard db uid Hc)). }
  assert (Hmi : forall c (r : menu_item),
             c <> SELECT -> rls_permits table_policies c db uid r = false).
  { intros c r Hc. etransitivity; [|exact Hno]. now apply (proj1 (menu_write_guard db uid Hc)). }
  split; [|split; [|split; [|split; [|split]]]].
  - intros r. unfold sql_insert. now rewrite Hmc.
  - intros r. unfold sql_insert. now rewrite Hmi.
  - intros now where_ set_. rewrite update_reaches_nothing by (intros; now apply Hmc).
    f_equal. destruct db. reflexivity.
  - intros now where_ set_. rewrite update_reaches_nothing by (intros; now apply Hmi).
    f_equal. destruct db. reflexivity.
  - intros where_. rewrite delete_reaches_nothing by (intros; now apply Hmc).
    simpl. now rewrite put_back_menu_categories.
  - intros where_. rewrite delete_reaches_nothing by (intros; now apply Hmi).
    simpl. now rewrite put_back_menu_items.
Qed.

Lemma catalog_writes_need_a_role_witness :
  sql_update (R := menu_item) sample_db (Some 3%N) 30 (fun _ => true) (set_price 1)
  = commit sample_db.
Proof.
  apply (catalog_writes_need_a_role sample_db (Some 3%N)); reflexivity.
Defined.

(** ** Roles *)

(** X4. is_admin_or_staff is the disjunction of the two has_role tests,
    and the unauthenticated caller passes neither: NULL equals no
    user_id, not even the NULL user_id of an unowned row. *)
Theorem role_predicates_agree (db : Db) (uid : option uuid) :
  is_admin_or_staff db uid = has_role db uid admin || has_role db uid staff
  /\ (forall role, has_role db None role = false)
  /\ is_admin_or_staff db None = false.
Proof.
  split; [apply is_admin_or_staff_roles|]. split.
  - intros role. apply anonymous_has_no_role.
  - apply anonymous_not_admin_or_staff.
Qed.

Lemma forallb_snoc_false {A : Type} (P : A -> bool) (l : list A) (x : A) :
  P x = false -> forallb P (l ++ [x]) = false.
Proof. intros Hx. rewrite forallb_app. simpl. rewrite Hx. apply andb_false_r. Qed.

Lemma unique_assignments_clash (l : list user_roles_row) (r : user_roles_row) :
  (exists a, In a l /\ same_assignment a r = true) -> unique_assignments (l ++ [r]) = false.
Proof.
  intros (a & Hin & Hsame). induction l as [|b l IH]; [contradiction|]. simpl.
  destruct Hin as [-> | Hin].
  - rewrite existsb_app. simpl. rewrite Hsame, orb_true_r. reflexivity.
  - rewrite (IH Hin). apply andb_false_r.
Qed.

(** X5. UNIQUE(user_id, role): an admin who inserts a role assignment
    that an identity already holds gets a constraint violation. *)
Theorem duplicate_assignment_is_refused (db : Db) (uid : option uuid) (u : uuid)
    (r : user_roles_row) :
  has_role db uid admin = true ->
  ur_user_id r = Some u ->
  has_role db (Some u) (ur_role r) = true ->
  sql_insert db uid r = ConstraintViolation.
Proof.
  intros Hadmin Hu Hheld.
  assert (Hpass : rls_permits table_policies INSERT db uid r = true).
  { etransitivity; [|exact Hadmin]. now apply user_roles_write_guard. }
  unfold sql_insert, commit. rewrite Hpass.
  replace (integrity _) with false; [reflexivity|]. symmetry.
  unfold integrity, identity_integrity. simpl.
  rewrite unique_assignments_clash; [now rewrite !andb_false_r|].
  apply has_role_spec in Hheld as (a & u' & Hin & [= <-] & Hau & Har).
  exists a. split; [assumption|]. unfold same_assignment.
  rewrite Hau, Hu, Har. simpl. rewrite N.eqb_refl. now destruct (ur_role r).
Qed.

Lemma duplicate_assignment_is_refused_witness :
  sql_insert sample_db (Some 1%N) (mk_user_roles_row 9 (Some 2%N) staff None)
  = ConstraintViolation.
Proof.
  apply (duplicate_assignment_is_refused sample_db (Some 1%N) (u := 2%N)); reflexivity.
Defined.

(** ** Foreign keys on insert *)

(** X6. An order line that names an order or a menu item that does not
    exist cannot be inserted, even by admin or staff. *)
Theorem dangling_order_line_is_refused (db : Db) (uid : option uuid) (r : order_item)
    (k : uuid) :
  has_role db uid admin = true \/ has_role db uid staff = true ->
  (oi_order_id r = Some k /\ ~ In k (map o_id (orders db)))
  \/ (oi_menu_item_id r = Some k /\ ~ In k (map mi_id (menu_items db))) ->
  sql_insert db uid r = ConstraintViolation.
Proof.
  intros Hrole Hdangling.
  assert (Hyes : is_admin_or_staff db uid = true).
  { rewrite is_admin_or_staff_roles. destruct Hrole as [-> | ->]; [reflexivity|].
    apply orb_true_r. }
  unfold sql_insert, commit.
  replace (rls_permits table_policies INSERT db uid r) with true
    by (symmetry; etransitivity; [apply order_items_policy_guard | exact Hyes]).
  replace (integrity _) with false; [reflexivity|]. symmetry.
  unfold integrity, orders_integrity. simpl.
  destruct Hdangling as [[Hk Hnot] | [Hk Hnot]].
  - rewrite (forallb_snoc_false (fun i => references (oi_order_id i) (map o_id (orders db)))).
    + now rewrite !andb_false_r.
    + rewrite Hk. simpl. apply not_true_iff_false. now rewrite mem_uuid_In.
  - rewrite (forallb_snoc_false
               (fun i => references (oi_menu_item_id i) (map mi_id (menu_items db)))).
    + now rewrite !andb_false_r.
    + rewrite Hk. simpl. apply not_true_iff_false. now rewrite mem_uuid_In.
Qed.

Lemma dangling_order_line_is_refused_witness :
  sql_insert sample_db (Some 2%N) (mk_order_item 3 (Some 1%N) (Some 8%N) 1 500 None None)
  = ConstraintViolation.
Proof.
  apply (@dangling_order_line_is_refused sample_db (Some 2%N) _ 8%N).
  - right. reflexivity.
  - right. split; [reflexivity|]. simpl. intuition discriminate.
Defined.

(** ** Creating and deleting identities *)

Lemma has_role_snoc db (l : list user_roles_row) (r : user_roles_row) uid role :
  user_roles db = l ++ [r] ->
  has_role db (Some uid) role =
  existsb (fun a => is_true (sql_and (sql_eq N.eqb (ur_user_id a) (Some uid))
                                     (sql_eq user_role_eqb (Some (ur_role a)) (Some role)))) l
  || (is_true (sql_eq N.eqb (ur_user_id r) (Some uid)) && user_role_eqb (ur_role r) role).
Proof.
  intros E. unfold has_role. rewrite E, existsb_app. simpl.
  rewrite orb_false_r, is_true_sql_and. f_equal. f_equal.
  now destruct (user_role_eqb (ur_role r) role).
Qed.

Lemma unique_assignments_filter (keep : user_roles_row -> bool) (l : list user_roles_row) :
  unique_assignments l = true -> unique_assignments (filter keep l) = true.
Proof.
  induction l as [|r l IH]; simpl; intros Hu; [reflexivity|].
  apply andb_prop in Hu as [Hr Hu]. destruct (keep r); simpl; [|now apply IH].
  rewrite IH by assumption. rewrite andb_true_r.
  apply negb_true_iff in Hr. apply negb_true_iff, not_true_iff_false.
  intros Hex. apply existsb_exists in Hex as (a & Ha & Hsame).
  apply filter_In in Ha as [Ha _].
  assert (existsb (same_assignment r) l = true) by (apply existsb_exists; eauto).
  congruence.
Qed.

Lemma has_role_after_filter db db' (keep : user_roles_row -> bool) uid role :
  user_roles db' = filter keep (user_roles db) ->
  (forall r, In r (user_roles db) -> ur_user_id r = Some uid -> keep r = true) ->
  has_role db' (Some uid) role = has_role db (Some uid) role.
Proof.
  intros E Hkeep. apply eq_iff_eq_true. rewrite !has_role_spec, E. split.
  - intros (r & u & Hin & Hu & Hr & Hrole). apply filter_In in Hin as [Hin _]. eauto 8.
  - intros (r & u & Hin & [= <-] & Hr & Hrole). exists r, uid.
    repeat split; auto. apply filter_In. split; [assumption|]. now apply Hkeep.
Qed.

(** X9. Deleting an identity from a state that satisfies the constraints
    removes its profile and all its role assignments with it, so that it
    holds no role afterwards; every other identity keeps its profile and
    its roles, the catalog and the orders are untouched, and the
    constraints still hold. *)
Theorem delete_identity_outcome (id : uuid) (db : Db) :
  integrity db = true ->
  let db' := delete_identity id db in
  auth_users db' = filter (fun u => negb (N.eqb (au_id u) id)) (auth_users db)
  /\ profiles db' = filter (fun p => negb (N.eqb (p_id p) id)) (profiles db)
  /\ user_roles db' =
     filter (fun r => negb (is_true (sql_eq N.eqb (ur_user_id r) (Some id)))) (user_roles db)
  /\ (forall role, has_role db' (Some id) role = false)
  /\ (forall uid role, uid <> id -> has_role db' (Some uid) role = has_role db (Some uid) role)
  /\ menu_categories db' = menu_categories db
  /\ menu_items db' = menu_items db
  /\ orders db' = orders db
  /\ order_items db' = order_items db
  /\ integrity db' = true.
Proof.
  intros Hint db'.
  set (hit := fun u => N.eqb (au_id u) id).
  assert (Hparts := Hint). unfold integrity in Hparts.
  apply andb_prop in Hparts as [Hparts Hord]. apply andb_prop in Hparts as [Hid Hcat].
  unfold identity_integrity in Hid. repeat (apply andb_prop in Hid as [Hid ?]).
  assert (Hpfk : forall p, In p (profiles db) ->
                           mem_uuid (p_id p) (map au_id (auth_users db)) = true)
    by now apply forallb_forall.
  assert (Hrfk : forall r, In r (user_roles db) ->
                           references (ur_user_id r) (map au_id (auth_users db)) = true)
    by now apply forallb_forall.
  assert (Hprofiles : profiles db' = filter (fun p => negb (N.eqb (p_id p) id)) (profiles db)).
  { unfold db', delete_identity, cascade_auth_users. simpl.
    apply filter_ext_in. intros p Hp. f_equal.
    rewrite (mem_uuid_key_of_filter au_id (p_id p) id (auth_users db)).
    destruct (N.eqb_spec (p_id p) id) as [E|_]; [|reflexivity].
    simpl. rewrite <- E. now apply Hpfk. }
  assert (Hroles : user_roles db' =
                   filter (fun r => negb (is_true (sql_eq N.eqb (ur_user_id r) (Some id))))
                          (user_roles db)).
  { unfold db', delete_identity, cascade_auth_users. simpl.
    apply filter_ext_in. intros r Hr. f_equal.
    specialize (Hrfk r Hr). destruct (ur_user_id r) as [k|]; [|reflexivity]. simpl in *.
    rewrite (mem_uuid_key_of_filter au_id k id (auth_users db)).
    destruct (N.eqb_spec k id) as [E|_]; [|reflexivity].
    simpl. now rewrite <- E. }
  split; [reflexivity|]. split; [exact Hprofiles|]. split; [exact Hroles|].
  split.
  { intros role. apply not_true_iff_false. intros Hrole.
    apply has_role_spec in Hrole as (r & u & Hin & [= <-] & Hu & _).
    rewrite Hroles in Hin. apply filter_In in Hin as [_ Hkeep].
    rewrite Hu in Hkeep. simpl in Hkeep. now rewrite N.eqb_refl in Hkeep. }
  split.
  { intros uid role Hne. apply (@has_role_after_filter db db' _ uid role Hroles).
    intros r _ Hu. rewrite Hu. simpl.
    destruct (N.eqb_spec uid id); [contradiction | reflexivity]. }
  do 4 (split; [reflexivity|]).
  unfold integrity.
  change (catalog_integrity db') with (catalog_integrity db).
  change (orders_integrity db') with (orders_integrity db).
  rewrite Hcat, Hord, !andb_true_r.
  unfold identity_integrity. rewrite Hprofiles, Hroles.
  change (auth_users db') with (filter (fun u => negb (hit u)) (auth_users db)).
  repeat (apply andb_true_intro; split).
  - now apply distinct_filter.
  - now apply distinct_filter.
  - apply forallb_forall. intros p Hp. apply filter_In in Hp as [Hp Hlive].
    apply (references_survive au_id hit (auth_users db) (Some (p_id p))).
    + simpl. now apply Hpfk.
    + simpl. unfold hit. rewrite (mem_uuid_key_of_filter au_id (p_id p) id (auth_users db)).
      apply negb_true_iff in Hlive. now rewrite Hlive.
  - now apply distinct_filter.
  - apply forallb_forall. intros r Hr. apply filter_In in Hr as [Hr Hlive].
    apply (references_survive au_id hit (auth_users db) (ur_user_id r)).
    + now apply Hrfk.
    + destruct (ur_user_id r) as [k|]; [|reflexivity]. simpl in *. unfold hit.
      rewrite (mem_uuid_key_of_filter au_id k id (auth_users db)).
      destruct (N.eqb k id); [discriminate | reflexivity].
  - now apply unique_assignments_filter.
Qed.

Lemma delete_identity_outcome_witness :
  has_role (delete_identity 2 sample_db) (Some 2%N) staff = false
  /\ integrity (delete_identity 2 sample_db) = true.
Proof.
  pose proof (delete_identity_outcome 2 sample_db eq_refl) as H. simpl in H.
  destruct H as (_ & _ & _ & Hgone & _ & _ & _ & _ & _ & Hint).
  split; [apply Hgone | exact Hint].
Defined.

(** ** Deleting menu items *)

Lemma delete_menu_items_integrity db (hit : menu_item -> bool) :
  integrity db = true -> integrity (raw_delete hit db) = true.
Proof.
  unfold integrity. intros Hint.
  apply andb_prop in Hint as [Hint Hord]. apply andb_prop in Hint as [Hid Hcat].
  change (identity_integrity (raw_delete hit db)) with (identity_integrity db).
  rewrite Hid. simpl.
  unfold catalog_integrity in Hcat. unfold orders_integrity in Hord.
  repeat (apply andb_prop in Hcat as [Hcat ?]).
  repeat (apply andb_prop in Hord as [Hord ?]).
  apply andb_true_intro; split.
  - unfold catalog_integrity, raw_delete. simpl.
    repeat (apply andb_true_intro; split).
    + assumption.
    + now apply distinct_filter.
    + now apply forallb_filter_keep.
  - unfold orders_integrity, raw_delete. simpl.
    repeat (apply andb_true_intro; split).
    + assumption.
    + now apply distinct_filter.
    + now apply forallb_filter_keep.
    + apply forallb_forall. intros oi Hoi. apply filter_In in Hoi as [Hoi Hlive].
      apply references_survive.
      * match goal with
        | Hf : forallb (fun i => references (oi_menu_item_id i) _) _ = true |- _ =>
            rewrite forallb_forall in Hf; now apply Hf
        end.
      * now apply negb_true_iff in Hlive.
Qed.

(** X10. Deleting a row of menu_items removes that row and exactly the
    order_items rows whose menu_item_id references it (what handleDelete
    of MenuManagement sets off); orders, categories, identities, profiles
    and roles stay as they are. *)
Theorem delete_menu_item_cascades (db : Db) (item : menu_item) :
  In item (menu_items db) ->
  let db' := raw_delete (fun r => N.eqb (mi_id r) (mi_id item)) db in
  menu_items db' = filter (fun r => negb (N.eqb (mi_id r) (mi_id item))) (menu_items db)
  /\ order_items db' =
     filter (fun oi => negb (is_true (sql_eq N.eqb (oi_menu_item_id oi) (Some (mi_id item)))))
            (order_items db)
  /\ orders db' = orders db
  /\ menu_categories db' = menu_categories db
  /\ auth_users db' = auth_users db
  /\ profiles db' = profiles db
  /\ user_roles db' = user_roles db.
Proof.
  intros Hitem db'.
  assert (Hc : In (mi_id item) (map mi_id (menu_items db))) by now apply in_map.
  subst db'. unfold raw_delete. simpl. unfold cascade_menu_items. simpl.
  split; [reflexivity|]. split; [|repeat split].
  apply filter_ext. intros oi. f_equal. now apply refers_deleted_key.
Qed.

Lemma delete_menu_item_cascades_witness :
  let item := mk_menu_item 2 (Some 1%N) "Clafoutis" None 700 None (Some 2%Z)
                           (Some true) (Some false) None (Some 1%Z) (Some 1%Z) in
  map oi_id (order_items (raw_delete (fun r => N.eqb (mi_id r) (mi_id item)) sample_db))
  = [1%N].
Proof.
  intros item.
  assert (Hitem : In item (menu_items sample_db)) by (right; now left).
  destruct (delete_menu_item_cascades sample_db item Hitem) as (_ & Hoi & _).
  rewrite Hoi. reflexivity.
Defined.

(** X11. Cascading deletes keep the constraints: whatever rows of
    menu_categories, menu_items or orders a delete removes, no dangling
    reference and no duplicate key is left; so for admin and staff such a
    delete always commits, with the state the cascade leaves. *)
Theorem cascading_deletes_commit (db : Db) (uid : option uuid) :
  integrity db = true ->
  (forall hit : menu_category -> bool, integrity (raw_delete hit db) = true)
  /\ (forall hit : menu_item -> bool, integrity (raw_delete hit db) = true)
  /\ (forall hit : order -> bool, integrity (raw_delete hit db) = true)
  /\ (has_role db uid admin = true \/ has_role db uid staff = true ->
      (forall where_ : menu_category -> bool,
         sql_delete db uid where_ = Done (raw_delete where_ db))
      /\ (forall where_ : menu_item -> bool,
         sql_delete db uid where_ = Done (raw_delete where_ db))
      /\ (forall where_ : order -> bool,
         sql_delete db uid where_ = Done (raw_delete where_ db))).
Proof.
  intros Hint.
  split; [intros hit; now apply delete_menu_categories_integrity|].
  split; [intros hit; now apply delete_menu_items_integrity|].
  split; [intros hit; now apply delete_orders_integrity|].
  intros Hrole.
  assert (Hyes : is_admin_or_staff db uid = true).
  { rewrite is_admin_or_staff_roles. destruct Hrole as [-> | ->]; [reflexivity|].
    apply orb_true_r. }
  assert (Hmc : forall c (r : menu_category), rls_permits table_policies c db uid r = true).
  { intros c r. unfold rls_permits. simpl. now rewrite Hyes. }
  assert (Hmi : forall c (r : menu_item), rls_permits table_policies c db uid r = true).
  { intros c r. unfold rls_permits. simpl. now rewrite Hyes. }
  assert (Ho : forall c (r : order), rls_permits table_policies c db uid r = true)
    by (intros c r; etransitivity; [apply orders_policy_guard | assumption]).
  split; [|split]; intros where_.
  - rewrite (delete_by_manager db uid Hmc where_).
    apply commit_integrity. now apply delete_menu_categories_integrity.
  - rewrite (delete_by_manager db uid Hmi where_).
    apply commit_integrity. now apply delete_menu_items_integrity.
  - rewrite (delete_by_manager db uid Ho where_).
    apply commit_integrity. now apply delete_orders_integrity.
Qed.

Lemma cascading_deletes_commit_witness :
  sql_delete sample_db (Some 2%N) (fun r : menu_item => N.eqb (mi_id r) 1)
  = Done (raw_delete (fun r : menu_item => N.eqb (mi_id r) 1) sample_db).
Proof.
  apply (cascading_deletes_commit sample_db (Some 2%N) eq_refl).
  right. reflexivity.
Defined.

(** ** Order status *)

Lemma update_keeps_keys {A : Type} (key : A -> uuid) (hit : A -> bool) (f : A -> A)
    (l : list A) :
  (forall r, key (f r) = key r) ->
  map key (map (fun r => if hit r then f r else r) l) = map key l.
Proof.
  intros Hkey. rewrite map_map. apply map_ext. intros r. destruct (hit r); auto.
Qed.

(** X12. The schema enforces no order state machine: from a state that
    satisfies the constraints, admin or staff can move any order from
    whatever status it has to any status, and the update commits,
    changing in orders only the rows with that id (status and
    updated_at) and nothing in the other tables. *)
Theorem any_status_transition (db : Db) (uid : option uuid) (now : timestamptz)
    (o : order) (s : order_status) :
  integrity db = true ->
  has_role db uid admin = true \/ has_role db uid staff = true ->
  In o (orders db) ->
  exists db',
    sql_update db uid now (fun r => N.eqb (o_id r) (o_id o)) (set_status s) = Done db'
    /\ orders db' =
       map (fun r => if N.eqb (o_id r) (o_id o)
                     then update_orders_updated_at now (set_status s r) else r) (orders db)
    /\ In (update_orders_updated_at now (set_status s o)) (orders db')
    /\ order_items db' = order_items db
    /\ menu_items db' = menu_items db
    /\ user_roles db' = user_roles db.
Proof.
  intros Hint Hrole Ho.
  assert (Hyes : is_admin_or_staff db uid = true).
  { rewrite is_admin_or_staff_roles. destruct Hrole as [-> | ->]; [reflexivity|].
    apply orb_true_r. }
  assert (Hall : forall c (r : order), rls_permits table_policies c db uid r = true)
    by (intros c r; etransitivity; [apply orders_policy_guard | assumption]).
  rewrite (update_by_manager db uid Hall now (fun r => N.eqb (o_id r) (o_id o)) (set_status s)).
  eexists. split.
  - apply commit_integrity. unfold integrity in *.
    apply andb_prop in Hint as [Hint Hord]. apply andb_prop in Hint as [Hid Hcat].
    simpl.
    change (identity_integrity (with_orders _ db)) with (identity_integrity db).
    change (catalog_integrity (with_orders _ db)) with (catalog_integrity db).
    rewrite Hid, Hcat. simpl.
    unfold orders_integrity in *. simpl.
    rewrite (update_keeps_keys o_id) by reflexivity. exact Hord.
  - simpl. split; [reflexivity|]. split; [|repeat split].
    apply in_map_iff. exists o. split; [|assumption]. now rewrite N.eqb_refl.
Qed.

Lemma any_status_transition_witness :
  exists db',
    sql_update sample_db (Some 2%N) 50 (fun r => N.eqb (o_id r) 1) (set_status delivered)
    = Done db'
    /\ map o_status (orders db') = [Some delivered].
Proof.
  destruct (any_status_transition sample_db (Some 2%N) 50
              (mk_order 1 (Some "Lina"%string) None None None 1550 (Some received)
                        (Some "dine_in"%string) (Some 4%Z) None (Some 8%Z) (Some 8%Z))
              delivered eq_refl (or_intror eq_refl) (or_introl eq_refl))
    as (db' & Hrun & Horders & _).
  exists db'. split; [exact Hrun|]. rewrite Horders. reflexivity.
Defined.

(** ** What a sign-up is allowed to do *)

Lemma user_roles_all_for_admin db uid :
  has_role db uid admin = true ->
  forall c (r : user_roles_row), rls_permits table_policies c db uid r = true.
Proof.
  intros Hadmin c r. destruct c.
  - change (rls_permits user_roles_policies SELECT db uid r = true).
    now rewrite user_roles_read_guard, Hadmin.
  - etransitivity; [now apply user_roles_write_guard | exact Hadmin].
  - etransitivity; [now apply user_roles_write_guard | exact Hadmin].
  - etransitivity; [now apply user_roles_write_guard | exact Hadmin].
Qed.

(** X22. An admin can revoke: deleting the role assignments of an
    identity (its own included) commits, after which that identity holds
    no role, reads no order and writes nothing in orders, while every
    other identity holds the roles it held. *)
Theorem revoking_roles (db : Db) (uid : option uuid) (u : uuid) :
  integrity db = true ->
  has_role db uid admin = true ->
  exists db',
    sql_delete db uid (assigned_to u) = Done db'
    /\ user_roles db' = filter (fun r => negb (assigned_to u r)) (user_roles db)
    /\ (forall role, has_role db' (Some u) role = false)
    /\ (forall v role, v <> u -> has_role db' (Some v) role = has_role db (Some v) role)
    /\ (forall where_, sql_select (R := order) db' (Some u) where_ = [])
    /\ (forall r : order, sql_insert db' (Some u) r = PolicyViolation).
Proof.
  intros Hint Hadmin.
  rewrite (delete_by_manager db uid (user_roles_all_for_admin db uid Hadmin) (assigned_to u)).
  set (db' := raw_delete (assigned_to u) db).
  assert (Hroles : user_roles db' = filter (fun r => negb (assigned_to u r)) (user_roles db))
    by reflexivity.
  assert (Hgone : forall role, has_role db' (Some u) role = false).
  { intros role. apply not_true_iff_false. intros Hrole.
    apply has_role_spec in Hrole as (r & u' & Hin & [= <-] & Hu & _).
    rewrite Hroles in Hin. apply filter_In in Hin as [_ Hkeep].
    unfold assigned_to in Hkeep. rewrite Hu in Hkeep. simpl in Hkeep.
    now rewrite N.eqb_refl in Hkeep. }
  assert (Hno : is_admin_or_staff db' (Some u) = false)
    by now rewrite is_admin_or_staff_roles, !Hgone.
  exists db'. split.
  { apply commit_integrity. unfold integrity in *.
    apply andb_prop in Hint as [Hint Hord]. apply andb_prop in Hint as [Hid Hcat].
    change (catalog_integrity db') with (catalog_integrity db).
    change (orders_integrity db') with (orders_integrity db).
    rewrite Hcat, Hord, !andb_true_r.
    unfold identity_integrity in *. repeat (apply andb_prop in Hid as [Hid ?]).
    change (auth_users db') with (auth_users db).
    change (profiles db') with (profiles db). rewrite Hroles.
    repeat (apply andb_true_intro; split); try assumption.
    - now apply distinct_filter.
    - now apply forallb_filter_keep.
    - now apply unique_assignments_filter. }
  split; [exact Hroles|]. split; [exact Hgone|]. split.
  { intros v role Hne. apply (@has_role_after_filter db db' _ v role Hroles).
    intros r _ Hv. unfold assigned_to. rewrite Hv. simpl.
    destruct (N.eqb_spec v u); [contradiction | reflexivity]. }
  split.
  - intros where_. apply select_reaches_nothing. intros r.
    etransitivity; [apply orders_policy_guard | exact Hno].
  - intros r. unfold sql_insert.
    replace (rls_permits table_policies INSERT db' (Some u) r) with false; [reflexivity|].
    symmetry. etransitivity; [apply orders_policy_guard | exact Hno].
Qed.

Lemma revoking_roles_witness :
  exists db',
    sql_delete sample_db (Some 1%N) (assigned_to 2) = Done db'
    /\ sql_select (R := order) db' (Some 2%N) (fun _ => true) = [].
Proof.
  destruct (revoking_roles sample_db (Some 1%N) 2 eq_refl eq_refl)
    as (db' & Hrun & _ & _ & _ & Hread & _).
  exists db'. split; [exact Hrun | apply Hread].
Defined.

(** X23. An admin can grant: inserting, under an unused row id, a role
    that an existing identity does not hold yet commits, and the identity
    holds the role afterwards; everything held before is still held. *)
Theorem granting_a_role (db : Db) (uid : option uuid) (r : user_roles_row) (u : uuid) :
  integrity db = true ->
  has_role db uid admin = true ->
  ur_user_id r = Some u ->
  In u (ids_of db) ->
  ~ In (ur_id r) (map ur_id (user_roles db)) ->
  has_role db (Some u) (ur_role r) = false ->
  exists db',
    sql_insert db uid r = Done db'
    /\ has_role db' (Some u) (ur_role r) = true
    /\ (forall v role, has_role db (Some v) role = true -> has_role db' (Some v) role = true).
Proof.
  intros Hint Hadmin Hu Hexists Hrow Hnew.
  rewrite (insert_by_manager db uid (user_roles_all_for_admin db uid Hadmin) r).
  set (db' := table_put (table_rows db ++ [r]) db).
  assert (Hrows : user_roles db' = user_roles db ++ [r]) by reflexivity.
  exists db'. split.
  { apply commit_integrity. unfold integrity in *.
    apply andb_prop in Hint as [Hint Hord]. apply andb_prop in Hint as [Hid Hcat].
    change (catalog_integrity db') with (catalog_integrity db).
    change (orders_integrity db') with (orders_integrity db).
    rewrite Hcat, Hord, !andb_true_r.
    unfold identity_integrity in *. repeat (apply andb_prop in Hid as [Hid ?]).
    change (auth_users db') with (auth_users db).
    change (profiles db') with (profiles db). rewrite Hrows.
    repeat (apply andb_true_intro; split); try assumption.
    - rewrite map_app. simpl. rewrite distinct_snoc.
      apply andb_true_intro. split; [assumption|].
      apply negb_true_iff, not_true_iff_false. now rewrite mem_uuid_In.
    - rewrite forallb_app. simpl. rewrite Hu. simpl.
      apply andb_true_intro. split; [assumption|].
      rewrite andb_true_r. now apply mem_uuid_In.
    - apply unique_assignments_snoc; [assumption|].
      intros a Ha. apply not_true_iff_false. intros Hsame.
      unfold same_assignment in Hsame. apply andb_prop in Hsame as [Hsu Hsr].
      rewrite Hu in Hsu. destruct (ur_user_id a) as [k|] eqn:Ek; [|discriminate].
      simpl in Hsu. destruct (N.eqb_spec k u) as [->|]; [|discriminate].
      apply user_role_eqb_eq in Hsr.
      assert (has_role db (Some u) (ur_role r) = true); [|congruence].
      apply has_role_spec. exists a, u. repeat split; auto. }
  split.
  - rewrite (@has_role_snoc db' _ _ u (ur_role r) Hrows). rewrite Hu. simpl.
    rewrite N.eqb_refl. simpl.
    replace (user_role_eqb (ur_role r) (ur_role r)) with true
      by (symmetry; now apply user_role_eqb_eq).
    apply orb_true_r.
  - intros v role Hheld. rewrite (@has_role_snoc db' _ _ v role Hrows).
    fold (has_role db (Some v) role). now rewrite Hheld.
Qed.

Lemma granting_a_role_witness :
  exists db',
    sql_insert sample_db (Some 1%N) (mk_user_roles_row 9 (Some 3%N) staff None) = Done db'
    /\ has_role db' (Some 3%N) staff = true.
Proof.
  destruct (@granting_a_role sample_db (Some 1%N)
              (mk_user_roles_row 9 (Some 3%N) staff None) 3 eq_refl eq_refl eq_refl)
    as (db' & Hrun & Hheld & _).
  - simpl. tauto.
  - simpl. intuition discriminate.
  - reflexivity.
  - now exists db'.
Defined.

(** ** Taking an item off the public menu *)

(** X24. What toggleAvailability asks of the database.  When admin or
    staff set is_available of a menu item to false, the update commits;
    afterwards no caller without a role reads a row with that id, admin
    and staff still read it, and the order lines that reference the item
    are untouched. *)
Theorem taking_an_item_off_the_menu (db : Db) (uid : option uuid) (now : timestamptz)
    (item : menu_item) :
  integrity db = true ->
  has_role db uid admin = true \/ has_role db uid staff = true ->
  In item (menu_items db) ->
  exists db',
    sql_update db uid now (fun r => N.eqb (mi_id r) (mi_id item)) (set_available false)
    = Done db'
    /\ (forall caller where_ r,
          has_role db' caller admin = false -> has_role db' caller staff = false ->
          In r (sql_select db' caller where_) -> mi_id r <> mi_id item)
    /\ (exists r, In r (sql_select db' uid (fun _ => true)) /\ mi_id r = mi_id item
                  /\ mi_is_available r = Some false /\ mi_price r = mi_price item)
    /\ order_items db' = order_items db.
Proof.
  intros Hint Hrole Hitem.
  assert (Hyes : is_admin_or_staff db uid = true).
  { rewrite is_admin_or_staff_roles. destruct Hrole as [-> | ->]; [reflexivity|].
    apply orb_true_r. }
  assert (Hall : forall c (r : menu_item), rls_permits table_policies c db uid r = true).
  { intros c r. unfold rls_permits. simpl. now rewrite Hyes. }
  rewrite (update_by_manager db uid Hall now (fun r => N.eqb (mi_id r) (mi_id item))
             (set_available false)).
  set (rows := map (fun r => if N.eqb (mi_id r) (mi_id item)
                             then before_update_row now (set_available false r) else r)
                   (menu_items db)).
  set (db' := table_put rows db).
  assert (Hkeys : map mi_id rows = map mi_id (menu_items db)).
  { unfold rows. now apply update_keeps_keys. }
  exists db'. split.
  { apply commit_integrity. unfold integrity in *.
    apply andb_prop in Hint as [Hint Hord]. apply andb_prop in Hint as [Hid Hcat].
    change (identity_integrity db') with (identity_integrity db). rewrite Hid. simpl.
    unfold catalog_integrity, orders_integrity in *. simpl. fold rows.
    rewrite Hkeys. repeat (apply andb_prop in Hcat as [Hcat ?]).
    rewrite Hord, andb_true_r. repeat (apply andb_true_intro; split); try assumption.
    apply forallb_forall. intros r Hr. unfold rows in Hr.
    apply in_map_iff in Hr as (r0 & <- & Hr0).
    match goal with
    | Hf : forallb _ (menu_items db) = true |- _ =>
        rewrite forallb_forall in Hf; specialize (Hf r0 Hr0)
    end.
    now destruct (N.eqb (mi_id r0) (mi_id item)). }
  split.
  { intros caller where_ r Ha Hs Hin Hid.
    assert (Hno : is_admin_or_staff db' caller = false)
      by now rewrite is_admin_or_staff_roles, Ha, Hs.
    unfold sql_select in Hin. apply filter_In in Hin as [Hin Hvis]. simpl in Hin.
    unfold rows in Hin. apply in_map_iff in Hin as (r0 & Hr0 & _).
    assert (Havail : mi_is_available r = Some false).
    { destruct (N.eqb_spec (mi_id r0) (mi_id item)) as [E|Hne].
      - now subst r.
      - subst r. congruence. }
    apply andb_prop in Hvis as [Hvis _]. unfold rls_permits in Hvis. simpl in Hvis.
    rewrite Hno, Havail in Hvis. simpl in Hvis.
    now destruct (mi_is_active r) as [[|]|]. }
  split; [|reflexivity].
  exists (before_update_row now (set_available false item)).
  split; [|repeat split].
  assert (Hyes' : is_admin_or_staff db' uid = true) by exact Hyes.
  unfold sql_select. apply filter_In. split.
  - simpl. unfold rows. apply in_map_iff. exists item. split; [|assumption].
    now rewrite N.eqb_refl.
  - unfold rls_permits. simpl. now rewrite Hyes'.
Qed.

Lemma taking_an_item_off_the_menu_witness :
  exists db',
    sql_update sample_db (Some 2%N) 60 (fun r => N.eqb (mi_id r) 1) (set_available false)
    = Done db'
    /\ map mi_id (sql_select (R := menu_item) db' None (fun _ => true)) = [].
Proof.
  destruct (taking_an_item_off_the_menu sample_db (Some 2%N) 60
              (mk_menu_item 1 (Some 1%N) "Tarte amandine" None 850 None (Some 1%Z)
                            (Some true) (Some true) None (Some 1%Z) (Some 1%Z))
              eq_refl (or_intror eq_refl) (or_introl eq_refl))
    as (db' & Hrun & _).
  exists db'. split; [exact Hrun|].
  assert (Hdb : Done db' = sql_update sample_db (Some 2%N) 60 (fun r => N.eqb (mi_id r) 1)
                                      (set_available false)) by (symmetry; exact Hrun).
  vm_compute in Hdb. injection Hdb as ->. reflexivity.
Defined.

End SchemaExtras.

(** * Further statements about the pages *)

Module PagesExtras.
Import ListFacts Js Pages PagesSpec PagesMore PagesFacts.

(** ** Editing an item and saving it *)

Lemma trim_after_space s : stripped s -> trim (32%N :: s) = s.
Proof.
  intros [Hhd Hlast]. unfold trim. simpl.
  rewrite trimStart_stripped by assumption. now apply trimEnd_stripped.
Qed.

Lemma split_piece sep p rest :
  ~ In sep p -> split sep (p ++ sep :: rest) = p :: split sep rest.
Proof.
  induction p as [|c p IH]; simpl; intros Hno.
  - now rewrite N.eqb_refl.
  - destruct (N.eqb_spec c sep) as [->|_]; [tauto|].
    rewrite IH by tauto. reflexivity.
Qed.

Lemma split_whole sep p : ~ In sep p -> split sep p = [p].
Proof.
  induction p as [|c p IH]; simpl; intros Hno; [reflexivity|].
  destruct (N.eqb_spec c sep) as [->|_]; [tauto|].
  rewrite IH by tauto. reflexivity.
Qed.

Lemma join_push sep c p rest : c :: join sep (p :: rest) = join sep ((c :: p) :: rest).
Proof. now destruct rest. Qed.

(** Splitting what join(', ') made gives the pieces back, each but the
    first behind a space. *)
Lemma split_join_comma_space p rest :
  Forall (fun a => ~ In comma a) (p :: rest) ->
  split comma (join (lit ", ") (p :: rest)) = p :: map (cons 32%N) rest.
Proof.
  revert p. induction rest as [|q rest IH]; intros p Hno.
  - simpl. apply split_whole. now apply Forall_inv in Hno.
  - apply Forall_cons_iff in Hno as [Hp Hrest].
    change (join (lit ", ") (p :: q :: rest))
      with (p ++ comma :: 32%N :: join (lit ", ") (q :: rest)).
    rewrite split_piece by assumption. rewrite join_push. rewrite IH.
    + reflexivity.
    + apply Forall_cons_iff in Hrest as [Hq Hrest]. constructor; [|assumption].
      simpl. intros [E | Hin]; [discriminate E | contradiction].
Qed.

Lemma allergens_round_trip l :
  Forall clean l -> join (lit ", ") l <> [] ->
  (if truthy (join (lit ", ") l)
   then Some (map trim (split comma (join (lit ", ") l)))
   else None) = Some l.
Proof.
  intros Hclean Hjoin.
  destruct (join (lit ", ") l) as [|c0 j] eqn:Ej; [contradiction|].
  cbn [truthy]. rewrite <- Ej. destruct l as [|p rest]; [discriminate Ej|].
  clear Ej Hjoin c0 j. rewrite split_join_comma_space.
  - simpl. apply Forall_cons_iff in Hclean as [[Hp _] Hrest].
    rewrite (trim_stripped Hp). do 2 f_equal.
    rewrite map_map. apply map_unchanged. intros a Ha.
    rewrite Forall_forall in Hrest. apply trim_after_space. now apply Hrest.
  - eapply Forall_impl; [|exact Hclean]. now intros a [_ Ha].
Qed.

Section Edit.
Context {JN : JsNumber} {B : Type}.
Variable number_toString : number -> jsstring.

(** X13. Opening an item for editing and saving it untouched sends the
    item back as it is, up to nulls: handleEdit issues no request, and the
    object handleSubmit would build from the form it fills carries the
    item's name and flags, its description (the empty string when the
    item has none), its image_url and category_id (null when the item had
    none or an empty one) and, when the item's allergens are clean
    (nothing to trim, no comma) and not all empty, the very same list of
    allergens; an item with no or an empty list of allergens is saved
    with allergens null. *)
Theorem edit_then_save_round_trip (item : MenuItem) (w : World B MenuState) :
  let w' := snd (handleEdit number_toString item w) in
  let d := itemData (formData (state w')) in
  (editingItem (state w') = Some item /\ dialogOpen (state w') = true
   /\ trace w' = trace w /\ backend w' = backend w)
  /\ (d_name d = it_name item
      /\ d_is_active d = it_is_active item /\ d_is_available d = it_is_available item)
  /\ (forall s, it_description item = Some s -> d_description d = s)
  /\ (it_description item = None -> d_description d = [])
  /\ (forall u, it_image_url item = Some u -> u <> [] -> d_image_url d = Some u)
  /\ (it_image_url item = None \/ it_image_url item = Some [] -> d_image_url d = None)
  /\ (forall c, it_category_id item = Some c -> c <> [] -> d_category_id d = Some c)
  /\ (it_category_id item = None \/ it_category_id item = Some [] -> d_category_id d = None)
  /\ (forall l, it_allergens item = Some l -> Forall clean l -> join (lit ", ") l <> [] ->
        d_allergens d = Some l)
  /\ (it_allergens item = None \/ it_allergens item = Some [] -> d_allergens d = None).
Proof.
  intros w' d. destruct w as [b tr s]. subst d w'.
  unfold handleEdit. unfold_run. unfold itemData, or_null, or_empty. simpl.
  split; [repeat split|]. split; [repeat split|].
  split; [|split; [|split; [|split; [|split; [|split; [|split]]]]]].
  - intros t ->. now destruct t.
  - now intros ->.
  - intros u -> Hu. destruct u; [contradiction | reflexivity].
  - now intros [-> | ->].
  - intros c -> Hc. destruct c; [contradiction | reflexivity].
  - now intros [-> | ->].
  - intros l -> Hclean Hjoin. cbn [option_map].
    replace (if truthy (join (lit ", ") l) then join (lit ", ") l else [])
      with (join (lit ", ") l) by (now destruct (join (lit ", ") l)).
    now apply allergens_round_trip.
  - now intros [-> | ->].
Qed.
End Edit.

(** ** What the handlers leave in the page state *)

Section Outcomes.
Context {JN : JsNumber} (B : Type) (serve : Query -> B -> Settled * B).

(** X14. fetchMenuData always ends with loading false and never touches
    the dialog, the item being edited or the form.  It issues its two
    queries together.  When both resolve without error, the lists become
    the data of the responses (empty when the data is null) and no toast
    is shown; when either fails, both lists stay as they were and the one
    toast is the error. *)
Theorem fetchMenuData_outcome (w : World B MenuState) :
  let w' := snd (fetchMenuData serve w) in
  loading (state w') = false
  /\ dialogOpen (state w') = dialogOpen (state w)
  /\ editingItem (state w') = editingItem (state w)
  /\ formData (state w') = formData (state w)
  /\ exists s1 s2,
       (trace w' =
        trace w ++ [Requested [q_select "menu_items" "*, menu_categories(name)" false []
                                        (Some "display_order"%string);
                               q_select "menu_categories" "*" false []
                                        (Some "display_order"%string)] [s1; s2]]
        /\ (exists r1 r2, s1 = Resolved r1 /\ s2 = Resolved r2
                          /\ error r1 = None /\ error r2 = None
                          /\ menuItems (state w') = menu_items_or_empty r1
                          /\ categories (state w') = categories_or_empty r2))
       \/ (trace w' =
           trace w ++ [Requested [q_select "menu_items" "*, menu_categories(name)" false []
                                           (Some "display_order"%string);
                                  q_select "menu_categories" "*" false []
                                           (Some "display_order"%string)] [s1; s2];
                       Toasted (mk_Toast "Error" (lit "Failed to fetch menu data") true)]
           /\ (failed s1 = true \/ failed s2 = true)
           /\ menuItems (state w') = menuItems (state w)
           /\ categories (state w') = categories (state w)).
Proof.
  destruct w as [b tr s]. unfold fetchMenuData. unfold_run.
  settle_eq serve; simpl; (do 4 (split; [reflexivity|])); eexists _, _;
    first [ left; split; [reflexivity|]; eexists _, _; repeat split; (reflexivity || assumption)
          | right; rewrite <- app_assoc; simpl; split; [reflexivity|];
            split; [simpl; try match goal with H : error _ = Some _ |- _ => rewrite H end;
                    simpl; auto using orb_true_r |]; split; reflexivity ].
Qed.

(** X15. What handleSubmit leaves in the page.  When its request fails,
    by an error in the response or by a rejected promise, the dialog, the
    item being edited and the form are as they were, so that the user can
    submit again, nothing is fetched, and the one toast carries the
    message of the error.  When it succeeds, the dialog is closed, no
    item is being edited, the form is reset, a success toast is shown and
    the menu is fetched again. *)
Theorem handleSubmit_outcome (w : World B MenuState) (s : Settled) (b : B) :
  serve (submitted (state w)) (backend w) = (s, b) ->
  let w' := snd (handleSubmit serve w) in
  (forall e, (s = Rejected e \/ exists r, s = Resolved r /\ error r = Some e) ->
     state w' = state w
     /\ backend w' = b
     /\ trace w' = trace w ++ [Requested [submitted (state w)] [s];
                               Toasted (mk_Toast "Error" (message e) true)])
  /\ (forall r, s = Resolved r -> error r = None ->
        dialogOpen (state w') = false
        /\ editingItem (state w') = None
        /\ formData (state w') = empty_form
        /\ loading (state w') = false
        /\ exists s1 s2,
             trace w' =
             trace w ++
             [Requested [submitted (state w)] [s];
              Toasted (mk_Toast "Success"
                         (lit (match editingItem (state w) with
                               | Some _ => "Menu item updated successfully"
                               | None => "Menu item added successfully"
                               end)) false);
              Requested [q_select "menu_items" "*, menu_categories(name)" false []
                                  (Some "display_order"%string);
                         q_select "menu_categories" "*" false []
                                  (Some "display_order"%string)] [s1; s2]]
             ++ (if failed s1 || failed s2
                 then [Toasted (mk_Toast "Error" (lit "Failed to fetch menu data") true)]
                 else [])).
Proof.
  destruct w as [b0 tr st]. simpl. intros Hserve.
  unfold submitted in *. unfold handleSubmit, fetchMenuData. unfold_run.
  split.
  - intros e Hfail. destruct (editingItem st); simpl in *; rewrite Hserve; simpl;
      (destruct Hfail as [-> | (r & -> & Herr)]; simpl; [|rewrite Herr; simpl]);
      rewrite <- app_assoc; repeat split.
  - intros r -> Herr. destruct (editingItem st); simpl in *; rewrite Hserve; simpl;
      rewrite Herr; simpl; settle_eq serve; simpl;
      (do 4 (split; [reflexivity|]));
      match goal with
      | |- context [Requested [q_select _ _ _ _ _; _] [?a; ?b]] => exists a, b
      end;
      repeat rewrite <- app_assoc; simpl;
      repeat match goal with H : error _ = _ |- _ => rewrite H end;
      simpl; rewrite ?orb_true_r; reflexivity.
Qed.

(** X16. handleDelete asks first.  When the user declines, nothing
    happens: no request, no toast, the page as it was.  When the user
    confirms, the one write it issues is the delete of the row with the
    given id, and whatever follows leaves the dialog, the item being
    edited and the form alone. *)
Theorem handleDelete_outcome (confirm : string -> bool) (id : jsstring)
    (w : World B MenuState) :
  let w' := snd (handleDelete serve confirm id w) in
  (confirm "Are you sure you want to delete this menu item?"%string = false -> w' = w)
  /\ (confirm "Are you sure you want to delete this menu item?"%string = true ->
      (exists outcome rest,
         trace w' = trace w ++ Requested [q_delete "menu_items" [f_eq "id" id]] [outcome] :: rest
         /\ forall e, In e rest -> forall qs ss, e = Requested qs ss ->
              forall q, In q qs -> exists t c o, q = q_select t c false [] o)
      /\ dialogOpen (state w') = dialogOpen (state w)
      /\ editingItem (state w') = editingItem (state w)
      /\ formData (state w') = formData (state w)).
Proof.
  destruct w as [b tr st]. unfold handleDelete, fetchMenuData. simpl.
  split; intros Hc; rewrite Hc; simpl; [reflexivity|]. unfold_run.
  settle_eq serve; simpl; (split; [|repeat split]);
    eexists _, _; repeat rewrite <- app_assoc; simpl; (split; [reflexivity|]);
    intros ev Hev qs ss -> q Hq; simpl in Hev;
    repeat (destruct Hev as [Hev | Hev]; [try discriminate Hev; injection Hev as <- <- |]);
    try contradiction;
    simpl in Hq; repeat (destruct Hq as [<- | Hq]; [eauto|]); contradiction.
Qed.
End Outcomes.

Section Dashboard.
Context {JN : JsNumber} {JE : JsEngine} (B : Type) (serve : Query -> B -> Settled * B).

(** X17. fetchDashboardStats awaits its four queries one after the
    other and always ends with loading false.  When all four promises
    resolve (with or without an error in the response), the statistics
    are set from the four responses: the two counts (0 when null), the
    revenue and the popular dishes.  When a promise rejects, nothing is
    requested after it, the statistics stay as they were and the one toast
    is the error. *)
Theorem fetchDashboardStats_outcome (today : jsstring) (w : World B DashboardState) :
  let w' := snd (fetchDashboardStats serve today w) in
  dashboard_loading (state w') = false
  /\ ((exists r1 r2 r3 r4,
         trace w' = trace w ++ answered (dashboard_queries today) [r1; r2; r3; r4]
         /\ stats (state w') =
            mk_DashboardStats (count_or_zero r1) (count_or_zero r2) (revenue r3)
                              (popularDishes (order_items_or_empty r4)))
      \/ (exists rs e,
            (List.length rs < 4)%nat
            /\ trace w' =
               trace w ++ answered (dashboard_queries today) rs
               ++ [Requested [nth (List.length rs) (dashboard_queries today)
                                  (q_delete "" [])] [Rejected e];
                   Toasted (mk_Toast "Error" (lit "Failed to fetch dashboard statistics") true)]
            /\ stats (state w') = stats (state w))).
Proof.
  destruct w as [b tr st]. unfold fetchDashboardStats. unfold_run.
  repeat match goal with
         | |- context [serve ?q ?b] =>
             let s := fresh "s" in
             let b' := fresh "b" in
             destruct (serve q b) as [s b']; destruct s as [?r | ?e]; simpl
         end;
    (split; [reflexivity|]); repeat rewrite <- app_assoc; simpl;
    first [ left; eexists _, _, _, _; split; reflexivity
          | right; exists []; eexists; split; [simpl; lia|]; split; reflexivity
          | right; eexists [_]; eexists; split; [simpl; lia|]; split; reflexivity
          | right; eexists [_; _]; eexists; split; [simpl; lia|]; split; reflexivity
          | right; eexists [_; _; _]; eexists; split; [simpl; lia|]; split; reflexivity ].
Qed.
End Dashboard.

(** ** How many dishes the dashboard shows *)

Section Count.
Context {JE : JsEngine}.

(** X18. When no menu item is called like a member of Object.prototype,
    the dashboard shows as many dishes as were ordered today, up to five:
    with [dishes] the distinct names, not empty, of the menu items of the
    line items, the list has min(5, number of dishes) entries, and when
    there are at most five dishes each of them is shown with its ordered
    quantity. *)
Theorem popular_dishes_count (orderItems : list OrderItemRow) (dishes : list jsstring) :
  plain orderItems ->
  NoDup dishes ->
  (forall name, In name dishes <->
                name <> [] /\ exists item, In item orderItems /\ oi_menu_items item = Some name) ->
  List.length (popularDishes orderItems) = Nat.min 5 (List.length dishes)
  /\ ((List.length dishes <= 5)%nat ->
      forall name, In name dishes ->
        In (mk_Dish name (v_number (ordered name orderItems))) (popularDishes orderItems)).
Proof.
  intros Hplain Hnd Hdishes.
  destruct (dishCounts_spec Hplain) as [Hkeys Hget].
  assert (Hsame : forall name, In name (map fst (dishCounts orderItems)) <-> In name dishes).
  { intros name. rewrite Hdishes, <- names_exists, <- truthy_nonempty. split.
    - intros Hin.
      destruct (truthy name && existsb (names name) orderItems) eqn:E;
        [now apply andb_prop in E|].
      exfalso. apply (proj1 (get_None (dishCounts orderItems) name)); [|assumption].
      now rewrite Hget, E.
    - intros [Ht Hex].
      assert (Hk : get_own (dishCounts orderItems) name
                   = Some (v_number (ordered name orderItems)))
        by now rewrite Hget, Ht, Hex.
      apply (@In_get _ _ _ Hkeys) in Hk. now apply (in_map fst) in Hk. }
  assert (Hlen : List.length (ranking orderItems) = List.length dishes).
  { rewrite <- (length_map (fun d => (dish_name d, dish_count d))).
    rewrite (Permutation_length (ranking_Permutation orderItems)).
    rewrite <- (length_map fst).
    apply Permutation_length, NoDup_Permutation; assumption. }
  rewrite popularDishes_ranking, length_firstn, Hlen. split; [reflexivity|].
  intros Hfew name Hname. rewrite firstn_all2 by lia.
  apply (In_ranking _ Hplain). simpl. apply Hdishes in Hname as [Hne Hex].
  repeat split; [assumption|]. now apply names_exists.
Qed.
End Count.

(** ** Which request a submit issues *)

Section Clicks.
Context {JN : JsNumber} (B : Type) (serve : Query -> B -> Settled * B).

Lemma typing_outcome (cs : list FieldChange) (w : World B MenuState) :
  typing cs w =
  (inr tt,
   mk_World (backend w) (trace w)
            (mk_MenuState (menuItems (state w)) (categories (state w)) (loading (state w))
                          (dialogOpen (state w)) (editingItem (state w))
                          (fold_left changed cs (formData (state w))))).
Proof.
  revert w. induction cs as [|c cs IH]; intros [b tr [mi ca lo di ed fo]]; [reflexivity|].
  simpl. unfold onChange. unfold_run. now rewrite IH.
Qed.

(** X19. Whatever the user types into the form, a submit after the "Add
    Menu Item" button inserts a new row built from what was typed into
    the empty form, and a submit after the edit button of an item updates
    the row with that item's id, with what was typed over the item's
    values. *)
Theorem submit_follows_the_last_click (cs : list FieldChange) (w : World B MenuState) :
  (exists outcome rest,
     trace (snd (handleSubmit serve (snd (typing cs (snd (add_click w)))))) =
     trace w ++
     Requested [q_insert "menu_items" [itemData (fold_left changed cs empty_form)]] [outcome]
     :: rest)
  /\ (forall number_toString item,
        let opened := snd (handleEdit number_toString item w) in
        exists outcome rest,
          trace (snd (handleSubmit serve (snd (typing cs opened)))) =
          trace w ++
          Requested [q_update "menu_items"
                              (patch_item (itemData (fold_left changed cs
                                                               (formData (state opened)))))
                              [f_eq "id" (it_id item)]] [outcome]
          :: rest).
Proof.
  split.
  - destruct (handleSubmit_request serve (snd (typing cs (snd (add_click w)))))
      as (outcome & rest & Htrace).
    exists outcome, rest. rewrite Htrace, typing_outcome.
    destruct w as [b tr st]. reflexivity.
  - intros number_toString item opened.
    destruct (handleSubmit_request serve (snd (typing cs opened)))
      as (outcome & rest & Htrace).
    exists outcome, rest. rewrite Htrace, typing_outcome.
    destruct w as [b tr st]. reflexivity.
Qed.

(** X20. toggleAvailability sends one update, of is_available alone, to
    its negation, for the row with the item's id.  When it fails the page
    is as it was and the one toast is the error; when it succeeds the
    toast names the item with "enabled" if it was unavailable and
    "disabled" if it was available, and the menu is fetched again.  The
    dialog, the item being edited and the form are never touched. *)
Theorem toggleAvailability_outcome (item : MenuItem) (w : World B MenuState)
    (s : Settled) (b : B) :
  serve (q_update "menu_items" (patch_available (negb (it_is_available item)))
                  [f_eq "id" (it_id item)]) (backend w) = (s, b) ->
  let w' := snd (toggleAvailability serve item w) in
  let request := Requested [q_update "menu_items"
                                     (patch_available (negb (it_is_available item)))
                                     [f_eq "id" (it_id item)]] [s] in
  (failed s = true ->
     state w' = state w /\ backend w' = b
     /\ trace w' = trace w ++ [request;
                               Toasted (mk_Toast "Error"
                                          (lit "Failed to update item availability") true)])
  /\ (failed s = false ->
      exists s1 s2,
        trace w' =
        trace w ++
        [request;
         Toasted (mk_Toast "Success"
                    (it_name item ++ lit " "
                     ++ lit (if it_is_available item then "disabled" else "enabled")) false);
         Requested menu_queries [s1; s2]]
        ++ (if failed s1 || failed s2
            then [Toasted (mk_Toast "Error" (lit "Failed to fetch menu data") true)]
            else []))
  /\ dialogOpen (state w') = dialogOpen (state w)
  /\ editingItem (state w') = editingItem (state w)
  /\ formData (state w') = formData (state w).
Proof.
  destruct w as [b0 tr st]. simpl. intros Hserve.
  unfold toggleAvailability, fetchMenuData, menu_queries. unfold_run. rewrite Hserve.
  destruct s as [r | e]; simpl.
  - destruct (error r) eqn:Herr; simpl.
    + split; [|split; [discriminate|repeat split]].
      intros _. rewrite <- app_assoc. repeat split.
    + split; [discriminate|]. settle_eq serve; simpl; (split; [|repeat split]); intros _;
        match goal with
        | |- context [Requested [q_select _ _ _ _ _; _] [?a; ?b]] => exists a, b
        end;
        repeat rewrite <- app_assoc; simpl;
        repeat match goal with H : error _ = _ |- _ => rewrite H end;
        simpl; rewrite ?orb_true_r; destruct (it_is_available item); reflexivity.
  - split; [|split; [discriminate|repeat split]].
    intros _. rewrite <- app_assoc. repeat split.
Qed.
End Clicks.

(** ** Runs *)

#[local] Existing Instance whole_numbers.
#[local] Existing Instance v8.

Example tarte_round_trip :
  let item := tarte in
  let w := mk_World tt [] (mk_MenuState [] [] false false None empty_form) in
  let w' := snd (handleEdit (fun _ => lit "8.5") item w) in
  fd_allergens (formData (state w')) = lit "nuts, dairy, gluten"
  /\ d_allergens (itemData (formData (state w'))) = it_allergens item.
Proof. split; reflexivity. Qed.


Lemma stripped_word (s : jsstring) :
  forallb (fun c => negb (is_white_space c)) s = true -> clean_word s = true -> clean s.
Proof.
  unfold clean_word. intros Hws Hcomma. rewrite forallb_forall in Hws, Hcomma. split; [split|].
  - intros c rest ->. apply negb_true_iff, Hws. now left.
  - intros c rest ->. apply negb_true_iff, Hws. apply in_or_app. right. now left.
  - intros Hin. specialize (Hcomma comma Hin). discriminate.
Qed.

Lemma edit_then_save_round_trip_witness :
  d_allergens (itemData (formData (state (snd (handleEdit (fun _ => lit "8.5") tarte
                                                           menu_start)))))
  = Some [lit "nuts"; lit "dairy"; lit "gluten"].
Proof.
  apply (edit_then_save_round_trip (fun _ => lit "8.5") tarte menu_start).
  - reflexivity.
  - repeat constructor; apply stripped_word; reflexivity.
  - discriminate.
Defined.

Lemma handleSubmit_outcome_witness :
  formData (state (snd (handleSubmit unreachable menu_start))) = formData (state menu_start)
  /\ dialogOpen (state (snd (handleSubmit obliging menu_start))) = false.
Proof.
  split.
  - destruct (proj1 (handleSubmit_outcome unreachable menu_start eq_refl)
                    (mk_ErrorObject (lit "Failed to fetch"))) as (Hstate & _).
    + right. eexists. split; reflexivity.
    + now rewrite Hstate.
  - destruct (proj2 (handleSubmit_outcome obliging menu_start eq_refl)
                    (mk_Response d_null None None) eq_refl eq_refl) as (Hclosed & _).
    exact Hclosed.
Defined.

Lemma handleDelete_outcome_witness :
  snd (handleDelete obliging (fun _ => false) (lit "m-1") menu_start) = menu_start.
Proof.
  now apply (handleDelete_outcome obliging (fun _ => false) (lit "m-1") menu_start).
Defined.

Lemma popular_dishes_count_witness :
  List.length (popularDishes [line "Tajine" 2; line "Harira" 1; line "Tajine" 1]) = 2%nat.
Proof.
  apply (@popular_dishes_count v8 [line "Tajine" 2; line "Harira" 1; line "Tajine" 1]
                               [lit "Tajine"; lit "Harira"]).
  - intros item name [<- | [<- | [<- | []]]] [= <-]; reflexivity.
  - repeat constructor; simpl; intuition discriminate.
  - intros name. split.
    + intros [<- | [<- | []]].
      * split; [discriminate|]. exists (line "Tajine" 2). split; [now left | reflexivity].
      * split; [discriminate|]. exists (line "Harira" 1).
        split; [right; now left | reflexivity].
    + intros (_ & item & [<- | [<- | [<- | []]]] & [= <-]); simpl; auto.
Defined.

Lemma popular_dishes_top_five_witness :
  List.length (popularDishes [line "Tajine" 2; mk_OrderItemRow None 9 None; line "Harira" 3])
  <= 5.
Proof.
  apply (@popular_dishes_top_five v8
           [line "Tajine" 2; mk_OrderItemRow None 9 None; line "Harira" 3]).
  intros item name [<- | [<- | [<- | []]]]; intros [= <-]; reflexivity.
Defined.

Lemma toggleAvailability_outcome_witness :
  state (snd (toggleAvailability unreachable tarte menu_start)) = state menu_start.
Proof.
  now apply (toggleAvailability_outcome unreachable tarte menu_start eq_refl).
Defined.

End PagesExtras.
